(** * LeicaData: extraction and merging of Leica multi-round survey exports

    A shallow embedding of [LeicaData.py] (class [DataPreprocessing]) and the
    properties of its parsers, of the three-way merge, of the global ordering
    of station batches and of the threaded runner. *)

From Stdlib Require Import ZArith Lia Ascii Permutation Sorted DecimalString.
From stdpp Require Import base option list sorting gmap strings.

Open Scope string_scope.
Open Scope list_scope.
Open Scope Z_scope.

(** ** Python values, exceptions and built-ins *)

(** The exceptions the modelled code can raise. [OSError] is the only one the
    source catches; [exit()] raises [SystemExit]. *)
Inductive exn : Type :=
  | IndexError
  | ValueError
  | TypeError
  | OSError
  | SystemExit.

Global Instance exn_eq_dec : EqDecision exn.
Proof. solve_decision. Defined.

(** A computation that returns a value or raises. *)
Inductive result (A : Type) : Type :=
  | Ok (a : A)
  | Raise (e : exn).
Arguments Ok {A} a.
Arguments Raise {A} e.

Global Instance result_ret : MRet result := fun _ a => Ok a.
Global Instance result_bind : MBind result := fun _ _ f m =>
  match m with
  | Ok a => f a
  | Raise e => Raise e
  end.

(** A field of a row after merging: a string, or Python's [None]. *)
Inductive pyval : Type :=
  | PyNone
  | PyStr (s : string).

Global Instance pyval_eq_dec : EqDecision pyval.
Proof. solve_decision. Defined.

(** A naive [datetime]: compared field by field, most significant first. *)
Record datetime : Type := mkDatetime {
  dt_year : Z; dt_month : Z; dt_day : Z;
  dt_hour : Z; dt_minute : Z; dt_second : Z
}.

Global Instance datetime_eq_dec : EqDecision datetime.
Proof. solve_decision. Defined.

(** The two built-ins whose full behaviour (Unicode digits, locale) is the
    interpreter's: [int(s)] and [datetime.strptime(s, '%Y-%m-%d %H:%M:%S')].
    Both return a value or raise [ValueError] on a [str] argument. *)
Class PyRuntime : Type := {
  py_int : string -> option Z;
  strptime : string -> option datetime
}.

(** [l[i]] for a Python list: negative indices count from the end. *)
Definition getitem {A} (l : list A) (i : Z) : result A :=
  let n := Z.of_nat (length l) in
  let k := if i <? 0 then i + n else i in
  if (0 <=? k) && (k <? n) then
    match l !! Z.to_nat k with
    | Some x => Ok x
    | None => Raise IndexError
    end
  else Raise IndexError.

(** [l[i] = x]. *)
Definition setitem {A} (l : list A) (i : Z) (x : A) : result (list A) :=
  let n := Z.of_nat (length l) in
  let k := if i <? 0 then i + n else i in
  if (0 <=? k) && (k <? n) then Ok (<[Z.to_nat k := x]> l)
  else Raise IndexError.

(** A slice bound as Python clamps it. *)
Definition clamp (n : Z) (b : Z) : Z :=
  if b <? 0 then Z.max (b + n) 0 else Z.min b n.

(** [l[lo:hi]]; an omitted bound is [None]. Slicing never raises. *)
Definition slice {A} (l : list A) (lo hi : option Z) : list A :=
  let n := Z.of_nat (length l) in
  let a := match lo with Some b => clamp n b | None => 0 end in
  let b := match hi with Some b => clamp n b | None => n end in
  take (Z.to_nat (b - a)) (drop (Z.to_nat a) l).

(** [range(a, b)]. *)
Definition range (a b : Z) : list Z := seqZ a (b - a).

(** [list(enumerate(l))]. *)
Definition enumerate {A} (l : list A) : list (Z * A) :=
  imap (fun i x => (Z.of_nat i, x)) l.

(** [s.split(c)] for a one-character separator. *)
Fixpoint split (c : ascii) (s : string) : list string :=
  match s with
  | EmptyString => [""]
  | String a s' =>
      if Ascii.eqb a c then "" :: split c s'
      else match split c s' with
           | w :: ws => String a w :: ws
           | [] => [String a ""]
           end
  end.

(** [str(n)] for an integer. *)
Definition py_str (n : Z) : string := NilZero.string_of_int (Z.to_int n).

(** [int(s)] as a computation. *)
Definition int `{PyRuntime} (s : string) : result Z :=
  match py_int s with
  | Some n => Ok n
  | None => Raise ValueError
  end.

(** ** processing_angle *)

Section Angle.
Context `{PyRuntime}.

(** The assignment of line 117. *)
Definition decorate (station_info : list string) (i : Z)
    (row date_info : list string) : list string :=
  station_info ++ [py_str (i + 1)] ++ row ++ date_info.

(** The inner [for j in range(i * rows, (i + 1) * rows)] with its [break]. *)
Fixpoint inner_loop (station_info date_info : list string) (limit i : Z)
    (js : list Z) (data : list (list string)) : result (list (list string)) :=
  match js with
  | [] => Ok data
  | j :: js' =>
      if j <? limit then
        row ← getitem data j;
        data' ← setitem data j (decorate station_info i row date_info);
        inner_loop station_info date_info limit i js' data'
      else Ok data
  end.

(** The outer [for i in range(returns)]. *)
Fixpoint outer_loop (station_info date_info : list string) (limit rows : Z)
    (rounds : list Z) (data : list (list string)) : result (list (list string)) :=
  match rounds with
  | [] => Ok data
  | i :: rounds' =>
      data' ← inner_loop station_info date_info limit i
                (range (i * rows) ((i + 1) * rows)) data;
      outer_loop station_info date_info limit rows rounds' data'
  end.

(** The body kept by lines 108-111: the rows between the two header rows
    and the summary row, without the rows of length one. *)
Definition angle_body (data : list (list string)) : list (list string) :=
  let data := slice data (Some 2) (Some (-1)) in
  let indices := (fun p => fst p) <$>
    List.filter (fun p : Z * list string => Nat.eqb (length (snd p)) 1) (enumerate data) in
  (fun p => snd p) <$>
    List.filter (fun p : Z * list string =>
                   negb (bool_decide (fst p ∈ indices))) (enumerate data).

(** [processing_angle], on the rows that [csv.reader] yields for the file. *)
Definition processing_angle (data : list (list string))
    : result (list (list string)) :=
  row0 ← getitem data 0;
  station ← getitem row0 0;
  height ← getitem row0 (-1);
  let station_info := [station; height] in
  f1 ← getitem row0 1;
  returns ← int f1;
  f2 ← getitem row0 2;
  k ← int f2;
  let rows := k + 1 in
  row1 ← getitem data 1;
  d1 ← getitem row1 1;
  date ← getitem (split "="%char d1) 1;
  d2 ← getitem row1 2;
  time ← getitem (split "="%char d2) 1;
  let date_info := [date; time] in
  let data := angle_body data in
  let limit := Z.of_nat (length data) in
  outer_loop station_info date_info limit rows (range 0 returns) data.

End Angle.

(** ** processing_distance *)

Section Distance.
Context `{PyRuntime}.

(** The rows kept by lines 142-143. *)
Definition distance_body (data : list (list string)) : list (list string) :=
  List.filter
    (fun sublist : list string =>
       negb (bool_decide ("Dist Start" ∈ sublist)) &&
       negb (bool_decide ("Dist End" ∈ sublist)))
    (slice data (Some 2) (Some (-1))).

(** [processing_distance], on the rows that [csv.reader] yields. *)
Definition processing_distance (data : list (list string))
    : result (list (list string)) :=
  row0 ← getitem data 0;
  station ← getitem row0 0;
  height ← getitem row0 (-1);
  let station_info := [station; height] in
  row1 ← getitem data 1;
  d1 ← getitem row1 1;
  date ← getitem (split "="%char d1) 1;
  d3 ← getitem row1 3;
  time ← getitem (split "="%char d3) 1;
  let date_info := [date; time] in
  Ok ((fun row => station_info ++ row ++ date_info) <$> distance_body data).

End Distance.

(** ** merge_data *)

Module Merge.

Abbreviation row := (list pyval).

(** [next((row for row in rows if row[:4] == station_info), default)]. *)
Definition first_match (station_info : row) (rows : list row) (default : row) : row :=
  match List.find (fun r : row => bool_decide (slice r None (Some 4) = station_info)) rows with
  | Some r => r
  | None => default
  end.

(** The placeholder [[None] * len(rows[0])]; it is built before the scan,
    whether or not a row matches. *)
Definition placeholder (rows : list row) : result row :=
  first ← getitem rows 0;
  Ok (replicate (length first) PyNone).

(** One iteration of the loop of lines 169-174. *)
Definition merge_row (tzt_data txt_data : list row) (tpt_row : row) : result row :=
  let station_info := slice tpt_row None (Some 4) in
  tzt_default ← placeholder tzt_data;
  let tzt_row := first_match station_info tzt_data tzt_default in
  txt_default ← placeholder txt_data;
  let txt_row := first_match station_info txt_data txt_default in
  z6 ← getitem tzt_row 6;
  x4 ← getitem txt_row 4;
  Ok (station_info ++ [z6] ++ slice tpt_row (Some 4) (Some 6)
        ++ slice tzt_row (Some 4) (Some 6) ++ [x4] ++ slice tpt_row (Some 6) None).

Fixpoint merge_loop (tzt_data txt_data : list row) (tpt_data : list row)
    (acc : list row) : result (list row) :=
  match tpt_data with
  | [] => Ok acc
  | tpt_row :: rest =>
      merged ← merge_row tzt_data txt_data tpt_row;
      merge_loop tzt_data txt_data rest (acc ++ [merged])
  end.

Definition merge_data (tpt_data tzt_data txt_data : list row) : result (list row) :=
  merge_loop tzt_data txt_data tpt_data [].

End Merge.

(** ** The global ordering of station batches *)

Module Ordering.

Abbreviation batch := (list (list pyval)).

Definition datetime_fields (d : datetime) : list Z :=
  [dt_year d; dt_month d; dt_day d; dt_hour d; dt_minute d; dt_second d].

Fixpoint lex_ltb (a b : list Z) : bool :=
  match a, b with
  | x :: a', y :: b' => (x <? y) || ((x =? y) && lex_ltb a' b')
  | [], _ :: _ => true
  | _, [] => false
  end.

(** [a < b] on datetimes. *)
Definition datetime_ltb (a b : datetime) : bool :=
  lex_ltb (datetime_fields a) (datetime_fields b).

(** [a + b] where the code expects two strings. *)
Definition str_add (a b : pyval) : result pyval :=
  match a, b with
  | PyStr s, PyStr t => Ok (PyStr (String.append s t))
  | _, _ => Raise TypeError
  end.

(** The key of line 331:
    [datetime.strptime(x[0][10] + ' ' + x[0][11], '%Y-%m-%d %H:%M:%S')]. *)
Definition sort_key `{PyRuntime} (x : batch) : result datetime :=
  first ← getitem x 0;
  date ← getitem first 10;
  s ← str_add date (PyStr " ");
  time ← getitem first 11;
  s' ← str_add s time;
  match s' with
  | PyStr text =>
      match strptime text with
      | Some d => Ok d
      | None => Raise ValueError
      end
  | PyNone => Raise TypeError
  end.

(** [list.sort(key=...)] computes every key first, in order. *)
Fixpoint keyed `{PyRuntime} (data : list batch) : result (list (datetime * batch)) :=
  match data with
  | [] => Ok []
  | x :: rest =>
      k ← sort_key x;
      ks ← keyed rest;
      Ok ((k, x) :: ks)
  end.

(** The sort is stable and compares keys with [<] only. *)
Fixpoint insert_keyed {A} (k : datetime) (x : A) (l : list (datetime * A))
    : list (datetime * A) :=
  match l with
  | [] => [(k, x)]
  | (k', y) :: l' =>
      if datetime_ltb k' k then (k', y) :: insert_keyed k x l'
      else (k, x) :: (k', y) :: l'
  end.

Fixpoint stable_sort {A} (l : list (datetime * A)) : list (datetime * A) :=
  match l with
  | [] => []
  | (k, x) :: l' => insert_keyed k x (stable_sort l')
  end.

(** [data.sort(key=lambda x: ...)]. *)
Definition sort_batches `{PyRuntime} (data : list batch) : result (list batch) :=
  ks ← keyed data;
  Ok ((fun p => snd p) <$> stable_sort ks).

End Ordering.

(** ** The built-ins on ASCII text

    A runtime for the inputs the instrument writes: [int] on ASCII decimal
    literals and [strptime] with the pattern CPython compiles for
    ['%Y-%m-%d %H:%M:%S']. *)

Module AsciiRuntime.

Definition code (c : ascii) : Z := Z.of_nat (nat_of_ascii c).

Definition is_space (c : ascii) : bool :=
  let n := code c in
  ((9 <=? n) && (n <=? 13)) || ((28 <=? n) && (n <=? 32)).

Definition digit_of (c : ascii) : option Z :=
  let n := code c in
  if (48 <=? n) && (n <=? 57) then Some (n - 48) else None.

Fixpoint lstrip (s : list ascii) : list ascii :=
  match s with
  | c :: s' => if is_space c then lstrip s' else s
  | [] => []
  end.

Definition strip (s : list ascii) : list ascii :=
  rev (lstrip (rev (lstrip s))).

(** Digits with single underscores between them. *)
Fixpoint digits (acc : Z) (after_digit : bool) (s : list ascii) : option Z :=
  match s with
  | [] => if after_digit then Some acc else None
  | c :: s' =>
      if Ascii.eqb c "_" then
        if after_digit then digits acc false s' else None
      else
        match digit_of c with
        | Some d => digits (acc * 10 + d) true s'
        | None => None
        end
  end.

Definition ascii_int (s : string) : option Z :=
  match strip (String.list_ascii_of_string s) with
  | c :: s' =>
      if Ascii.eqb c "-" then Z.opp <$> digits 0 false s'
      else if Ascii.eqb c "+" then digits 0 false s'
      else digits 0 false (c :: s')
  | [] => None
  end.

(** A pattern yields its matches in the order the regex engine tries them. *)
Definition pattern : Type := list ascii -> list (Z * list ascii).

Definition two_digits (ok : Z -> Z -> bool) : pattern := fun s =>
  match s with
  | c1 :: c2 :: s' =>
      match digit_of c1, digit_of c2 with
      | Some d1, Some d2 => if ok d1 d2 then [(d1 * 10 + d2, s')] else []
      | _, _ => []
      end
  | _ => []
  end.

Definition one_digit (ok : Z -> bool) : pattern := fun s =>
  match s with
  | c :: s' =>
      match digit_of c with
      | Some d => if ok d then [(d, s')] else []
      | None => []
      end
  | _ => []
  end.

Definition alt (p q : pattern) : pattern := fun s => p s ++ q s.

Definition literal (c : ascii) : pattern := fun s =>
  match s with
  | c' :: s' => if Ascii.eqb c c' then [(0, s')] else []
  | [] => []
  end.

(** [\s+]: the token after it never starts with a space, so only the whole
    run of spaces can lead to a match. *)
Definition spaces : pattern := fun s =>
  match s with
  | c :: s' => if is_space c then [(0, lstrip s')] else []
  | [] => []
  end.

(** [%Y]: four digits. *)
Definition year_p : pattern := fun s =>
  '(hi, s1) ← two_digits (fun _ _ => true) s;
  '(lo, s2) ← two_digits (fun _ _ => true) s1;
  [(hi * 100 + lo, s2)].

(** [%m]: [1[0-2]|0[1-9]|[1-9]]. *)
Definition month_p : pattern :=
  alt (two_digits (fun a b => (a =? 1) && (b <=? 2)))
 (alt (two_digits (fun a b => (a =? 0) && (1 <=? b)))
      (one_digit (fun a => 1 <=? a))).

(** [%d]: [3[01]|[12]\d|0[1-9]|[1-9]| [1-9]]. *)
Definition day_p : pattern :=
  alt (two_digits (fun a b => (a =? 3) && (b <=? 1)))
 (alt (two_digits (fun a _ => (1 <=? a) && (a <=? 2)))
 (alt (two_digits (fun a b => (a =? 0) && (1 <=? b)))
 (alt (one_digit (fun a => 1 <=? a))
      (fun s => '(_, s1) ← literal " " s; one_digit (fun a => 1 <=? a) s1)))).

(** [%H]: [2[0-3]|[0-1]\d|\d]. *)
Definition hour_p : pattern :=
  alt (two_digits (fun a b => (a =? 2) && (b <=? 3)))
 (alt (two_digits (fun a _ => a <=? 1))
      (one_digit (fun _ => true))).

(** [%M]: [[0-5]\d|\d]. *)
Definition minute_p : pattern :=
  alt (two_digits (fun a _ => a <=? 5)) (one_digit (fun _ => true)).

(** [%S]: [6[0-1]|[0-5]\d|\d]. *)
Definition second_p : pattern :=
  alt (two_digits (fun a b => (a =? 6) && (b <=? 1)))
 (alt (two_digits (fun a _ => a <=? 5))
      (one_digit (fun _ => true))).

Definition matches (s : list ascii) : list (datetime * list ascii) :=
  '(y, s) ← year_p s;
  '(_, s) ← literal "-" s;
  '(m, s) ← month_p s;
  '(_, s) ← literal "-" s;
  '(d, s) ← day_p s;
  '(_, s) ← spaces s;
  '(hh, s) ← hour_p s;
  '(_, s) ← literal ":" s;
  '(mm, s) ← minute_p s;
  '(_, s) ← literal ":" s;
  '(ss, s) ← second_p s;
  [(mkDatetime y m d hh mm ss, s)].

Definition is_leap (y : Z) : bool :=
  (y mod 4 =? 0) && (negb (y mod 100 =? 0) || (y mod 400 =? 0)).

Definition days_in_month (y m : Z) : Z :=
  if m =? 2 then (if is_leap y then 29 else 28)
  else if (m =? 4) || (m =? 6) || (m =? 9) || (m =? 11) then 30
  else 31.

(** The checks of the [datetime] constructor. *)
Definition valid (d : datetime) : bool :=
  (1 <=? dt_year d) && (dt_day d <=? days_in_month (dt_year d) (dt_month d))
  && (dt_second d <=? 59).

Definition ascii_strptime (s : string) : option datetime :=
  match matches (String.list_ascii_of_string s) with
  | (d, []) :: _ => if valid d then Some d else None
  | _ => None
  end.

Definition runtime : PyRuntime :=
  {| py_int := ascii_int; strptime := ascii_strptime |}.

End AsciiRuntime.

(** ** merge_data on the object store

    Python lists are objects: a row is a list of strings and [None], a table
    is a list of references to rows. Slices, list displays, [+] and [*] build
    new list objects; [append] writes to an existing one. *)

Module Store.

Definition loc : Type := positive.

Inductive obj : Type :=
  | ORow (fields : list pyval)
  | OTable (rows : list loc).

Abbreviation heap := (gmap loc obj).

(** A computation on the store. *)
Definition M (A : Type) : Type := heap -> result A * heap.

Definition ret {A} (a : A) : M A := fun h => (Ok a, h).

Definition bind {A B} (m : M A) (f : A -> M B) : M B := fun h =>
  match m h with
  | (Ok a, h') => f a h'
  | (Raise e, h') => (Raise e, h')
  end.

Definition lift {A} (r : result A) : M A := fun h => (r, h).

Declare Scope store_scope.
Delimit Scope store_scope with store.
Notation "x <- m ;; k" := (bind m (fun x => k))
  (at level 100, m at next level, right associativity) : store_scope.

Open Scope store_scope.

(** A new list object. *)
Definition alloc (o : obj) : M loc := fun h =>
  let l := fresh (dom h) in (Ok l, <[l := o]> h).

Definition read_row (l : loc) : M (list pyval) := fun h =>
  match h !! l with
  | Some (ORow fields) => (Ok fields, h)
  | _ => (Raise TypeError, h)
  end.

Definition read_table (l : loc) : M (list loc) := fun h =>
  match h !! l with
  | Some (OTable rows) => (Ok rows, h)
  | _ => (Raise TypeError, h)
  end.

(** [table.append(x)]. *)
Definition append (table x : loc) : M unit := fun h =>
  match h !! table with
  | Some (OTable rows) => (Ok tt, <[table := OTable (rows ++ [x])]> h)
  | _ => (Raise TypeError, h)
  end.

(** [row[lo:hi]]. *)
Definition slice_row (l : loc) (lo hi : option Z) : M loc :=
  fields <- read_row l;;
  alloc (ORow (slice fields lo hi)).

(** [a + b]. *)
Definition concat_rows (a b : loc) : M loc :=
  x <- read_row a;;
  y <- read_row b;;
  alloc (ORow (x ++ y)).

(** [[v]]. *)
Definition display (v : pyval) : M loc := alloc (ORow [v]).

(** [row[i]]. *)
Definition row_item (l : loc) (i : Z) : M pyval :=
  fields <- read_row l;;
  lift (getitem fields i).

(** [a == b] on rows. *)
Definition rows_equal (a b : loc) : M bool :=
  x <- read_row a;;
  y <- read_row b;;
  ret (bool_decide (x = y)).

(** [[None] * len(table[0])]. *)
Definition placeholder (table : loc) : M loc :=
  one <- display PyNone;;
  rows <- read_table table;;
  first <- lift (getitem rows 0);;
  fields <- read_row first;;
  unit_row <- read_row one;;
  alloc (ORow (List.concat (replicate (length fields) unit_row))).

(** The generator [(row for row in table if row[:4] == station_info)],
    advanced to its first element. *)
Fixpoint scan (station_info : loc) (rows : list loc) : M (option loc) :=
  match rows with
  | [] => ret None
  | r :: rest =>
      key <- slice_row r None (Some 4);;
      same <- rows_equal key station_info;;
      if same then ret (Some r) else scan station_info rest
  end.

(** [next((row for row in table if ...), [None] * len(table[0]))]. *)
Definition first_match (station_info table : loc) : M loc :=
  rows <- read_table table;;
  default <- placeholder table;;
  found <- scan station_info rows;;
  ret (match found with Some r => r | None => default end).

(** Lines 170-173: the new list bound to [merged]. *)
Definition merged_record (tzt_data txt_data tpt_row : loc) : M loc :=
  station_info <- slice_row tpt_row None (Some 4);;
  tzt_row <- first_match station_info tzt_data;;
  txt_row <- first_match station_info txt_data;;
  z6 <- row_item tzt_row 6;;
  d1 <- display z6;;
  s1 <- concat_rows station_info d1;;
  p46 <- slice_row tpt_row (Some 4) (Some 6);;
  s2 <- concat_rows s1 p46;;
  z46 <- slice_row tzt_row (Some 4) (Some 6);;
  s3 <- concat_rows s2 z46;;
  x4 <- row_item txt_row 4;;
  d2 <- display x4;;
  s4 <- concat_rows s3 d2;;
  p6 <- slice_row tpt_row (Some 6) None;;
  concat_rows s4 p6.

(** The body of the loop of lines 169-174. *)
Definition merge_row (tzt_data txt_data result tpt_row : loc) : M unit :=
  merged <- merged_record tzt_data txt_data tpt_row;;
  append result merged.

Fixpoint merge_loop (tzt_data txt_data result : loc) (rows : list loc) : M unit :=
  match rows with
  | [] => ret tt
  | tpt_row :: rest =>
      _ <- merge_row tzt_data txt_data result tpt_row;;
      merge_loop tzt_data txt_data result rest
  end.

(** [merge_data]; the [for] loop visits the rows the table holds when the
    loop starts. *)
Definition merge_data (tpt_data tzt_data txt_data : loc) : M loc :=
  result <- alloc (OTable []);;
  rows <- read_table tpt_data;;
  _ <- merge_loop tzt_data txt_data result rows;;
  ret result.

(** The rows a table denotes. *)
Definition row_of (h : heap) (l : loc) : option (list pyval) :=
  match h !! l with
  | Some (ORow fields) => Some fields
  | _ => None
  end.

Definition table_of (h : heap) (l : loc) : option (list (list pyval)) :=
  match h !! l with
  | Some (OTable rows) => mapM (row_of h) rows
  | _ => None
  end.

Close Scope store_scope.

End Store.

(** ** process_data and process_threaded *)

Module Runner.

Import Ordering.

(** What the run finds outside the program: for a path, the rows
    [csv.reader] yields, or [None] when opening or reading raises
    [OSError]; and whether writing the workbook raises. *)
Record environment : Type := {
  fs : string -> option (list (list string));
  xls_save : list Merge.row -> option exn
}.

(** The error log: [handlers] tells whether the file handler is still
    attached to the logger. *)
Record logger : Type := {
  handlers : bool;
  entries : list exn
}.

(** [self.log(err)]. *)
Definition log (err : exn) (lg : logger) : logger :=
  if handlers lg then {| handlers := true; entries := entries lg ++ [err] |}
  else lg.

(** [self.logger.handlers.clear()]. *)
Definition clear_handlers (lg : logger) : logger :=
  {| handlers := false; entries := entries lg |}.

(** The handler every [except OSError] clause repeats. *)
Definition log_then_exit {A} (err : exn) (lg : logger) : result A * logger :=
  (Raise SystemExit, clear_handlers (log err lg)).

Definition to_py (rows : list (list string)) : list Merge.row :=
  (fun row : list string => PyStr <$> row) <$> rows.

(** [process_data]. *)
Definition process_data `{PyRuntime} (env : environment)
    (tpt_file tzt_file txt_file : string) (lg : logger) : result batch * logger :=
  match fs env tpt_file, fs env tzt_file, fs env txt_file with
  | Some tpt_f, Some tzt_f, Some txt_f =>
      (tpt_data ← processing_angle tpt_f;
       tzt_data ← processing_angle tzt_f;
       txt_data ← processing_distance txt_f;
       Merge.merge_data (to_py tpt_data) (to_py tzt_data) (to_py txt_data), lg)
  | _, _, _ => log_then_exit OSError lg
  end.

(** [output_excel]: the rows of all batches, written to one workbook. *)
Definition output_excel (env : environment) (data : list batch) (lg : logger)
    : result (list Merge.row) * logger :=
  let rows := List.concat data in
  match xls_save env rows with
  | None => (Ok rows, lg)
  | Some OSError => log_then_exit OSError lg
  | Some e => (Raise e, lg)
  end.

(** Truth value of [file_dict.get(ext)]. *)
Definition truthy (o : option string) : bool :=
  match o with
  | Some path => negb (String.eqb path "")
  | None => false
  end.

(** The test of line 322 for one group. *)
Definition complete_triple (file_dict : gmap string string)
    : option (string * string * string) :=
  let tpt_file := file_dict !! "TPT" in
  let tzt_file := file_dict !! "TZT" in
  let txt_file := file_dict !! "TXT" in
  if truthy tpt_file && truthy tzt_file && truthy txt_file then
    match tpt_file, tzt_file, txt_file with
    | Some a, Some b, Some c => Some (a, b, c)
    | _, _, _ => None
    end
  else None.

(** The threads the loop of lines 318-325 starts, in order. *)
Definition spawned (files : list (string * gmap string string))
    : list (string * string * string) :=
  omap (fun entry => complete_triple (snd entry)) files.

(** Where a worker is in [process_files]. *)
Inductive phase : Type :=
  | Waiting      (* started, before [semaphore.acquire()] returns *)
  | Holding      (* inside [try], before [process_data] *)
  | Releasing    (* in [finally], before [semaphore.release()] *)
  | Finished.

Global Instance phase_eq_dec : EqDecision phase.
Proof. solve_decision. Defined.

Record state : Type := {
  semaphore : Z;
  pending : list (string * string * string);
  threads : list (string * string * string * phase);
  data : list batch;
  processed_files : nat;
  lg : logger
}.

Definition initial (max_threads : Z) (files : list (string * gmap string string))
    (lg0 : logger) : state :=
  {| semaphore := max_threads; pending := spawned files; threads := [];
     data := []; processed_files := 0; lg := lg0 |}.

(** One step of the interleaved execution. *)
Inductive step `{PyRuntime} (env : environment) : state -> state -> Prop :=
  | step_start st t rest :
      pending st = t :: rest ->
      step env st
        {| semaphore := semaphore st; pending := rest;
           threads := threads st ++ [(t, Waiting)];
           data := data st; processed_files := processed_files st; lg := lg st |}
  | step_acquire st k t :
      threads st !! k = Some (t, Waiting) ->
      0 < semaphore st ->
      step env st
        {| semaphore := semaphore st - 1; pending := pending st;
           threads := <[k := (t, Holding)]> (threads st);
           data := data st; processed_files := processed_files st; lg := lg st |}
  | step_append st k tpt tzt txt temp lg' :
      threads st !! k = Some (tpt, tzt, txt, Holding) ->
      process_data env tpt tzt txt (lg st) = (Ok temp, lg') ->
      step env st
        {| semaphore := semaphore st; pending := pending st;
           threads := <[k := (tpt, tzt, txt, Releasing)]> (threads st);
           data := data st ++ [temp];
           processed_files := S (processed_files st); lg := lg' |}
  | step_raise st k tpt tzt txt e lg' :
      threads st !! k = Some (tpt, tzt, txt, Holding) ->
      process_data env tpt tzt txt (lg st) = (Raise e, lg') ->
      step env st
        {| semaphore := semaphore st; pending := pending st;
           threads := <[k := (tpt, tzt, txt, Releasing)]> (threads st);
           data := data st; processed_files := processed_files st; lg := lg' |}
  | step_release st k t :
      threads st !! k = Some (t, Releasing) ->
      step env st
        {| semaphore := semaphore st + 1; pending := pending st;
           threads := <[k := (t, Finished)]> (threads st);
           data := data st; processed_files := processed_files st; lg := lg st |}.

Definition reachable `{PyRuntime} (env : environment) (max_threads : Z)
    (files : list (string * gmap string string)) (lg0 : logger) (st : state) : Prop :=
  rtc (step env) (initial max_threads files lg0) st.

(** Workers that hold an admission slot. *)
Definition holds_slot (w : string * string * string * phase) : bool :=
  match snd w with
  | Holding | Releasing => true
  | Waiting | Finished => false
  end.

Definition holders (st : state) : Z :=
  Z.of_nat (length (List.filter holds_slot (threads st))).

(** Every thread was started and joined. *)
Definition joined (st : state) : Prop :=
  pending st = [] /\ Forall (fun w => snd w = Finished) (threads st).

(** How a run ends: the workbook was written, or the main thread died with
    an exception. *)
Inductive run_end : Type :=
  | Report (rows : list Merge.row)
  | Died (e : exn).

(** Lines 330-334, after the joins. *)
Definition finish `{PyRuntime} (env : environment) (st : state) : run_end * logger :=
  match sort_batches (data st) with
  | Raise e => (Died e, lg st)
  | Ok sorted =>
      match output_excel env sorted (lg st) with
      | (Ok rows, lg') => (Report rows, lg')
      | (Raise e, lg') => (Died e, lg')
      end
  end.

End Runner.

(** ** Vocabulary of the statements about processing_angle *)

Section AngleVocabulary.
Context `{PyRuntime}.
Implicit Types (data body : list (list string)) (row : list string).

(** The data rows of an export, in the words of the format: without the
    two header rows, the summary row and the rows of length one. *)
Definition data_rows data : list (list string) :=
  List.filter (fun row => negb (Nat.eqb (length row) 1))
    (drop 2 (take (length data - 1) data)).

(** What the header declares. [K] is the third field of the first row. *)
Definition declares data (station height : string) (R K : Z)
    (date time : string) : Prop :=
  exists row0 row1 f1 f2 d1 d2,
    data !! 0%nat = Some row0 /\ data !! 1%nat = Some row1 /\
    row0 !! 0%nat = Some station /\ last row0 = Some height /\
    row0 !! 1%nat = Some f1 /\ py_int f1 = Some R /\
    row0 !! 2%nat = Some f2 /\ py_int f2 = Some K /\
    row1 !! 1%nat = Some d1 /\ split "="%char d1 !! 1%nat = Some date /\
    row1 !! 2%nat = Some d2 /\ split "="%char d2 !! 1%nat = Some time.

(** The rows a header with [R] rounds of [rows] rows each can number. *)
Definition capacity (R rows : Z) : Z := Z.max 0 R * Z.max 0 rows.

(** The body with its first [c] rows numbered, [rows] rows to a round. *)
Definition numbered (station_info date_info : list string) (rows c : Z)
    body : list (list string) :=
  imap (fun j row =>
          if Z.of_nat j <? c
          then decorate station_info (Z.of_nat j / rows) row date_info
          else row) body.

End AngleVocabulary.

(** A small angle export: one round declared, one target declared, three
    data rows after the round marker. *)
Definition angle_export : list (list string) :=
  [ ["S1"; "1"; "1"; "x"; "1.5"];
    ["h"; "Date=2024-01-02"; "Time=10:00:00"];
    ["1"];
    ["T1"; "0"; "a"; "b"];
    ["T2"; "0"; "a"; "b"];
    ["T3"; "0"; "a"; "b"];
    ["end"] ].

(** ** Vocabulary of the statements about merge_data *)

(** [r] is the first row of [rows] whose first four fields are [key]: it
    stands at position [k] and no earlier row has that key. *)
Definition first_with_key (key : list pyval) (rows : list (list pyval))
    (k : nat) (r : list pyval) : Prop :=
  rows !! k = Some r /\ take 4 r = key /\
  forall (k' : nat) r', (k' < k)%nat -> rows !! k' = Some r' -> take 4 r' <> key.

(** No row of [rows] has the key. *)
Definition no_row_with_key (key : list pyval) (rows : list (list pyval)) : Prop :=
  forall r, r ∈ rows -> take 4 r <> key.

(** One angle, one zenith and one distance row for target [T1] of round 1
    at station [S1], as the parsers deliver them. *)
Definition angle_rows : list (list pyval) :=
  [ PyStr <$> ["S1"; "1.5"; "1"; "T1"; "10.0000"; "190.0000"; "2024-01-02"; "10:00:00"] ].

Definition zenith_rows : list (list pyval) :=
  [ PyStr <$> ["S1"; "1.5"; "1"; "T0"; "91.0000"; "269.0000"; "1.2"; "10:00:00"];
    PyStr <$> ["S1"; "1.5"; "1"; "T1"; "90.0000"; "270.0000"; "1.3"; "10:00:00"];
    PyStr <$> ["S1"; "1.5"; "1"; "T1"; "95.0000"; "265.0000"; "1.9"; "10:00:00"] ].

Definition distance_rows : list (list pyval) :=
  [ PyStr <$> ["S1"; "1.5"; "1"; "T1"; "123.456"; "2024-01-02"; "10:00:00"] ].

(** ** Vocabulary of the statements about the ordering of batches *)

(** The timestamp of a batch: the date (field 10) and the time (field 11)
    of its first record, joined by one space and parsed. *)
Definition timestamp `{PyRuntime} (b : list (list pyval)) : option datetime :=
  match b with
  | first :: _ =>
      match first !! 10%nat, first !! 11%nat with
      | Some (PyStr date), Some (PyStr time) =>
          strptime (String.append (String.append date " ") time)
      | _, _ => None
      end
  | [] => None
  end.

(** [a <= b] on datetimes. *)
Definition datetime_le (a b : datetime) : Prop :=
  Ordering.datetime_ltb b a = false.

(** A list of batches in ascending order of timestamp. *)
Definition ascending `{PyRuntime} (out : list (list (list pyval))) : Prop :=
  forall (i j : nat) bi bj ki kj,
    (i < j)%nat -> out !! i = Some bi -> out !! j = Some bj ->
    timestamp bi = Some ki -> timestamp bj = Some kj -> datetime_le ki kj.

(** A batch of one record for station [name], observed at [date] [time]. *)
Definition station_batch (name date time : string) : list (list pyval) :=
  [ PyStr <$> [name; "1.5"; "1"; "T1"; "1.3"; "10.0000"; "190.0000";
               "90.0000"; "270.0000"; "123.456"; date; time] ].

Definition three_batches : list (list (list pyval)) :=
  [ station_batch "A" "2024-01-02" "10:00:00";
    station_batch "B" "2024-01-01" "09:00:00";
    station_batch "C" "2024-01-03" "08:00:00" ].

(** Order of two keyed batches. *)
Definition key_le {A} (p q : datetime * A) : Prop := datetime_le (fst p) (fst q).

(** ** Fixtures for the runner: the exports of one station *)

Definition tpt_export (date : string) (body : list (list string)) : list (list string) :=
  [ ["S1"; "1"; "1"; "x"; "1.5"];
    ["h"; String.append "Date=" date; "Time=10:00:00"] ]
  ++ body ++ [ ["end"] ].

Definition tpt_body : list (list string) :=
  [ ["1"]; ["T1"; "10.0000"; "190.0000"]; ["T2"; "20.0000"; "200.0000"] ].

Definition tzt_export : list (list string) :=
  [ ["S1"; "1"; "1"; "x"; "1.5"];
    ["h"; "Date=2024-01-02"; "Time=10:00:00"];
    ["1"];
    ["T1"; "90.0000"; "270.0000"; "1.3"];
    ["T2"; "91.0000"; "269.0000"; "1.4"];
    ["end"] ].

Definition txt_export : list (list string) :=
  [ ["S1"; "x"; "1.5"];
    ["h"; "Date=2024-01-02"; "x"; "Time=10:00:00"];
    ["Dist Start"];
    ["1"; "T1"; "123.456"];
    ["1"; "T2"; "234.567"];
    ["Dist End"];
    ["end"] ].

(** A folder with the three exports of station [S1]; the workbook can be
    written. *)
Definition exports_env (tpt tzt txt : list (list string)) : Runner.environment :=
  {| Runner.fs := fun path =>
       if String.eqb path "st1/S1.TPT" then Some tpt
       else if String.eqb path "st1/S1.TZT" then Some tzt
       else if String.eqb path "st1/S1.TXT" then Some txt
       else None;
     Runner.xls_save := fun _ => None |}.

(** The same with the zenith and distance exports above; [tpt] is the
    content of the angle file. *)
Definition station_env (tpt : list (list string)) : Runner.environment :=
  exports_env tpt tzt_export txt_export.

(** A zenith export with its header and summary rows and no observation. *)
Definition tzt_export_without_rows : list (list string) :=
  [ ["S1"; "1"; "1"; "x"; "1.5"];
    ["h"; "Date=2024-01-02"; "Time=10:00:00"];
    ["end"] ].

Definition station_files : list (string * gmap string string) :=
  [ ("st1", <["TPT" := "st1/S1.TPT"]> (<["TZT" := "st1/S1.TZT"]>
              (<["TXT" := "st1/S1.TXT"]> ∅))) ].

(** A group in which the zenith file is missing. *)
Definition partial_group : gmap string string :=
  <["TPT" := "st2/S2.TPT"]> (<["TXT" := "st2/S2.TXT"]> ∅).

Definition empty_log : Runner.logger :=
  {| Runner.handlers := true; Runner.entries := [] |}.

(** ** Vocabulary of the statements about the runner *)

(** What the workers of [triples] leave behind when they run one after the
    other, in the order they were started: the batches appended, the count
    of processed files and the log. *)
Fixpoint one_by_one `{PyRuntime} (env : Runner.environment)
    (triples : list (string * string * string))
    (data : list (list (list pyval))) (processed : nat) (lg : Runner.logger)
    : list (list (list pyval)) * nat * Runner.logger :=
  match triples with
  | [] => (data, processed, lg)
  | (tpt, tzt, txt) :: rest =>
      match Runner.process_data env tpt tzt txt lg with
      | (Ok temp, lg') => one_by_one env rest (data ++ [temp]) (S processed) lg'
      | (Raise _, lg') => one_by_one env rest data processed lg'
      end
  end.

(** The state after that schedule. *)
Definition after_one_by_one `{PyRuntime} (env : Runner.environment)
    (max_threads : Z) (files : list (string * gmap string string))
    (lg0 : Runner.logger) : Runner.state :=
  let '(data, processed, lg) := one_by_one env (Runner.spawned files) [] 0 lg0 in
  {| Runner.semaphore := max_threads; Runner.pending := [];
     Runner.threads := (fun t => (t, Runner.Finished)) <$> Runner.spawned files;
     Runner.data := data; Runner.processed_files := processed; Runner.lg := lg |}.

(** A second group whose three paths cannot be opened. *)
Definition unreadable_group : gmap string string :=
  <["TPT" := "st3/S3.TPT"]> (<["TZT" := "st3/S3.TZT"]>
    (<["TXT" := "st3/S3.TXT"]> ∅)).

(** The batch of station [S1] for an angle export dated [date]. *)
Definition s1_batch (date : string) : list (list pyval) :=
  [ PyStr <$> ["S1"; "1.5"; "1"; "T1"; "1.3"; "10.0000"; "190.0000";
               "90.0000"; "270.0000"; "123.456"; date; "10:00:00"];
    PyStr <$> ["S1"; "1.5"; "1"; "T2"; "1.4"; "20.0000"; "200.0000";
               "91.0000"; "269.0000"; "234.567"; date; "10:00:00"] ].

(** ** Vocabulary of the statements about the object store *)

(** [m] changes no object that exists: it only adds objects. *)
Definition only_allocates {A} (m : Store.M A) : Prop :=
  forall h : gmap Store.loc Store.obj, h ⊆ snd (m h).

(** [m] moreover returns a row that did not exist before. *)
Definition returns_new_row (m : Store.M Store.loc) : Prop :=
  forall h : gmap Store.loc Store.obj,
    h ⊆ snd (m h) /\
    forall l, fst (m h) = Ok l ->
      h !! l = None /\ exists fields, snd (m h) !! l = Some (Store.ORow fields).

(** What holds while the loop runs, [h0] being the store at the call: the
    objects of [h0] are as they were, and [result] is a table made since,
    holding rows made since. *)
Definition loop_invariant (h0 : gmap Store.loc Store.obj) (result : Store.loc)
    (h : gmap Store.loc Store.obj) : Prop :=
  h0 ⊆ h /\ h0 !! result = None /\
  exists rows,
    h !! result = Some (Store.OTable rows) /\
    Forall (fun r => h0 !! r = None /\
                     exists fields, h !! r = Some (Store.ORow fields)) rows.

(** A store holding the three tables of the merge fixture at locations 1
    (angle), 2 (zenith) and 3 (distance), their rows from 10 on. *)
Definition fixture_heap : gmap Store.loc Store.obj :=
  list_to_map
    [ (1%positive, Store.OTable [10%positive]);
      (2%positive, Store.OTable [20%positive; 21%positive; 22%positive]);
      (3%positive, Store.OTable [30%positive]);
      (10%positive, Store.ORow (PyStr <$> ["S1"; "1.5"; "1"; "T1"; "10.0000"; "190.0000"; "2024-01-02"; "10:00:00"]));
      (20%positive, Store.ORow (PyStr <$> ["S1"; "1.5"; "1"; "T0"; "91.0000"; "269.0000"; "1.2"; "10:00:00"]));
      (21%positive, Store.ORow (PyStr <$> ["S1"; "1.5"; "1"; "T1"; "90.0000"; "270.0000"; "1.3"; "10:00:00"]));
      (22%positive, Store.ORow (PyStr <$> ["S1"; "1.5"; "1"; "T1"; "95.0000"; "265.0000"; "1.9"; "10:00:00"]));
      (30%positive, Store.ORow (PyStr <$> ["S1"; "1.5"; "1"; "T1"; "123.456"; "2024-01-02"; "10:00:00"])) ].

(** [m], run in [h], ends with a result and a store that satisfy [R], and
    keeps what [h] holds. *)
Definition outcome {A} (m : Store.M A) (h : gmap Store.loc Store.obj)
    (R : result A -> gmap Store.loc Store.obj -> Prop) : Prop :=
  exists r h', m h = (r, h') /\ h ⊆ h' /\ R r h'.

(** The result on the store agrees with the result on values: the same
    exception, or a reference to a row that reads as the value. *)
Definition same_row (expected : result (list pyval)) (r : result Store.loc)
    (h : gmap Store.loc Store.obj) : Prop :=
  match expected, r with
  | Ok fields, Ok l => Store.row_of h l = Some fields
  | Raise e, Raise e' => e = e'
  | _, _ => False
  end.

(** The table at [t] holds references to rows that read as [T]. *)
Definition denotes (h : gmap Store.loc Store.obj) (t : Store.loc)
    (T : list (list pyval)) : Prop :=
  exists locs, h !! t = Some (Store.OTable locs) /\
    Forall2 (fun l r => Store.row_of h l = Some r) locs T.

(** ** Vocabulary of the statements about what the workers collect *)

(** The three files of a triple can be opened. *)
Definition readable (env : Runner.environment)
    (t : string * string * string) : bool :=
  match Runner.fs env (fst (fst t)), Runner.fs env (snd (fst t)),
        Runner.fs env (snd t) with
  | Some _, Some _, Some _ => true
  | _, _, _ => false
  end.

(** The batch the worker of a triple appends, if [process_data] returns
    one for its files. *)
Definition worker_batch `{PyRuntime} (env : Runner.environment)
    (t : string * string * string) : option (list (list pyval)) :=
  match fst (Runner.process_data env (fst (fst t)) (snd (fst t)) (snd t) empty_log) with
  | Ok temp => Some temp
  | Raise _ => None
  end.

(** The worker has left the [try] block of [process_files]. *)
Definition has_run (w : string * string * string * Runner.phase) : bool :=
  match snd w with
  | Runner.Releasing | Runner.Finished => true
  | Runner.Waiting | Runner.Holding => false
  end.

(** The log after a first [OSError] went through the log-then-exit path. *)
Definition after_exit (lg0 : Runner.logger) : Runner.logger :=
  Runner.clear_handlers (Runner.log OSError lg0).

(** What every interleaving keeps, [files] being what the run started
    with: the workers started and those still to start are the complete
    groups, in order; the collected batches are those of the workers that
    have left [try] with a result; and the counter counts them. *)
Definition collection_invariant `{PyRuntime} (env : Runner.environment)
    (files : list (string * gmap string string)) (st : Runner.state) : Prop :=
  ((fun w => fst w) <$> Runner.threads st) ++ Runner.pending st
    = Runner.spawned files /\
  Runner.data st
    ≡ₚ omap (fun w => if has_run w then worker_batch env (fst w) else None)
         (Runner.threads st) /\
  Runner.processed_files st = length (Runner.data st).

(** Every batch has a timestamp, and no two batches share one. *)
Definition distinct_timestamps `{PyRuntime} (l : list (list (list pyval))) : Prop :=
  Forall (fun b => is_Some (timestamp b)) l /\ NoDup (timestamp <$> l).

(** ** Vocabulary of the statements about processing_distance and the
    failures of the parsers *)

(** What the header of a distance export declares; the time stands in the
    fourth field of the second row. *)
Definition distance_header (data : list (list string))
    (station height date time : string) : Prop :=
  exists row0 row1 d1 d3,
    data !! 0%nat = Some row0 /\ data !! 1%nat = Some row1 /\
    row0 !! 0%nat = Some station /\ last row0 = Some height /\
    row1 !! 1%nat = Some d1 /\ split "="%char d1 !! 1%nat = Some date /\
    row1 !! 3%nat = Some d3 /\ split "="%char d3 !! 1%nat = Some time.

(** The observations of a distance export: the rows between the two header
    rows and the summary row that hold no [Dist Start] or [Dist End] field. *)
Definition observations (data : list (list string)) : list (list string) :=
  List.filter
    (fun row : list string =>
       negb (bool_decide ("Dist Start" ∈ row)) &&
       negb (bool_decide ("Dist End" ∈ row)))
    (drop 2 (take (length data - 1) data)).

(** [m] raises no exception outside [kinds]. *)
Definition raises_only {A} (kinds : list exn) (m : result A) : Prop :=
  forall e, m = Raise e -> e ∈ kinds.

(** ** get_files *)

Module Files.

(** The functions of [os.path] the method calls; what they return depends
    on the platform. *)
Class OsPath : Type := {
  basename : string -> string;
  join : string -> string -> string;
  splitext : string -> string * string
}.

(** [c.upper()] for one byte of a name: the ASCII letters change. A suffix
    that upper-cases to [.TPT], [.TZT] or [.TXT] holds ASCII letters only,
    so that the test of line 83 and the key of line 84 are those of the
    interpreter. *)
Definition upper_ascii (c : ascii) : ascii :=
  let n := nat_of_ascii c in
  if (97 <=? n)%nat && (n <=? 122)%nat then ascii_of_nat (n - 32) else c.

(** [s.upper()]. *)
Fixpoint upper (s : string) : string :=
  match s with
  | EmptyString => EmptyString
  | String c s' => String (upper_ascii c) (upper s')
  end.

(** [s[1:]]. *)
Definition str_tail (s : string) : string :=
  match s with
  | EmptyString => EmptyString
  | String _ s' => s'
  end.

(** [result.setdefault(folder_name, {})[key] = file_path], the dict kept in
    insertion order: a known folder keeps its place, a new one goes last. *)
Fixpoint setdefault_setitem (folder_name key file_path : string)
    (result : list (string * gmap string string))
    : list (string * gmap string string) :=
  match result with
  | [] => [(folder_name, {[ key := file_path ]})]
  | (name, file_dict) :: rest =>
      if String.eqb name folder_name
      then (name, <[key := file_path]> file_dict) :: rest
      else (name, file_dict) :: setdefault_setitem folder_name key file_path rest
  end.

(** The test of line 83. *)
Definition recognised (ext : string) : bool :=
  bool_decide (upper ext ∈ [".TPT"; ".TZT"; ".TXT"]).

(** The body of the inner loop, lines 81-84. *)
Definition visit_file `{OsPath} (dir_path folder_name : string)
    (result : list (string * gmap string string)) (file_name : string)
    : list (string * gmap string string) :=
  let file_path := join dir_path file_name in
  let ext := snd (splitext file_name) in
  if recognised ext
  then setdefault_setitem folder_name (upper (str_tail ext)) file_path result
  else result.

(** The body of the outer loop, lines 79-84, for one directory that
    [os.walk] yields: its path and the names of its files. *)
Definition visit_dir `{OsPath} (result : list (string * gmap string string))
    (entry : string * list string) : list (string * gmap string string) :=
  let folder_name := basename (fst entry) in
  foldl (visit_file (fst entry) folder_name) result (snd entry).

(** [get_files], on the directories [os.walk(self.paths)] yields, in
    order. [os.walk] skips what it cannot list, and the functions of
    [os.path] raise no [OSError]: the handler of lines 86-89 is not
    entered. *)
Definition get_files `{OsPath} (walk : list (string * list string))
    : list (string * gmap string string) :=
  foldl visit_dir [] walk.

End Files.

(** ** Vocabulary of the statements about get_files *)

(** [files[folder_name][key]] when both keys are present. *)
Definition stored (files : list (string * gmap string string))
    (folder_name key : string) : option string :=
  match List.find (fun entry => String.eqb (fst entry) folder_name) files with
  | Some entry => snd entry !! key
  | None => None
  end.

(** The files of the walk with one of the three suffixes, in the order in
    which the walk meets them: each with the name of its folder, its key
    and its path. *)
Definition recognised_files `{Files.OsPath} (walk : list (string * list string))
    : list (string * string * string) :=
  entry ← walk;
  omap (fun file_name =>
          let ext := snd (Files.splitext file_name) in
          if Files.recognised ext
          then Some (Files.basename (fst entry), Files.upper (Files.str_tail ext),
                     Files.join (fst entry) file_name)
          else None) (snd entry).

(** A platform for the examples: paths joined by [/], the folder of a path
    being what follows its last [/], the suffix of a name what starts at
    its last dot. *)
Fixpoint after_last (c : ascii) (s : string) : option string :=
  match s with
  | EmptyString => None
  | String a s' =>
      match after_last c s' with
      | Some t => Some t
      | None => if Ascii.eqb a c then Some s' else None
      end
  end.

Definition slash_paths : Files.OsPath :=
  {| Files.basename := fun p => default p (after_last "/" p);
     Files.join := fun a b => String.append a (String.append "/" b);
     Files.splitext := fun name =>
       match after_last "." name with
       | Some ext =>
           (String.substring 0 (String.length name - String.length ext - 1) name,
            String.append "." ext)
       | None => (name, "")
       end |}.

(** A survey folder with two station folders of the same name in different
    places, a file of another kind and a suffix in lower case. *)
Definition survey_walk : list (string * list string) :=
  [ ("root", ["notes.doc"]);
    ("root/a/st1", ["S1.TPT"; "S1.tzt"; "S1.TXT"]);
    ("root/b/st1", ["other.TPT"]) ].

(** ** Fixtures for the statements about schedules *)

(** The exports of two stations: [S1] observed on 2 January, and a second
    station in folder [st2] observed the day before. *)
Definition two_station_env : Runner.environment :=
  {| Runner.fs := fun path =>
       if String.eqb path "st1/S1.TPT" then Some (tpt_export "2024-01-02" tpt_body)
       else if String.eqb path "st1/S1.TZT" then Some tzt_export
       else if String.eqb path "st1/S1.TXT" then Some txt_export
       else if String.eqb path "st2/S2.TPT" then Some (tpt_export "2024-01-01" tpt_body)
       else if String.eqb path "st2/S2.TZT" then Some tzt_export
       else if String.eqb path "st2/S2.TXT" then Some txt_export
       else None;
     Runner.xls_save := fun _ => None |}.

Definition two_station_files : list (string * gmap string string) :=
  station_files ++
  [ ("st2", <["TPT" := "st2/S2.TPT"]> (<["TZT" := "st2/S2.TZT"]>
              (<["TXT" := "st2/S2.TXT"]> ∅))) ].

(** The state at the join when the worker of [st2] ran before the worker
    of [st1]. *)
Definition second_worker_first : Runner.state :=
  {| Runner.semaphore := 16; Runner.pending := [];
     Runner.threads :=
       [ ("st1/S1.TPT", "st1/S1.TZT", "st1/S1.TXT", Runner.Finished);
         ("st2/S2.TPT", "st2/S2.TZT", "st2/S2.TXT", Runner.Finished) ];
     Runner.data := [s1_batch "2024-01-01"; s1_batch "2024-01-02"];
     Runner.processed_files := 2; Runner.lg := empty_log |}.

(** Three batches of which the first and the last share a timestamp. *)
Definition tied_batches : list (list (list pyval)) :=
  [ station_batch "A" "2024-01-02" "10:00:00";
    station_batch "B" "2024-01-01" "09:00:00";
    station_batch "C" "2024-01-02" "10:00:00" ].

(** ** Initialization *)

Module Init.

(** What the host answers to [__init__]: whether the path is a directory,
    whether [makedirs] raises [OSError] for a path, and whether opening the
    log file raises it when the handler is made. *)
Record host : Type := {
  isdir : string -> bool;
  makedirs_fails : string -> bool;
  open_log_fails : string -> bool
}.

(** The logger of the module, with the messages it has recorded. *)
Record logger : Type := {
  handlers : bool;
  messages : list string
}.

(** The attributes of the object; an attribute not yet assigned is absent,
    and reading it raises [AttributeError]. *)
Record self : Type := {
  paths : option string;
  output_path : option string;
  logger_attribute : option logger
}.

Inductive raised : Type :=
  | AttributeError
  | Raised (e : exn).

Definition results_folder : string := "原始数据提取成果".

(** [self.log(message)]: it reads [self.logger]. *)
Definition log (message : string) (s : self) : option raised * self :=
  match logger_attribute s with
  | None => (Some AttributeError, s)
  | Some lg =>
      (None,
       {| paths := paths s; output_path := output_path s;
          logger_attribute :=
            Some (if handlers lg
                  then {| handlers := true; messages := messages lg ++ [message] |}
                  else lg) |})
  end.

(** [self.logger.handlers.clear()]. *)
Definition clear_handlers (s : self) : option raised * self :=
  match logger_attribute s with
  | None => (Some AttributeError, s)
  | Some lg =>
      (None,
       {| paths := paths s; output_path := output_path s;
          logger_attribute := Some {| handlers := false; messages := messages lg |} |})
  end.

(** The three statements of each [else] branch: log, clear the handlers,
    [exit()]. *)
Definition log_then_exit (message : string) (s : self) : raised * self :=
  match log message s with
  | (Some e, s') => (e, s')
  | (None, s') =>
      match clear_handlers s' with
      | (Some e, s'') => (e, s'')
      | (None, s'') => (Raised SystemExit, s'')
      end
  end.

(** [check_paths]. *)
Definition check_paths (h : host) (input_path : string) (s : self)
    : (raised + string) * self :=
  if isdir h input_path then (inr input_path, s)
  else let '(e, s') := log_then_exit "源文件路径不存在！无法读取数据！" s in (inl e, s').

(** [set_output_path]; [if self.paths] tests that the string is not empty. *)
Definition set_output_path `{Files.OsPath} (input_path : string) (s : self)
    : (raised + string) * self :=
  match paths s with
  | None => (inl AttributeError, s)
  | Some p =>
      if negb (String.eqb p "")
      then (inr (Files.join input_path results_folder), s)
      else let '(e, s') := log_then_exit "源文件路径不存在！无法设置输出路径！" s in
           (inl e, s')
  end.

(** [Initialization.__init__], lines 21-34; [lg0] is the logger that
    [getLogger(__name__)] returns. The result is the exception raised, if
    any, and the attributes assigned so far. *)
Definition __init__ `{Files.OsPath} (h : host) (lg0 : logger) (input_path : string)
    : option raised * self :=
  let s := {| paths := None; output_path := None; logger_attribute := None |} in
  match check_paths h input_path s with
  | (inl e, s) => (Some e, s)
  | (inr p, s) =>
      let s := {| paths := Some p; output_path := output_path s;
                  logger_attribute := logger_attribute s |} in
      match set_output_path input_path s with
      | (inl e, s) => (Some e, s)
      | (inr out, s) =>
          let s := {| paths := paths s; output_path := Some out;
                      logger_attribute := logger_attribute s |} in
          if makedirs_fails h out then (Some (Raised OSError), s)
          else
            let s := {| paths := paths s; output_path := output_path s;
                        logger_attribute := Some lg0 |} in
            if open_log_fails h (Files.join out "error.log")
            then (Some (Raised OSError), s)
            else (None,
                  {| paths := paths s; output_path := output_path s;
                     logger_attribute :=
                       Some {| handlers := true; messages := messages lg0 |} |})
      end
  end.

End Init.

(** ** Vocabulary of the statements about the fields of merged records *)

(** From field 10 on, the record holds strings. *)
Definition closes_with_strings (r : list pyval) : Prop :=
  forall (j : nat) v, (10 <= j)%nat -> r !! j = Some v -> exists s, v = PyStr s.

(** ** Vocabulary of the statements about the length of a run *)

(** The steps a started worker has still to take: pass [acquire], leave
    [try], release. *)
Definition steps_left (w : string * string * string * Runner.phase) : nat :=
  match snd w with
  | Runner.Waiting => 3
  | Runner.Holding => 2
  | Runner.Releasing => 1
  | Runner.Finished => 0
  end.

(** The steps the run has still to take before every thread is joined:
    four for each thread to start, and those left to the started ones. *)
Definition remaining_steps (st : Runner.state) : nat :=
  4 * length (Runner.pending st) + sum_list_with steps_left (Runner.threads st).

(** ** Fixtures for the statements about admission: one slot, two stations *)

(** With a single slot: the worker of [st1] has run and released, and the
    worker of [st2] has passed [acquire] and holds the slot. *)
Definition second_worker_admitted : Runner.state :=
  {| Runner.semaphore := 0; Runner.pending := [];
     Runner.threads :=
       [ ("st1/S1.TPT", "st1/S1.TZT", "st1/S1.TXT", Runner.Finished);
         ("st2/S2.TPT", "st2/S2.TZT", "st2/S2.TXT", Runner.Holding) ];
     Runner.data := [s1_batch "2024-01-02"];
     Runner.processed_files := 1; Runner.lg := empty_log |}.

(** The next state: the worker of [st2] has appended its batch and is about
    to release. *)
Definition second_worker_appended : Runner.state :=
  {| Runner.semaphore := 0; Runner.pending := [];
     Runner.threads :=
       [ ("st1/S1.TPT", "st1/S1.TZT", "st1/S1.TXT", Runner.Finished);
         ("st2/S2.TPT", "st2/S2.TZT", "st2/S2.TXT", Runner.Releasing) ];
     Runner.data := [s1_batch "2024-01-02"; s1_batch "2024-01-01"];
     Runner.processed_files := 2; Runner.lg := empty_log |}.

(** ** process_files, statement by statement *)

(** The handler of lines 197-200 runs outside any lock: between
    [self.log(err)] and [self.logger.handlers.clear()] of one worker,
    another worker can log. Here each of the two statements is a step of
    its own on the shared logger. *)
Module Fine.

Import Ordering.

(** Where a worker is in [process_files]. *)
Inductive phase : Type :=
  | Waiting      (* started, before [semaphore.acquire()] returns *)
  | Holding      (* inside [try], before the files are opened *)
  | Caught       (* in [except OSError], before [self.log(err)] *)
  | Logged       (* after [self.log(err)], before [handlers.clear()] *)
  | Releasing    (* in [finally], before [semaphore.release()] *)
  | Finished.

Global Instance phase_eq_dec : EqDecision phase.
Proof. solve_decision. Defined.

Record state : Type := {
  semaphore : Z;
  pending : list (string * string * string);
  threads : list (string * string * string * phase);
  data : list batch;
  processed_files : nat;
  lg : Runner.logger
}.

Definition initial (max_threads : Z) (files : list (string * gmap string string))
    (lg0 : Runner.logger) : state :=
  {| semaphore := max_threads; pending := Runner.spawned files; threads := [];
     data := []; processed_files := 0; lg := lg0 |}.

(** The three [open] calls of line 190. *)
Definition open_all (env : Runner.environment) (tpt_file tzt_file txt_file : string)
    : option (list (list string) * list (list string) * list (list string)) :=
  match Runner.fs env tpt_file, Runner.fs env tzt_file, Runner.fs env txt_file with
  | Some tpt_f, Some tzt_f, Some txt_f => Some (tpt_f, tzt_f, txt_f)
  | _, _, _ => None
  end.

(** Lines 192-195, on the rows of the three files. *)
Definition parse_and_merge `{PyRuntime} (tpt_f tzt_f txt_f : list (list string))
    : result batch :=
  tpt_data ← processing_angle tpt_f;
  tzt_data ← processing_angle tzt_f;
  txt_data ← processing_distance txt_f;
  Merge.merge_data (Runner.to_py tpt_data) (Runner.to_py tzt_data)
    (Runner.to_py txt_data).

(** One step of the interleaved execution. *)
Inductive step `{PyRuntime} (env : Runner.environment) : state -> state -> Prop :=
  | step_start st t rest :
      pending st = t :: rest ->
      step env st
        {| semaphore := semaphore st; pending := rest;
           threads := threads st ++ [(t, Waiting)];
           data := data st; processed_files := processed_files st; lg := lg st |}
  | step_acquire st k t :
      threads st !! k = Some (t, Waiting) ->
      0 < semaphore st ->
      step env st
        {| semaphore := semaphore st - 1; pending := pending st;
           threads := <[k := (t, Holding)]> (threads st);
           data := data st; processed_files := processed_files st; lg := lg st |}
  | step_append st k tpt tzt txt tpt_f tzt_f txt_f temp :
      threads st !! k = Some (tpt, tzt, txt, Holding) ->
      open_all env tpt tzt txt = Some (tpt_f, tzt_f, txt_f) ->
      parse_and_merge tpt_f tzt_f txt_f = Ok temp ->
      step env st
        {| semaphore := semaphore st; pending := pending st;
           threads := <[k := (tpt, tzt, txt, Releasing)]> (threads st);
           data := data st ++ [temp];
           processed_files := S (processed_files st); lg := lg st |}
  | step_raise st k tpt tzt txt tpt_f tzt_f txt_f e :
      threads st !! k = Some (tpt, tzt, txt, Holding) ->
      open_all env tpt tzt txt = Some (tpt_f, tzt_f, txt_f) ->
      parse_and_merge tpt_f tzt_f txt_f = Raise e ->
      step env st
        {| semaphore := semaphore st; pending := pending st;
           threads := <[k := (tpt, tzt, txt, Releasing)]> (threads st);
           data := data st; processed_files := processed_files st; lg := lg st |}
  | step_catch st k tpt tzt txt :
      threads st !! k = Some (tpt, tzt, txt, Holding) ->
      open_all env tpt tzt txt = None ->
      step env st
        {| semaphore := semaphore st; pending := pending st;
           threads := <[k := (tpt, tzt, txt, Caught)]> (threads st);
           data := data st; processed_files := processed_files st; lg := lg st |}
  | step_log st k t :
      threads st !! k = Some (t, Caught) ->
      step env st
        {| semaphore := semaphore st; pending := pending st;
           threads := <[k := (t, Logged)]> (threads st);
           data := data st; processed_files := processed_files st;
           lg := Runner.log OSError (lg st) |}
  | step_clear_exit st k t :
      threads st !! k = Some (t, Logged) ->
      step env st
        {| semaphore := semaphore st; pending := pending st;
           threads := <[k := (t, Releasing)]> (threads st);
           data := data st; processed_files := processed_files st;
           lg := Runner.clear_handlers (lg st) |}
  | step_release st k t :
      threads st !! k = Some (t, Releasing) ->
      step env st
        {| semaphore := semaphore st + 1; pending := pending st;
           threads := <[k := (t, Finished)]> (threads st);
           data := data st; processed_files := processed_files st; lg := lg st |}.

Definition reachable `{PyRuntime} (env : Runner.environment) (max_threads : Z)
    (files : list (string * gmap string string)) (lg0 : Runner.logger)
    (st : state) : Prop :=
  rtc (step env) (initial max_threads files lg0) st.

(** Every thread was started and joined. *)
Definition joined (st : state) : Prop :=
  pending st = [] /\ Forall (fun w => snd w = Finished) (threads st).

(** A state of the run in which [process_data] is one step, seen here. *)
Definition of_phase (ph : Runner.phase) : phase :=
  match ph with
  | Runner.Waiting => Waiting
  | Runner.Holding => Holding
  | Runner.Releasing => Releasing
  | Runner.Finished => Finished
  end.

Definition of_state (st : Runner.state) : state :=
  {| semaphore := Runner.semaphore st; pending := Runner.pending st;
     threads := (fun w => (fst w, of_phase (snd w))) <$> Runner.threads st;
     data := Runner.data st; processed_files := Runner.processed_files st;
     lg := Runner.lg st |}.

End Fine.

(** ** Vocabulary of the statements about the log of the workers *)

(** The number of elements of [l] for which [f] holds. *)
Definition count {A} (f : A -> bool) (l : list A) : nat :=
  sum_list_with (fun x => if f x then 1%nat else 0%nat) l.

(** The worker could not open its files and has passed [self.log(err)]. *)
Definition has_logged (env : Runner.environment)
    (w : string * string * string * Fine.phase) : bool :=
  negb (readable env (fst w)) &&
  match snd w with
  | Fine.Logged | Fine.Releasing | Fine.Finished => true
  | Fine.Waiting | Fine.Holding | Fine.Caught => false
  end.

(** The worker could not open its files and has cleared the handlers. *)
Definition has_cleared (env : Runner.environment)
    (w : string * string * string * Fine.phase) : bool :=
  negb (readable env (fst w)) &&
  match snd w with
  | Fine.Releasing | Fine.Finished => true
  | Fine.Waiting | Fine.Holding | Fine.Caught | Fine.Logged => false
  end.


(** The workers in [except] are those that could not open their files. *)
Definition handler_entered (env : Runner.environment)
    (w : string * string * string * Fine.phase) : Prop :=
  snd w = Fine.Caught \/ snd w = Fine.Logged -> readable env (fst w) = false.

(** What every interleaving keeps of the log, [n] being the number of
    entries the workers have added: no more than the workers that have
    logged; none if the logger had no handler at the start, and at least
    one if it had one and some worker has logged; and the handlers are
    attached as long as they were at the start and no worker has cleared
    them. *)
Definition log_invariant (env : Runner.environment) (lg0 : Runner.logger)
    (st : Fine.state) (n : nat) : Prop :=
  Forall (handler_entered env) (Fine.threads st) /\
  Runner.entries (Fine.lg st) = Runner.entries lg0 ++ replicate n OSError /\
  (n <= count (has_logged env) (Fine.threads st))%nat /\
  (Runner.handlers lg0 = false -> n = 0%nat) /\
  (Runner.handlers lg0 = true ->
   (0 < count (has_logged env) (Fine.threads st))%nat -> (1 <= n)%nat) /\
  Runner.handlers (Fine.lg st)
  = Runner.handlers lg0 && Nat.eqb (count (has_cleared env) (Fine.threads st)) 0.




(** ** process_data, with what reading a file can raise *)

Module Reading.

(** What leaves the method: one of the exceptions of [exn], or
    [csv.Error], which is neither an [OSError] nor a [ValueError] nor an
    [IndexError]. *)
Inductive raised : Type :=
  | CsvError
  | Builtin (e : exn).

Inductive outcome (A : Type) : Type :=
  | Returns (a : A)
  | Raises (e : raised).
Arguments Returns {A} a.
Arguments Raises {A} e.

(** What iterating [csv.reader] over an opened file does, at lines 103 and
    139: it yields the rows; or the read raises [OSError]; or the decoder
    raises [UnicodeDecodeError], which is a [ValueError]; or the reader
    raises [csv.Error]. *)
Inductive content : Type :=
  | Rows (data : list (list string))
  | ReadOSError
  | DecodeError
  | ReaderError.

(** For a path: the content of the opened file, or [None] when [open]
    raises [OSError]. *)
Record environment : Type := {
  open_file : string -> option content
}.

Definition of_result {A} (r : result A) : outcome A :=
  match r with
  | Ok a => Returns a
  | Raise e => Raises (Builtin e)
  end.

(** A parser with its read and its [try]: [parser] is what follows the
    read. Only an [OSError] is caught, and it ends in [exit()]. *)
Definition read_and_parse
    (parser : list (list string) -> result (list (list string)))
    (file : content) (lg : Runner.logger)
    : outcome (list (list string)) * Runner.logger :=
  match file with
  | Rows data => (of_result (parser data), lg)
  | ReadOSError =>
      (Raises (Builtin SystemExit), Runner.clear_handlers (Runner.log OSError lg))
  | DecodeError => (Raises (Builtin ValueError), lg)
  | ReaderError => (Raises CsvError, lg)
  end.

(** [process_data]: the three files are opened, then read and parsed one
    after the other, then merged. *)
Definition process_data `{PyRuntime} (env : environment)
    (tpt_file tzt_file txt_file : string) (lg : Runner.logger)
    : outcome (list (list pyval)) * Runner.logger :=
  match open_file env tpt_file, open_file env tzt_file, open_file env txt_file with
  | Some tpt_f, Some tzt_f, Some txt_f =>
      match read_and_parse processing_angle tpt_f lg with
      | (Raises e, lg) => (Raises e, lg)
      | (Returns tpt_data, lg) =>
          match read_and_parse processing_angle tzt_f lg with
          | (Raises e, lg) => (Raises e, lg)
          | (Returns tzt_data, lg) =>
              match read_and_parse processing_distance txt_f lg with
              | (Raises e, lg) => (Raises e, lg)
              | (Returns txt_data, lg) =>
                  (of_result
                     (Merge.merge_data (Runner.to_py tpt_data)
                        (Runner.to_py tzt_data) (Runner.to_py txt_data)), lg)
              end
          end
      end
  | _, _, _ =>
      (Raises (Builtin SystemExit), Runner.clear_handlers (Runner.log OSError lg))
  end.

(** The files of an environment in which every file that opens reads as
    rows. *)
Definition rows_of (env : Runner.environment) : environment :=
  {| open_file := fun path =>
       match Runner.fs env path with
       | Some data => Some (Rows data)
       | None => None
       end |}.

End Reading.


(** * Properties *)

(** ** Indexing and slicing *)

Section Builtins.
Context {A : Type}.
Implicit Types (l : list A) (i : Z).

Lemma getitem_nonneg l i :
  0 <= i ->
  getitem l i = match l !! Z.to_nat i with
                | Some x => Ok x
                | None => Raise IndexError
                end.
Proof.
  intros Hi. unfold getitem.
  destruct (Z.ltb_spec i 0) as [?|_]; [lia|].
  destruct (l !! Z.to_nat i) as [x|] eqn:Hl.
  - apply lookup_lt_Some in Hl.
    destruct (Z.leb_spec 0 i); [|lia].
    destruct (Z.ltb_spec i (Z.of_nat (length l))); [done|lia].
  - by destruct (_ && _).
Qed.

Lemma getitem_lookup l (n : nat) x :
  l !! n = Some x -> getitem l (Z.of_nat n) = Ok x.
Proof.
  intros Hl. rewrite getitem_nonneg by lia. by rewrite Nat2Z.id, Hl.
Qed.

Lemma getitem_Ok l i x :
  0 <= i -> getitem l i = Ok x -> l !! Z.to_nat i = Some x.
Proof.
  intros Hi. rewrite getitem_nonneg by done.
  destruct (l !! Z.to_nat i); congruence.
Qed.

Lemma getitem_short l i :
  Z.of_nat (length l) <= i -> getitem l i = Raise IndexError.
Proof.
  intros Hi. rewrite getitem_nonneg by lia.
  rewrite lookup_ge_None_2; [done|lia].
Qed.

Lemma getitem_last l x :
  last l = Some x -> getitem l (-1) = Ok x.
Proof.
  intros Hl. unfold getitem. rewrite last_lookup in Hl.
  pose proof (lookup_lt_Some _ _ _ Hl) as Hlt. simpl.
  destruct (Z.leb_spec 0 (-1 + Z.of_nat (length l))); [|lia].
  destruct (Z.ltb_spec (-1 + Z.of_nat (length l)) (Z.of_nat (length l))); [|lia].
  simpl. replace (Z.to_nat (-1 + Z.of_nat (length l))) with (pred (length l)) by lia.
  by rewrite Hl.
Qed.

Lemma setitem_lookup l (n : nat) x :
  (n < length l)%nat -> setitem l (Z.of_nat n) x = Ok (<[n := x]> l).
Proof.
  intros Hn. unfold setitem.
  destruct (Z.ltb_spec (Z.of_nat n) 0); [lia|].
  destruct (Z.leb_spec 0 (Z.of_nat n)); [|lia].
  destruct (Z.ltb_spec (Z.of_nat n) (Z.of_nat (length l))); [|lia].
  simpl. by rewrite Nat2Z.id.
Qed.

(** [l[:b]] *)
Lemma slice_prefix l (b : nat) :
  slice l None (Some (Z.of_nat b)) = take b l.
Proof.
  unfold slice, clamp.
  destruct (Z.ltb_spec (Z.of_nat b) 0); [lia|].
  rewrite Z.sub_0_r. simpl. rewrite drop_0.
  destruct (decide (b <= length l)%nat).
  - f_equal. lia.
  - rewrite !take_ge; [done|lia|lia].
Qed.

(** [l[a:]] *)
Lemma slice_suffix l (a : nat) :
  slice l (Some (Z.of_nat a)) None = drop a l.
Proof.
  unfold slice, clamp.
  destruct (Z.ltb_spec (Z.of_nat a) 0); [lia|].
  destruct (decide (a <= length l)%nat).
  - replace (Z.to_nat (Z.min (Z.of_nat a) (Z.of_nat (length l)))) with a by lia.
    apply take_ge. rewrite length_drop. lia.
  - replace (Z.to_nat (Z.min (Z.of_nat a) (Z.of_nat (length l)))) with (length l) by lia.
    rewrite !drop_ge by lia. by rewrite take_nil.
Qed.

(** [l[a:b]] for [0 <= a <= b] *)
Lemma slice_middle l (a b : nat) :
  (a <= b)%nat ->
  slice l (Some (Z.of_nat a)) (Some (Z.of_nat b)) = take (b - a) (drop a l).
Proof.
  intros Hab. unfold slice, clamp.
  destruct (Z.ltb_spec (Z.of_nat a) 0); [lia|].
  destruct (Z.ltb_spec (Z.of_nat b) 0); [lia|].
  destruct (decide (a <= length l)%nat).
  - replace (Z.to_nat (Z.min (Z.of_nat a) (Z.of_nat (length l)))) with a by lia.
    destruct (decide (b <= length l)%nat).
    + f_equal. lia.
    + rewrite !take_ge; [done|rewrite length_drop; lia..].
  - rewrite !(drop_ge l) by lia. by rewrite !take_nil.
Qed.

(** [l[2:-1]] *)
Lemma slice_body l :
  slice l (Some 2) (Some (-1)) = drop 2 (take (length l - 1) l).
Proof.
  unfold slice, clamp. simpl.
  destruct (decide (3 <= length l)%nat).
  - replace (Z.to_nat (Z.min 2 (Z.of_nat (length l)))) with 2%nat by lia.
    rewrite take_drop_commute. do 2 f_equal. lia.
  - rewrite (drop_ge (take _ _)) by (rewrite length_take; lia).
    apply nil_length_inv. rewrite length_take, length_drop. lia.
Qed.

End Builtins.

Lemma int_Some `{PyRuntime} (s : string) (n : Z) :
  py_int s = Some n -> int s = Ok n.
Proof. intros Hs. unfold int. by rewrite Hs. Qed.

(** Reads [l[n]] in the goal, given [Hl : l !! n = Some x]. *)
Ltac read_item Hl :=
  match type of Hl with
  | ?l !! ?n = Some ?x =>
      let z := eval vm_compute in (Z.of_nat n) in
      let E := fresh "E" in
      assert (E : getitem l z = Ok x) by exact (getitem_lookup l n x Hl);
      rewrite E; clear E; cbn [mbind result_bind]
  end.

(** ** processing_angle: which rows get a round number *)

Section AngleProperties.
Context `{PyRuntime}.
Implicit Types (data body : list (list string)) (row : list string).

Lemma filter_enumerate_snd {B} (P : B -> bool) (g : nat -> Z) (l : list B) :
  (fun p => snd p) <$>
    List.filter (fun p : Z * B => P (snd p)) (imap (fun i x => (g i, x)) l)
  = List.filter P l.
Proof.
  revert g. induction l as [|x l IH]; intros g; [done|].
  rewrite imap_cons. simpl. specialize (IH (g ∘ S)).
  destruct (P x); simpl; by rewrite <- IH.
Qed.

Lemma angle_body_data_rows data : angle_body data = data_rows data.
Proof.
  unfold angle_body, data_rows. rewrite slice_body.
  set (d := drop 2 (take (length data - 1) data)).
  rewrite <- (filter_enumerate_snd _ Z.of_nat d). f_equal.
  apply List.filter_ext_in. intros [i x] Hin. simpl. f_equal.
  apply list_elem_of_In, elem_of_lookup_imap in Hin.
  destruct Hin as (n & x' & [= -> ->] & Hn).
  destruct (Nat.eqb_spec (length x') 1) as [Hlen|Hlen].
  - apply bool_decide_eq_true. apply list_elem_of_fmap.
    exists (Z.of_nat n, x'). split; [done|].
    apply list_elem_of_In, List.filter_In. split.
    + apply list_elem_of_In, elem_of_lookup_imap. eauto.
    + simpl. by apply Nat.eqb_eq.
  - apply bool_decide_eq_false. intros Hin.
    apply list_elem_of_fmap in Hin. destruct Hin as ([i y] & Hi & Hin).
    simpl in Hi. subst i.
    apply list_elem_of_In, List.filter_In in Hin. destruct Hin as [Hin Hy].
    apply list_elem_of_In, elem_of_lookup_imap in Hin.
    destruct Hin as (m & y' & [= Hm ->] & Hlook).
    apply Nat2Z.inj in Hm. subst m. simpl in Hy.
    rewrite Hn in Hlook. injection Hlook as ->.
    apply Nat.eqb_eq in Hy. done.
Qed.

Lemma length_numbered si di rows c body :
  length (numbered si di rows c body) = length body.
Proof. apply length_imap. Qed.

Lemma numbered_0 si di rows body : numbered si di rows 0 body = body.
Proof.
  unfold numbered. apply list_eq. intros j. rewrite list_lookup_imap.
  destruct (body !! j); simpl; [|done].
  destruct (Z.ltb_spec (Z.of_nat j) 0); [lia|done].
Qed.

(** Past the end of the body the bound does not matter. *)
Lemma numbered_saturated si di rows c c' body :
  Z.of_nat (length body) <= c -> Z.of_nat (length body) <= c' ->
  numbered si di rows c body = numbered si di rows c' body.
Proof.
  intros Hc Hc'. unfold numbered. apply list_eq. intros j.
  rewrite !list_lookup_imap.
  destruct (body !! j) eqn:Hj; simpl; [|done].
  apply lookup_lt_Some in Hj.
  destruct (Z.ltb_spec (Z.of_nat j) c), (Z.ltb_spec (Z.of_nat j) c'); try lia; done.
Qed.

(** Numbering one more row is the assignment of line 117. *)
Lemma numbered_step si di rows (n : nat) body row :
  body !! n = Some row ->
  <[n := decorate si (Z.of_nat n / rows) row di]>
    (numbered si di rows (Z.of_nat n) body)
  = numbered si di rows (Z.of_nat n + 1) body.
Proof.
  intros Hn. apply list_eq. intros j.
  destruct (decide (n = j)) as [<-|Hne].
  - rewrite list_lookup_insert_eq
      by (rewrite length_numbered; by eapply lookup_lt_Some).
    unfold numbered. rewrite list_lookup_imap, Hn. simpl.
    destruct (Z.ltb_spec (Z.of_nat n) (Z.of_nat n + 1)); [done|lia].
  - rewrite list_lookup_insert_ne by done.
    unfold numbered. rewrite !list_lookup_imap.
    destruct (body !! j); simpl; [|done].
    destruct (Z.ltb_spec (Z.of_nat j) (Z.of_nat n)),
             (Z.ltb_spec (Z.of_nat j) (Z.of_nat n + 1)); try lia; done.
Qed.

(** One round: the inner loop numbers the rows of round [i] that exist. *)
Lemma inner_loop_numbered si di rows i body (n : nat) (t : Z) :
  0 < rows -> 0 <= i -> 0 <= t -> t + Z.of_nat n = rows ->
  inner_loop si di (Z.of_nat (length body)) i (seqZ (i * rows + t) (Z.of_nat n))
    (numbered si di rows (i * rows + t) body)
  = Ok (numbered si di rows ((i + 1) * rows) body).
Proof.
  intros Hrows Hi. revert t. induction n as [|n IH]; intros t Ht Hn.
  - simpl. do 2 f_equal. lia.
  - rewrite seqZ_cons by lia. simpl.
    destruct (Z.ltb_spec (i * rows + t) (Z.of_nat (length body))) as [Hlt|Hge].
    + assert (Hpos : 0 <= i * rows + t) by nia.
      destruct (Z_of_nat_complete _ Hpos) as [m Hm].
      rewrite Hm in *.
      destruct (lookup_lt_is_Some_2 body m) as [row Hrow]; [lia|].
      assert (Hraw : numbered si di rows (Z.of_nat m) body !! m = Some row).
      { unfold numbered. rewrite list_lookup_imap, Hrow. simpl.
        destruct (Z.ltb_spec (Z.of_nat m) (Z.of_nat m)); [lia|done]. }
      rewrite (getitem_lookup _ _ _ Hraw). simpl.
      rewrite setitem_lookup by (rewrite length_numbered; lia). simpl.
      assert (Hround : i = Z.of_nat m / rows).
      { apply Z.div_unique with (r := t); lia. }
      pose proof (numbered_step si di rows m body row Hrow) as Hstep.
      rewrite <- Hround in Hstep. rewrite Hstep.
      replace (Z.succ (Z.of_nat m)) with (i * rows + (t + 1)) by lia.
      replace (Z.pred (Z.of_nat (S n))) with (Z.of_nat n) by lia.
      replace (Z.of_nat m + 1) with (i * rows + (t + 1)) by lia.
      apply IH; lia.
    + f_equal. apply numbered_saturated; nia.
Qed.

(** All rounds, for a positive number of rows to the round. *)
Lemma outer_loop_numbered si di rows body (n : nat) (i : Z) :
  0 < rows -> 0 <= i ->
  outer_loop si di (Z.of_nat (length body)) rows (seqZ i (Z.of_nat n))
    (numbered si di rows (i * rows) body)
  = Ok (numbered si di rows ((i + Z.of_nat n) * rows) body).
Proof.
  intros Hrows. revert i. induction n as [|n IH]; intros i Hi.
  - simpl. do 2 f_equal. lia.
  - rewrite seqZ_cons by lia. simpl. unfold range.
    replace ((i + 1) * rows - i * rows) with (Z.of_nat (Z.to_nat rows)) by lia.
    pose proof (inner_loop_numbered si di rows i body (Z.to_nat rows) 0) as Hin.
    rewrite Z.add_0_r in Hin. rewrite Hin by lia. simpl.
    replace (Z.succ i) with (i + 1) by lia.
    replace (Z.pred (Z.of_nat (S n))) with (Z.of_nat n) by lia.
    rewrite IH by lia. do 2 f_equal. lia.
Qed.

(** With no rows to the round every inner range is empty. *)
Lemma outer_loop_empty_rounds si di limit rows rounds body :
  rows <= 0 -> outer_loop si di limit rows rounds body = Ok body.
Proof.
  intros Hrows. induction rounds as [|i rounds IH]; [done|].
  simpl. unfold range. rewrite seqZ_nil by lia. simpl. apply IH.
Qed.

Lemma outer_loop_capacity si di R rows body :
  outer_loop si di (Z.of_nat (length body)) rows (range 0 R) body
  = Ok (numbered si di rows (capacity R rows) body).
Proof.
  unfold capacity, range. rewrite Z.sub_0_r.
  destruct (Z.le_gt_cases rows 0) as [Hrows|Hrows].
  - rewrite outer_loop_empty_rounds by done.
    replace (Z.max 0 rows) with 0 by lia. rewrite Z.mul_0_r.
    by rewrite numbered_0.
  - destruct (Z.le_gt_cases R 0) as [HR|HR].
    + rewrite seqZ_nil by lia. simpl.
      replace (Z.max 0 R) with 0 by lia. by rewrite numbered_0.
    + pose proof (outer_loop_numbered si di rows body (Z.to_nat R) 0 Hrows) as Hout.
      rewrite Z.mul_0_l, numbered_0 in Hout.
      replace (Z.of_nat (Z.to_nat R)) with R in Hout by lia.
      rewrite Hout by lia. do 2 f_equal. lia.
Qed.

(** The parser as one equation, once the header is read. *)
Lemma processing_angle_numbered data station height R K date time :
  declares data station height R K date time ->
  processing_angle data
  = Ok (numbered [station; height] [date; time] (K + 1) (capacity R (K + 1))
          (data_rows data)).
Proof.
  intros (row0 & row1 & f1 & f2 & d1 & d2 & H0 & H1 & Hs & Hh & Hf1 & HR
          & Hf2 & HK & Hd1 & Hdate & Hd2 & Htime).
  unfold processing_angle.
  read_item H0. read_item Hs.
  rewrite (getitem_last row0 _ Hh). cbn [mbind result_bind].
  read_item Hf1. rewrite (int_Some _ _ HR). cbn [mbind result_bind].
  read_item Hf2. rewrite (int_Some _ _ HK). cbn [mbind result_bind].
  read_item H1. read_item Hd1. read_item Hdate.
  read_item Hd2. read_item Htime.
  rewrite angle_body_data_rows. apply outer_loop_capacity.
Qed.

End AngleProperties.

Section AngleClaims.
Context `{PyRuntime}.

(** C1, as the code has it: [processing_angle] returns every data row of
    the body, in order. With a header declaring [R] rounds and [K] in its
    third field, a round takes [K + 1] rows: the first
    [max 0 R * max 0 (K + 1)] rows carry
    [[station_id, instrument_height, round_number]] in front and
    [[date, time]] behind, where the round number of row [j] is
    [j / (K + 1) + 1], between 1 and [R]; the rows past that capacity are
    returned as they were read. *)
Theorem processing_angle_rounds data station height R K date time :
  declares data station height R K date time ->
  exists out,
    processing_angle data = Ok out /\
    length out = length (data_rows data) /\
    (forall (j : nat) row,
       data_rows data !! j = Some row ->
       out !! j =
         Some (if Z.of_nat j <? capacity R (K + 1)
               then [station; height; py_str (Z.of_nat j / (K + 1) + 1)]
                      ++ row ++ [date; time]
               else row)) /\
    (forall j : nat,
       Z.of_nat j < capacity R (K + 1) ->
       1 <= Z.of_nat j / (K + 1) + 1 <= R).
Proof.
  intros Hdecl. eexists. split; [by apply processing_angle_numbered|].
  split; [apply length_numbered|]. split.
  - intros j row Hj. unfold numbered. rewrite list_lookup_imap, Hj. simpl.
    by destruct (_ <? _).
  - intros j Hj. unfold capacity in Hj.
    assert (0 < R /\ 0 < K + 1) as [HR HK] by nia.
    rewrite !Z.max_r in Hj by lia.
    assert (0 <= Z.of_nat j / (K + 1)) by (apply Z.div_pos; lia).
    assert (Z.of_nat j / (K + 1) < R); [|lia].
    apply Z.div_lt_upper_bound; lia.
Qed.

End AngleClaims.

Lemma angle_export_declares :
  declares (H := AsciiRuntime.runtime) angle_export
    "S1" "1.5" 1 1 "2024-01-02" "10:00:00".
Proof. unfold declares. repeat eexists. Qed.

Lemma processing_angle_rounds_witness :
  exists out,
    processing_angle (H := AsciiRuntime.runtime) angle_export = Ok out /\
    length out = length (data_rows angle_export) /\
    (forall (j : nat) row,
       data_rows angle_export !! j = Some row ->
       out !! j =
         Some (if Z.of_nat j <? capacity 1 (1 + 1)
               then ["S1"; "1.5"; py_str (Z.of_nat j / (1 + 1) + 1)]
                      ++ row ++ ["2024-01-02"; "10:00:00"]
               else row)) /\
    (forall j : nat,
       Z.of_nat j < capacity 1 (1 + 1) -> 1 <= Z.of_nat j / (1 + 1) + 1 <= 1).
Proof.
  apply (processing_angle_rounds (H := AsciiRuntime.runtime) angle_export
           "S1" "1.5" 1 1 "2024-01-02" "10:00:00").
  unfold declares. repeat eexists.
Defined.

(** C1 as stated fails: the header declares one round and one target, the
    body has three data rows, and the parser returns three rows, not
    [min (1 * 1) 3]; the third row is in the output as it was read. *)
Lemma processing_angle_returns_rows_past_capacity :
  exists out,
    declares (H := AsciiRuntime.runtime) angle_export
      "S1" "1.5" 1 1 "2024-01-02" "10:00:00" /\
    length (data_rows angle_export) = 3%nat /\
    processing_angle (H := AsciiRuntime.runtime) angle_export = Ok out /\
    Z.of_nat (length out) <> Z.min (1 * 1) 3 /\
    out !! 2%nat = Some ["T3"; "0"; "a"; "b"].
Proof.
  eexists. split; [exact angle_export_declares|].
  split; [reflexivity|]. split; [vm_compute; reflexivity|].
  split; [vm_compute; discriminate|reflexivity].
Qed.

(** ** merge_data: one record for each angle row *)

Section MergeProperties.
Import Merge.
Implicit Types (tpt_data tzt_data txt_data out : list (list pyval)).
Implicit Types (t z x r key : list pyval).

Lemma slice_key r : slice r None (Some 4) = take 4 r.
Proof. exact (slice_prefix r 4). Qed.

Lemma slice_4_6 r : slice r (Some 4) (Some 6) = take 2 (drop 4 r).
Proof. exact (slice_middle r 4 6 ltac:(lia)). Qed.

Lemma slice_6 r : slice r (Some 6) None = drop 6 r.
Proof. exact (slice_suffix r 6). Qed.

Lemma merge_loop_Ok tzt_data txt_data tpt_data acc out :
  merge_loop tzt_data txt_data tpt_data acc = Ok out <->
  exists rs, out = acc ++ rs /\
    Forall2 (fun t r => merge_row tzt_data txt_data t = Ok r) tpt_data rs.
Proof.
  revert acc. induction tpt_data as [|t tpt_data IH]; intros acc; simpl.
  - split.
    + intros [= <-]. exists []. by rewrite app_nil_r.
    + intros (rs & -> & Hrs). apply Forall2_nil_inv_l in Hrs as ->.
      by rewrite app_nil_r.
  - destruct (merge_row tzt_data txt_data t) as [merged|e] eqn:Hrow; simpl.
    + rewrite IH. split.
      * intros (rs & -> & Hrs). exists (merged :: rs).
        split; [by rewrite <- app_assoc|]. by constructor.
      * intros (rs & -> & Hrs).
        apply Forall2_cons_inv_l in Hrs as (r & rs' & Hr & Hrs' & ->).
        exists rs'. split; [|done]. rewrite <- app_assoc. simpl. congruence.
    + split; [done|]. intros (rs & _ & Hrs).
      apply Forall2_cons_inv_l in Hrs as (r & rs' & Hr & _). congruence.
Qed.

Lemma merge_data_Ok tpt_data tzt_data txt_data out :
  merge_data tpt_data tzt_data txt_data = Ok out <->
  Forall2 (fun t r => merge_row tzt_data txt_data t = Ok r) tpt_data out.
Proof.
  unfold merge_data. rewrite merge_loop_Ok. simpl. split.
  - by intros (rs & -> & Hrs).
  - intros Hrs. by exists out.
Qed.

Lemma first_match_found key rows k r default :
  first_with_key key rows k r -> first_match key rows default = r.
Proof.
  unfold first_match. intros (Hk & Hkey & Hfirst).
  revert k Hk Hfirst. induction rows as [|r0 rows IH]; intros k Hk Hfirst.
  - done.
  - simpl. rewrite slice_key. destruct k as [|k].
    + simpl in Hk. injection Hk as ->.
      by rewrite bool_decide_eq_true_2.
    + rewrite bool_decide_eq_false_2 by (apply (Hfirst 0%nat); [lia|done]).
      apply (IH k); [done|]. intros k' r' Hlt. apply (Hfirst (S k')). lia.
Qed.

Lemma first_match_default key rows default :
  no_row_with_key key rows -> first_match key rows default = default.
Proof.
  unfold first_match. intros Hno. induction rows as [|r0 rows IH]; [done|].
  simpl. rewrite slice_key.
  rewrite bool_decide_eq_false_2 by (apply Hno; left).
  apply IH. intros r Hr. apply Hno. by right.
Qed.

Lemma placeholder_Ok rows default :
  placeholder rows = Ok default ->
  exists first,
    rows !! 0%nat = Some first /\ default = replicate (length first) PyNone.
Proof.
  unfold placeholder. destruct (getitem rows 0) as [first|] eqn:Hfirst; [|done].
  simpl. intros [= <-]. apply getitem_Ok in Hfirst; [|lia]. eauto.
Qed.

(** The merged record starts with the key of the angle row. *)
Lemma merge_row_key tzt_data txt_data t r :
  merge_row tzt_data txt_data t = Ok r -> exists rest, r = take 4 t ++ rest.
Proof.
  unfold merge_row. rewrite slice_key.
  destruct (placeholder tzt_data); simpl; [|done].
  destruct (placeholder txt_data); simpl; [|done].
  destruct (getitem _ 6); simpl; [|done].
  destruct (getitem _ 4); simpl; [|done].
  intros [= <-]. eauto.
Qed.

(** C3: whenever [merge_data] returns, it returns as many records as there
    are angle rows, and the record at each position starts with the key of
    the angle row at that position; zenith and distance rows add no record
    of their own. *)
Theorem merge_data_one_record_per_angle_row tpt_data tzt_data txt_data out :
  merge_data tpt_data tzt_data txt_data = Ok out ->
  length out = length tpt_data /\
  forall (i : nat) r,
    out !! i = Some r ->
    exists t rest, tpt_data !! i = Some t /\ r = take 4 t ++ rest.
Proof.
  rewrite merge_data_Ok. intros Hrows. split.
  - symmetry. by eapply Forall2_length.
  - intros i r Hr.
    destruct (Forall2_lookup_r _ _ _ _ _ Hrows Hr) as (t & Ht & Hrow).
    destruct (merge_row_key _ _ _ _ Hrow) as [rest ->]. eauto.
Qed.

(** C4: the record of an angle row takes its zenith fields from the first
    zenith row with the same four leading fields and its distance from the
    first such distance row, laid out as: the key, zenith field 6, angle
    fields 4-5, zenith fields 4-5, distance field 4, angle fields from 6. *)
Theorem merge_data_first_match_layout tpt_data tzt_data txt_data out
    (i kz kx : nat) t z x :
  merge_data tpt_data tzt_data txt_data = Ok out ->
  tpt_data !! i = Some t ->
  first_with_key (take 4 t) tzt_data kz z ->
  first_with_key (take 4 t) txt_data kx x ->
  exists z6 x4 : pyval,
    z !! 6%nat = Some z6 /\ x !! 4%nat = Some x4 /\
    out !! i = Some (take 4 t ++ [z6] ++ take 2 (drop 4 t)
                       ++ take 2 (drop 4 z) ++ [x4] ++ drop 6 t).
Proof.
  rewrite merge_data_Ok. intros Hrows Ht Hz Hx.
  destruct (Forall2_lookup_l _ _ _ _ _ Hrows Ht) as (r & Hr & Hrow).
  unfold merge_row in Hrow. rewrite !slice_key, !slice_4_6, slice_6 in Hrow.
  destruct (placeholder tzt_data) as [dz|]; simpl in Hrow; [|done].
  destruct (placeholder txt_data) as [dx|]; simpl in Hrow; [|done].
  rewrite (first_match_found _ _ _ _ dz Hz) in Hrow.
  rewrite (first_match_found _ _ _ _ dx Hx) in Hrow.
  destruct (getitem z 6) as [z6|] eqn:Hz6; simpl in Hrow; [|done].
  destruct (getitem x 4) as [x4|] eqn:Hx4; simpl in Hrow; [|done].
  injection Hrow as <-.
  apply getitem_Ok in Hz6; [|lia]. apply getitem_Ok in Hx4; [|lia].
  change (Z.to_nat 6) with 6%nat in Hz6. change (Z.to_nat 4) with 4%nat in Hx4.
  rewrite slice_4_6 in Hr. exists z6, x4. done.
Qed.

(** A gap: an angle row without a zenith row of its key gets [None] in the
    three zenith places, provided the record can be built at all. *)
Lemma merge_data_gap_zenith tpt_data tzt_data txt_data out (i : nat) t r :
  merge_data tpt_data tzt_data txt_data = Ok out ->
  tpt_data !! i = Some t ->
  no_row_with_key (take 4 t) tzt_data ->
  out !! i = Some r ->
  exists x4 : pyval,
    r = take 4 t ++ [PyNone] ++ take 2 (drop 4 t)
          ++ [PyNone; PyNone] ++ [x4] ++ drop 6 t.
Proof.
  rewrite merge_data_Ok. intros Hrows Ht Hno Hr.
  destruct (Forall2_lookup_l _ _ _ _ _ Hrows Ht) as (r' & Hr' & Hrow).
  rewrite Hr in Hr'. injection Hr' as <-.
  unfold merge_row in Hrow. rewrite !slice_key, !slice_4_6, slice_6 in Hrow.
  destruct (placeholder tzt_data) as [dz|] eqn:Hdz; simpl in Hrow; [|done].
  apply placeholder_Ok in Hdz as (z0 & _ & ->).
  destruct (placeholder txt_data) as [dx|]; simpl in Hrow; [|done].
  rewrite (first_match_default _ _ _ Hno) in Hrow.
  destruct (getitem (replicate (length z0) PyNone) 6) as [z6|] eqn:Hz6;
    simpl in Hrow; [|done].
  destruct (getitem _ 4) as [x4|]; simpl in Hrow; [|done].
  rewrite slice_4_6 in Hrow. injection Hrow as <-. exists x4.
  apply getitem_Ok in Hz6; [|lia]. change (Z.to_nat 6) with 6%nat in Hz6.
  pose proof (lookup_lt_Some _ _ _ Hz6) as Hlen. rewrite length_replicate in Hlen.
  apply lookup_replicate in Hz6 as [-> _].
  do 3 f_equal.
  replace (length z0) with (4 + (2 + (length z0 - 6)))%nat by (simpl in Hlen; lia).
  rewrite !replicate_add. by rewrite drop_app_length', take_app_length'.
Qed.

(** C2 fails on the code: the placeholder is built from the first zenith
    row before the scan, so an empty zenith list raises [IndexError] as soon
    as there is an angle row. *)
Theorem merge_data_empty_zenith_raises t tpt_data txt_data :
  merge_data (t :: tpt_data) [] txt_data = Raise IndexError.
Proof. done. Qed.

(** The same for an empty distance list. *)
Lemma merge_data_empty_distance_raises t tpt_data z tzt_data :
  merge_data (t :: tpt_data) (z :: tzt_data) [] = Raise IndexError.
Proof. done. Qed.

End MergeProperties.

Lemma merge_fixture :
  Merge.merge_data angle_rows zenith_rows distance_rows
  = Ok [ PyStr <$> ["S1"; "1.5"; "1"; "T1"; "1.3"; "10.0000"; "190.0000";
                    "90.0000"; "270.0000"; "123.456"; "2024-01-02"; "10:00:00"] ].
Proof. vm_compute. reflexivity. Qed.

Lemma merge_data_one_record_per_angle_row_witness :
  let out := [ PyStr <$> ["S1"; "1.5"; "1"; "T1"; "1.3"; "10.0000"; "190.0000";
                          "90.0000"; "270.0000"; "123.456"; "2024-01-02"; "10:00:00"] ] in
  length out = length angle_rows /\
  forall (i : nat) r,
    out !! i = Some r ->
    exists t rest, angle_rows !! i = Some t /\ r = take 4 t ++ rest.
Proof.
  apply (merge_data_one_record_per_angle_row angle_rows zenith_rows distance_rows).
  vm_compute. reflexivity.
Defined.

Lemma merge_data_first_match_layout_witness :
  exists z6 x4 : pyval,
    (PyStr <$> ["S1"; "1.5"; "1"; "T1"; "90.0000"; "270.0000"; "1.3"; "10:00:00"])
      !! 6%nat = Some z6 /\
    (PyStr <$> ["S1"; "1.5"; "1"; "T1"; "123.456"; "2024-01-02"; "10:00:00"])
      !! 4%nat = Some x4 /\
    [ PyStr <$> ["S1"; "1.5"; "1"; "T1"; "1.3"; "10.0000"; "190.0000";
                 "90.0000"; "270.0000"; "123.456"; "2024-01-02"; "10:00:00"] ]
      !! 0%nat
    = Some (take 4 (PyStr <$> ["S1"; "1.5"; "1"; "T1"; "10.0000"; "190.0000";
                               "2024-01-02"; "10:00:00"])
            ++ [z6]
            ++ take 2 (drop 4 (PyStr <$> ["S1"; "1.5"; "1"; "T1"; "10.0000";
                                          "190.0000"; "2024-01-02"; "10:00:00"]))
            ++ take 2 (drop 4 (PyStr <$> ["S1"; "1.5"; "1"; "T1"; "90.0000";
                                          "270.0000"; "1.3"; "10:00:00"]))
            ++ [x4]
            ++ drop 6 (PyStr <$> ["S1"; "1.5"; "1"; "T1"; "10.0000"; "190.0000";
                                  "2024-01-02"; "10:00:00"])).
Proof.
  apply (merge_data_first_match_layout angle_rows zenith_rows distance_rows _
           0 1 0).
  - vm_compute. reflexivity.
  - reflexivity.
  - split; [reflexivity|]. split; [reflexivity|].
    intros [|[|k']] r' Hlt Hr'; [|lia..].
    injection Hr' as <-. vm_compute. discriminate.
  - split; [reflexivity|]. split; [reflexivity|]. intros k' r' Hlt. lia.
Defined.

(** ** The order of datetimes *)

Section DatetimeOrder.
Import Ordering.

Lemma lex_ltb_irrefl a : lex_ltb a a = false.
Proof.
  induction a as [|x a IH]; [done|]. simpl.
  rewrite Z.ltb_irrefl, Z.eqb_refl. done.
Qed.

Lemma lex_ltb_trans a b c :
  lex_ltb a b = true -> lex_ltb b c = true -> lex_ltb a c = true.
Proof.
  revert b c. induction a as [|x a IH]; intros [|y b] [|z c]; simpl; try done.
  rewrite !orb_true_iff, !andb_true_iff, !Z.ltb_lt, !Z.eqb_eq.
  intros [Hxy|[-> Hab]] [Hyz|[-> Hbc]]; eauto with lia.
Qed.

Lemma lex_ltb_total a b :
  lex_ltb a b = false -> lex_ltb b a = false -> a = b.
Proof.
  revert b. induction a as [|x a IH]; intros [|y b]; simpl; try done.
  rewrite !orb_false_iff, !andb_false_iff, !Z.ltb_ge, !Z.eqb_neq.
  intros [Hxy Hab] [Hyx Hba].
  assert (x = y) as -> by lia.
  destruct Hab as [?|Hab]; [done|]. destruct Hba as [?|Hba]; [done|].
  f_equal. by apply IH.
Qed.

(** [<] decides the order: of two datetimes one is below the other. *)
Lemma lex_ltb_connex a b : lex_ltb a b = false -> lex_ltb b a = true \/ a = b.
Proof.
  intros Hab. destruct (lex_ltb b a) eqn:Hba; [by left|right].
  by apply lex_ltb_total.
Qed.

Lemma lex_le_trans a b c :
  lex_ltb b a = false -> lex_ltb c b = false -> lex_ltb c a = false.
Proof.
  intros Hab Hbc.
  destruct (lex_ltb_connex _ _ Hab) as [Hlt| ->]; [|done].
  destruct (lex_ltb_connex _ _ Hbc) as [Hlt'| <-]; [|done].
  destruct (lex_ltb c a) eqn:Hca; [|done].
  pose proof (lex_ltb_trans _ _ _ Hlt' Hca) as Hba. congruence.
Qed.

Lemma datetime_le_refl a : datetime_le a a.
Proof. apply lex_ltb_irrefl. Qed.

Lemma datetime_le_trans a b c :
  datetime_le a b -> datetime_le b c -> datetime_le a c.
Proof. unfold datetime_le, datetime_ltb. apply lex_le_trans. Qed.

Lemma datetime_le_total a b : datetime_le a b \/ datetime_le b a.
Proof.
  unfold datetime_le, datetime_ltb.
  destruct (lex_ltb (datetime_fields b) (datetime_fields a)) eqn:Hba; [|by left].
  right. destruct (lex_ltb (datetime_fields a) (datetime_fields b)) eqn:Hab; [|done].
  pose proof (lex_ltb_trans _ _ _ Hab Hba) as Haa.
  by rewrite lex_ltb_irrefl in Haa.
Qed.

Lemma datetime_fields_inj a b : datetime_fields a = datetime_fields b -> a = b.
Proof. destruct a, b. intros [= -> -> -> -> -> ->]. done. Qed.

Lemma datetime_le_antisym a b : datetime_le a b -> datetime_le b a -> a = b.
Proof.
  unfold datetime_le, datetime_ltb. intros Hab Hba.
  apply datetime_fields_inj. by apply lex_ltb_total.
Qed.

End DatetimeOrder.

(** ** The global ordering: sorted, and a permutation *)

Section OrderingProperties.
Context `{PyRuntime}.
Import Ordering.
Implicit Types (b : list (list pyval)) (data out : list (list (list pyval))).
Implicit Types (k : datetime).

(** The key function reads and parses the timestamp of the batch. *)
Lemma sort_key_timestamp b k : sort_key b = Ok k <-> timestamp b = Some k.
Proof.
  unfold sort_key, timestamp. destruct b as [|first b]; [done|].
  change (getitem (first :: b) 0) with (Ok (A := list pyval) first). simpl.
  rewrite !getitem_nonneg by lia.
  change (Z.to_nat 10) with 10%nat. change (Z.to_nat 11) with 11%nat.
  destruct (first !! 10%nat) as [[|date]|]; simpl; try done;
    try (by destruct (first !! 11%nat) as [[|?]|]).
  destruct (first !! 11%nat) as [[|time]|]; simpl; try done.
  destruct (strptime _); split; congruence.
Qed.

Lemma sort_key_empty : sort_key [] = Raise IndexError.
Proof. done. Qed.

Lemma sort_key_raises b :
  timestamp b = None -> exists e, sort_key b = Raise e.
Proof.
  intros Hb. destruct (sort_key b) as [k|e] eqn:Hk; [|eauto].
  apply sort_key_timestamp in Hk. congruence.
Qed.

Lemma insert_keyed_perm {A} k (x : A) l : insert_keyed k x l ≡ₚ (k, x) :: l.
Proof.
  induction l as [|[k' y] l IH]; simpl; [done|].
  destruct (datetime_ltb k' k); [|done].
  rewrite IH. apply perm_swap.
Qed.

Lemma stable_sort_perm {A} (l : list (datetime * A)) : stable_sort l ≡ₚ l.
Proof.
  induction l as [|[k x] l IH]; simpl; [done|].
  rewrite insert_keyed_perm. by constructor.
Qed.

Lemma insert_keyed_sorted {A} k (x : A) l :
  StronglySorted key_le l -> StronglySorted key_le (insert_keyed k x l).
Proof.
  induction l as [|[k' y] l IH]; simpl; intros Hl.
  - repeat constructor.
  - apply StronglySorted_inv in Hl as [Hl Hall].
    destruct (datetime_ltb k' k) eqn:Hlt.
    + constructor; [by apply IH|].
      rewrite insert_keyed_perm. constructor; [|done].
      unfold key_le. simpl.
      destruct (datetime_le_total k' k) as [Hle|Hle]; [done|].
      unfold datetime_le in Hle. congruence.
    + constructor; [by constructor|]. constructor; [done|].
      eapply Forall_impl; [exact Hall|]. intros [k'' z] Hz.
      unfold key_le in *. simpl in *. by eapply datetime_le_trans.
Qed.

Lemma stable_sort_sorted {A} (l : list (datetime * A)) :
  StronglySorted key_le (stable_sort l).
Proof.
  induction l as [|[k x] l IH]; simpl; [constructor|].
  by apply insert_keyed_sorted.
Qed.

(** The sort is stable: batches with one and the same key keep the order
    in which they were collected. *)
Lemma insert_keyed_stable {A} k (x : A) l k0 :
  filter (fun p => fst p = k0) (insert_keyed k x l)
  = filter (fun p => fst p = k0) ((k, x) :: l).
Proof.
  induction l as [|[k' y] l IH]; simpl; [done|].
  destruct (datetime_ltb k' k) eqn:Hlt; [|done].
  rewrite (filter_cons _ (k', y)), IH, !filter_cons. simpl.
  repeat case_decide; try done. subst k' k.
  unfold datetime_ltb in Hlt. by rewrite lex_ltb_irrefl in Hlt.
Qed.

Lemma stable_sort_stable {A} (l : list (datetime * A)) k0 :
  filter (fun p => fst p = k0) (stable_sort l) = filter (fun p => fst p = k0) l.
Proof.
  induction l as [|[k x] l IH]; simpl; [done|].
  rewrite insert_keyed_stable, !filter_cons, IH. done.
Qed.

Lemma StronglySorted_lookup {A} (R : relation A) (l : list A) (i j : nat) x y :
  StronglySorted R l -> (i < j)%nat -> l !! i = Some x -> l !! j = Some y -> R x y.
Proof.
  intros Hl. revert i j. induction Hl as [|a l Hl IH Hall]; intros i j Hij Hi Hj.
  - done.
  - destruct j as [|j]; [lia|]. simpl in Hj. destruct i as [|i].
    + simpl in Hi. injection Hi as <-.
      eapply Forall_forall; [exact Hall|]. by eapply list_elem_of_lookup_2.
    + simpl in Hi. apply (IH i j); [lia|done..].
Qed.

Lemma keyed_Ok data ks :
  keyed data = Ok ks <->
  Forall2 (fun b p => timestamp b = Some (fst p) /\ snd p = b) data ks.
Proof.
  revert ks. induction data as [|b data IH]; intros ks; simpl.
  - split; [intros [= <-]; constructor|]. intros ->%Forall2_nil_inv_l. done.
  - destruct (sort_key b) as [k|e] eqn:Hk; simpl.
    + apply sort_key_timestamp in Hk.
      destruct (keyed data) as [ks'|e] eqn:Hks; simpl.
      * split.
        -- intros [= <-]. constructor; [done|]. by apply IH.
        -- intros (p & ks'' & [Hp <-] & Hrest & ->)%Forall2_cons_inv_l.
           apply IH in Hrest. injection Hrest as <-.
           destruct p as [k' b']. simpl in *. congruence.
      * split; [done|].
        intros (p & ks'' & _ & Hrest & ->)%Forall2_cons_inv_l.
        apply IH in Hrest. done.
    + split; [done|].
      intros (p & ks'' & [Hp _] & _)%Forall2_cons_inv_l.
      apply sort_key_timestamp in Hp. congruence.
Qed.

Lemma keyed_total data :
  Forall (fun b => is_Some (timestamp b)) data -> exists ks, keyed data = Ok ks.
Proof.
  induction 1 as [|b data [k Hk] _ [ks Hks]]; simpl; [eauto|].
  apply sort_key_timestamp in Hk. rewrite Hk, Hks. simpl. eauto.
Qed.

Lemma keyed_snd data ks : keyed data = Ok ks -> (fun p => snd p) <$> ks = data.
Proof.
  rewrite keyed_Ok. induction 1 as [|b p data ks [_ Hp] _ IH]; [done|].
  rewrite fmap_cons. by f_equal.
Qed.

Lemma sort_batches_perm data out : sort_batches data = Ok out -> out ≡ₚ data.
Proof.
  unfold sort_batches. destruct (keyed data) as [ks|] eqn:Hks; [|done].
  simpl. intros [= <-]. rewrite stable_sort_perm. by rewrite (keyed_snd _ _ Hks).
Qed.

(** The sort returns only when every batch has a timestamp. *)
Lemma sort_batches_Ok data out :
  sort_batches data = Ok out -> Forall (fun b => is_Some (timestamp b)) data.
Proof.
  unfold sort_batches. destruct (keyed data) as [ks|] eqn:Hks; [|done].
  intros _. apply keyed_Ok in Hks.
  induction Hks as [|b p data ks [Hb _] _ IH]; constructor; eauto.
Qed.

(** An empty batch stops the computation of the keys with [IndexError],
    when the batches before it have a timestamp. *)
Lemma sort_batches_empty_batch pre post :
  Forall (fun b => is_Some (timestamp b)) pre ->
  sort_batches (pre ++ [] :: post) = Raise IndexError.
Proof.
  unfold sort_batches. induction 1 as [|b pre [k Hk] _ IH]; [done|].
  simpl. apply sort_key_timestamp in Hk. rewrite Hk. simpl.
  destruct (keyed (pre ++ [] :: post)); [done|]. simpl in *. congruence.
Qed.

(** A timestamp that does not parse stops it with [ValueError], when the
    batches before it have a timestamp. *)
Lemma sort_batches_unparsable pre b post first date time :
  Forall (fun b => is_Some (timestamp b)) pre ->
  head b = Some first ->
  first !! 10%nat = Some (PyStr date) -> first !! 11%nat = Some (PyStr time) ->
  strptime (String.append (String.append date " ") time) = None ->
  sort_batches (pre ++ b :: post) = Raise ValueError.
Proof.
  intros Hpre Hb Hdate Htime Hparse.
  assert (Hkey : sort_key b = Raise ValueError).
  { destruct b as [|first' b]; [done|]. injection Hb as ->.
    unfold sort_key.
    change (getitem (first :: b) 0) with (Ok (A := list pyval) first). simpl.
    rewrite !getitem_nonneg by lia.
    change (Z.to_nat 10) with 10%nat. change (Z.to_nat 11) with 11%nat.
    rewrite Hdate, Htime. simpl. by rewrite Hparse. }
  unfold sort_batches. induction Hpre as [|b' pre [k Hk] _ IH].
  - simpl. by rewrite Hkey.
  - simpl. apply sort_key_timestamp in Hk. rewrite Hk. simpl.
    destruct (keyed (pre ++ b :: post)); [done|]. simpl in *. congruence.
Qed.

(** C5: when every collected batch has a timestamp — the date (field 10)
    and the time (field 11) of its first record, joined by one space, parse
    with ['%Y-%m-%d %H:%M:%S'] — the sort returns the batches in ascending
    order of timestamp, and what it returns is a permutation of the
    collected batches. *)
Theorem sort_batches_ascending_permutation data :
  Forall (fun b => is_Some (timestamp b)) data ->
  exists out, sort_batches data = Ok out /\ out ≡ₚ data /\ ascending out.
Proof.
  intros Hdata. destruct (keyed_total data Hdata) as [ks Hks].
  unfold sort_batches. rewrite Hks. simpl. eexists. split; [done|]. split.
  - rewrite stable_sort_perm. by rewrite (keyed_snd _ _ Hks).
  - intros i j bi bj ki kj Hij Hi Hj Hki Hkj.
    apply list_lookup_fmap_Some in Hi as ([ki' bi'] & -> & Hi).
    apply list_lookup_fmap_Some in Hj as ([kj' bj'] & -> & Hj).
    simpl in *.
    assert (Hkeys : Forall (fun p => timestamp (snd p) = Some (fst p)) (stable_sort ks)).
    { rewrite stable_sort_perm. apply keyed_Ok in Hks.
      clear -Hks. induction Hks as [|b p data ks [Hb Hp] _ IH]; constructor; [|done].
      by rewrite Hp. }
    rewrite Forall_forall in Hkeys.
    pose proof (Hkeys _ (list_elem_of_lookup_2 _ _ _ Hi)) as Hi'.
    pose proof (Hkeys _ (list_elem_of_lookup_2 _ _ _ Hj)) as Hj'.
    simpl in *.
    assert (ki' = ki) as -> by congruence.
    assert (kj' = kj) as -> by congruence.
    exact (StronglySorted_lookup key_le _ i j _ _ (stable_sort_sorted ks) Hij Hi Hj).
Qed.

End OrderingProperties.

Lemma sort_batches_ascending_permutation_witness :
  exists out,
    Ordering.sort_batches (H := AsciiRuntime.runtime) three_batches = Ok out /\
    out ≡ₚ three_batches /\ ascending (H := AsciiRuntime.runtime) out.
Proof.
  apply (sort_batches_ascending_permutation (H := AsciiRuntime.runtime) three_batches).
  repeat constructor; by eexists.
Defined.

(** The three batches of the specification come out ordered by day. *)
Example sort_three_batches :
  Ordering.sort_batches (H := AsciiRuntime.runtime) three_batches
  = Ok [ station_batch "B" "2024-01-01" "09:00:00";
         station_batch "A" "2024-01-02" "10:00:00";
         station_batch "C" "2024-01-03" "08:00:00" ].
Proof. vm_compute. reflexivity. Qed.

(** ** process_threaded: which groups get a worker *)

Section Spawning.
Import Runner.
Implicit Types (file_dict : gmap string string).
Implicit Types (pre post files : list (string * gmap string string)).

Lemma truthy_Some (path : string) : path <> "" -> truthy (Some path) = true.
Proof.
  intros Hpath. simpl. destruct (String.eqb_spec path ""); [done|done].
Qed.

Lemma complete_triple_all file_dict tpt tzt txt :
  (forall ext path, file_dict !! ext = Some path -> path <> "") ->
  file_dict !! "TPT" = Some tpt -> file_dict !! "TZT" = Some tzt ->
  file_dict !! "TXT" = Some txt ->
  complete_triple file_dict = Some (tpt, tzt, txt).
Proof.
  intros Hpaths Htpt Htzt Htxt. unfold complete_triple.
  rewrite Htpt, Htzt, Htxt.
  rewrite !truthy_Some by eauto. done.
Qed.

Lemma complete_triple_missing file_dict :
  file_dict !! "TPT" = None \/ file_dict !! "TZT" = None \/ file_dict !! "TXT" = None ->
  complete_triple file_dict = None.
Proof.
  unfold complete_triple. intros [Hm|[Hm|Hm]]; rewrite Hm; simpl.
  - done.
  - by rewrite andb_false_r.
  - by rewrite andb_false_r.
Qed.

Lemma spawned_app pre post : spawned (pre ++ post) = spawned pre ++ spawned post.
Proof. unfold spawned. apply omap_app. Qed.

(** C7: for a discovered group whose stored paths are not empty strings (a
    discovered path ends in the name of a file), the loop starts a worker
    for the group exactly when it holds a TPT, a TZT and a TXT entry: then
    the worker gets these three paths; a group that lacks one of the three
    starts no worker, nothing is raised, and the run starts in the state it
    would start in without the group. *)
Theorem process_threaded_spawns_complete_groups pre folder file_dict post :
  (forall ext path, file_dict !! ext = Some path -> path <> "") ->
  (forall tpt tzt txt,
     file_dict !! "TPT" = Some tpt -> file_dict !! "TZT" = Some tzt ->
     file_dict !! "TXT" = Some txt ->
     spawned (pre ++ (folder, file_dict) :: post)
     = spawned pre ++ (tpt, tzt, txt) :: spawned post) /\
  (file_dict !! "TPT" = None \/ file_dict !! "TZT" = None \/ file_dict !! "TXT" = None ->
     spawned (pre ++ (folder, file_dict) :: post) = spawned (pre ++ post) /\
     forall max_threads lg0,
       initial max_threads (pre ++ (folder, file_dict) :: post) lg0
       = initial max_threads (pre ++ post) lg0).
Proof.
  intros Hpaths. split.
  - intros tpt tzt txt Htpt Htzt Htxt.
    rewrite spawned_app. f_equal. unfold spawned at 1. simpl.
    by rewrite (complete_triple_all _ _ _ _ Hpaths Htpt Htzt Htxt).
  - intros Hmissing.
    assert (Hsp : spawned (pre ++ (folder, file_dict) :: post) = spawned (pre ++ post)).
    { rewrite !spawned_app. f_equal. unfold spawned at 1. simpl.
      by rewrite (complete_triple_missing _ Hmissing). }
    split; [done|]. intros max_threads lg0. unfold initial. by rewrite Hsp.
Qed.

End Spawning.

Lemma partial_group_paths :
  forall ext path, partial_group !! ext = Some path -> path <> "".
Proof.
  intros ext path. unfold partial_group.
  rewrite !lookup_insert, lookup_empty.
  repeat case_decide; intros [= <-]; done.
Qed.

Lemma process_threaded_spawns_complete_groups_witness :
  (forall tpt tzt txt,
     partial_group !! "TPT" = Some tpt -> partial_group !! "TZT" = Some tzt ->
     partial_group !! "TXT" = Some txt ->
     Runner.spawned (station_files ++ ("st2", partial_group) :: [])
     = Runner.spawned station_files ++ (tpt, tzt, txt) :: Runner.spawned []) /\
  (partial_group !! "TPT" = None \/ partial_group !! "TZT" = None
   \/ partial_group !! "TXT" = None ->
     Runner.spawned (station_files ++ ("st2", partial_group) :: [])
     = Runner.spawned (station_files ++ []) /\
     forall max_threads lg0,
       Runner.initial max_threads (station_files ++ ("st2", partial_group) :: []) lg0
       = Runner.initial max_threads (station_files ++ []) lg0).
Proof.
  apply (process_threaded_spawns_complete_groups station_files "st2" partial_group []).
  intros ext path. unfold partial_group.
  rewrite !lookup_insert, lookup_empty.
  repeat case_decide; intros [= <-]; done.
Defined.

(** The group without a zenith file starts no worker. *)
Example partial_group_skipped :
  Runner.spawned (station_files ++ [("st2", partial_group)])
  = [("st1/S1.TPT", "st1/S1.TZT", "st1/S1.TXT")].
Proof. vm_compute. reflexivity. Qed.

(** ** process_threaded: the admission slots *)

Section Admission.
Context `{PyRuntime}.
Import Runner.
Implicit Types (st : state) (env : environment).
Implicit Types (l : list (string * string * string * phase)).

Lemma holders_count_insert l (k : nat) w w' :
  l !! k = Some w ->
  Z.of_nat (length (List.filter holds_slot (<[k := w']> l)))
  = Z.of_nat (length (List.filter holds_slot l))
    - Z.b2z (holds_slot w) + Z.b2z (holds_slot w').
Proof.
  revert k. induction l as [|a l IH]; intros k Hk; [done|].
  destruct k as [|k].
  - simpl in Hk. injection Hk as ->. simpl.
    destruct (holds_slot w), (holds_slot w'); simpl length; simpl Z.b2z; lia.
  - simpl in Hk. simpl. specialize (IH k Hk).
    destruct (holds_slot a); simpl length; lia.
Qed.

Lemma holders_count_snoc l w :
  holds_slot w = false ->
  length (List.filter holds_slot (l ++ [w])) = length (List.filter holds_slot l).
Proof.
  intros Hw. rewrite List.filter_app, length_app. simpl. rewrite Hw. simpl. lia.
Qed.

Lemma holders_joined st : joined st -> holders st = 0.
Proof.
  intros [_ Hall]. unfold holders.
  induction Hall as [|w l Hw _ IH]; [done|].
  simpl. unfold holds_slot at 1. rewrite Hw. exact IH.
Qed.

(** The counter of the semaphore and the workers between [acquire] and
    [release] always add up to the capacity. *)
Lemma step_slots env st st' :
  step env st st' ->
  0 <= semaphore st ->
  0 <= semaphore st' /\
  semaphore st' + holders st' = semaphore st + holders st.
Proof.
  intros Hstep Hsem. unfold holders.
  destruct Hstep as [st t rest Hp | st k t Hk Hfree | st k tpt tzt txt temp lg' Hk Hrun
                    | st k tpt tzt txt e lg' Hk Hrun | st k t Hk]; simpl.
  - rewrite holders_count_snoc by done. lia.
  - rewrite (holders_count_insert _ _ _ _ Hk). simpl. lia.
  - rewrite (holders_count_insert _ _ _ _ Hk). simpl. lia.
  - rewrite (holders_count_insert _ _ _ _ Hk). simpl. lia.
  - rewrite (holders_count_insert _ _ _ _ Hk). simpl. lia.
Qed.

(** Only a worker that holds a slot runs [process_data]: a step that
    changes the collected batches or the log is the step of a worker in
    phase [Holding], and leaves it in [Releasing] with its slot. *)
Lemma step_parses_inside_slot env st st' :
  step env st st' ->
  data st' <> data st \/ lg st' <> lg st ->
  exists (k : nat) t,
    threads st !! k = Some (t, Holding) /\
    threads st' = <[k := (t, Releasing)]> (threads st) /\
    semaphore st' = semaphore st.
Proof.
  intros Hstep Hchg.
  destruct Hstep as [st t rest Hp | st k t Hk Hfree | st k tpt tzt txt temp lg' Hk Hrun
                    | st k tpt tzt txt e lg' Hk Hrun | st k t Hk];
    simpl in *; try (destruct Hchg; done); eauto.
Qed.

(** C8: with a limiter of capacity [N >= 0], in every state the run can
    reach the number of workers between [acquire] and [release] is at most
    [N]; the counter of the semaphore is never negative and makes up the
    difference; a worker runs [process_data] only in that interval, and
    once every worker has finished all [N] slots are free again. *)
Theorem semaphore_bound env (N : Z) files lg0 st :
  0 <= N ->
  reachable env N files lg0 st ->
  holders st <= N /\
  0 <= semaphore st /\
  semaphore st + holders st = N /\
  (joined st -> semaphore st = N) /\
  (forall st',
     step env st st' ->
     data st' <> data st \/ lg st' <> lg st ->
     exists (k : nat) t,
       threads st !! k = Some (t, Holding) /\
       threads st' = <[k := (t, Releasing)]> (threads st)).
Proof.
  intros HN Hreach.
  assert (Hinv : 0 <= semaphore st /\ semaphore st + holders st = N).
  { unfold reachable in Hreach. revert st Hreach. apply rtc_ind_r.
    - simpl. unfold holders. simpl. lia.
    - intros st st' _ Hstep [Hsem Hsum].
      destruct (step_slots _ _ _ Hstep Hsem) as [Hsem' Hsum']. lia. }
  destruct Hinv as [Hsem Hsum].
  assert (0 <= holders st) by (unfold holders; lia).
  split; [lia|]. split; [done|]. split; [done|]. split.
  - intros Hj. rewrite (holders_joined _ Hj) in Hsum. lia.
  - intros st' Hstep Hchg.
    destruct (step_parses_inside_slot _ _ _ Hstep Hchg) as (k & t & Hk & Ht & _).
    eauto.
Qed.

End Admission.

(** A run with one slot and two stations: the second worker is admitted
    only after the first has released. *)
Lemma second_worker_admitted_reachable :
  Runner.reachable (H := AsciiRuntime.runtime) two_station_env 1
    two_station_files empty_log second_worker_admitted.
Proof.
  unfold Runner.reachable.
  eapply rtc_l; [eapply Runner.step_start; vm_compute; reflexivity|]. simpl.
  eapply rtc_l; [eapply Runner.step_start; vm_compute; reflexivity|]. simpl.
  eapply rtc_l; [eapply (Runner.step_acquire _ _ 0%nat); [reflexivity|simpl; lia]|]. simpl.
  eapply rtc_l; [eapply (Runner.step_append _ _ 0%nat); [reflexivity|vm_compute; reflexivity]|].
  simpl.
  eapply rtc_l; [eapply (Runner.step_release _ _ 0%nat); reflexivity|]. simpl.
  eapply rtc_l; [eapply (Runner.step_acquire _ _ 1%nat); [reflexivity|simpl; lia]|]. simpl.
  apply rtc_refl.
Qed.

Lemma second_worker_appends :
  Runner.step (H := AsciiRuntime.runtime) two_station_env
    second_worker_admitted second_worker_appended.
Proof.
  eapply (Runner.step_append _ second_worker_admitted 1%nat);
    [reflexivity|vm_compute; reflexivity].
Qed.

Lemma semaphore_bound_witness :
  let env := two_station_env in
  let st := second_worker_admitted in
  (Runner.reachable (H := AsciiRuntime.runtime) env 1 two_station_files empty_log st /\
   Runner.holders st = 1 /\
   Runner.step (H := AsciiRuntime.runtime) env st second_worker_appended /\
   Runner.data second_worker_appended <> Runner.data st) /\
  Runner.holders st <= 1 /\
  0 <= Runner.semaphore st /\
  Runner.semaphore st + Runner.holders st = 1 /\
  (Runner.joined st -> Runner.semaphore st = 1) /\
  (forall st',
     Runner.step (H := AsciiRuntime.runtime) env st st' ->
     Runner.data st' <> Runner.data st \/ Runner.lg st' <> Runner.lg st ->
     exists (k : nat) t,
       Runner.threads st !! k = Some (t, Runner.Holding) /\
       Runner.threads st' = <[k := (t, Runner.Releasing)]> (Runner.threads st)).
Proof.
  intros env st. split.
  - split; [apply second_worker_admitted_reachable|].
    split; [reflexivity|]. split; [apply second_worker_appends|].
    simpl. discriminate.
  - apply (semaphore_bound (H := AsciiRuntime.runtime) env 1 two_station_files empty_log).
    + lia.
    + apply second_worker_admitted_reachable.
Defined.

(** ** process_threaded: a run that completes *)

Section Schedules.
Context `{PyRuntime}.
Import Runner.
Implicit Types (st : state) (env : environment).

(** One worker, from start to finish, while no other worker moves. *)
Lemma worker_runs_alone env N done t rest data n lg0 :
  0 < N ->
  Forall (fun w => snd w = Finished) done ->
  rtc (step env)
    {| semaphore := N; pending := t :: rest; threads := done;
       data := data; processed_files := n; lg := lg0 |}
    (let '(data', n', lg') := one_by_one env [t] data n lg0 in
     {| semaphore := N; pending := rest; threads := done ++ [(t, Finished)];
        data := data'; processed_files := n'; lg := lg' |}).
Proof.
  intros HN Hdone. destruct t as [[tpt tzt] txt].
  assert (Hlast : forall ph : phase,
            (done ++ [(tpt, tzt, txt, ph)]) !! length done = Some (tpt, tzt, txt, ph)).
  { intros ph. by rewrite lookup_app_r, Nat.sub_diag by lia. }
  assert (Hset : forall ph ph' : phase,
            <[length done := (tpt, tzt, txt, ph')]> (done ++ [(tpt, tzt, txt, ph)])
            = done ++ [(tpt, tzt, txt, ph')]).
  { intros ph ph'. rewrite insert_app_r_alt, Nat.sub_diag by lia. done. }
  eapply rtc_l; [by eapply step_start|]. simpl.
  eapply rtc_l; [eapply (step_acquire _ _ (length done)); [apply Hlast|simpl; lia]|].
  simpl. rewrite Hset.
  destruct (process_data env tpt tzt txt lg0) as [[temp|e] lg'] eqn:Hrun.
  - eapply rtc_l;
      [eapply (step_append _ _ (length done)); [apply Hlast|exact Hrun]|].
    simpl. rewrite Hset.
    eapply rtc_l; [eapply (step_release _ _ (length done)); apply Hlast|].
    simpl. rewrite Hset. replace (N - 1 + 1) with N by lia. apply rtc_refl.
  - eapply rtc_l;
      [eapply (step_raise _ _ (length done)); [apply Hlast|exact Hrun]|].
    simpl. rewrite Hset.
    eapply rtc_l; [eapply (step_release _ _ (length done)); apply Hlast|].
    simpl. rewrite Hset. replace (N - 1 + 1) with N by lia. apply rtc_refl.
Qed.

Lemma workers_run_one_by_one env N done triples data n lg0 :
  0 < N ->
  Forall (fun w => snd w = Finished) done ->
  rtc (step env)
    {| semaphore := N; pending := triples; threads := done;
       data := data; processed_files := n; lg := lg0 |}
    (let '(data', n', lg') := one_by_one env triples data n lg0 in
     {| semaphore := N; pending := [];
        threads := done ++ ((fun t => (t, Finished)) <$> triples);
        data := data'; processed_files := n'; lg := lg' |}).
Proof.
  intros HN. revert done data n lg0.
  induction triples as [|t triples IH]; intros done data n lg0 Hdone.
  - simpl. rewrite app_nil_r. apply rtc_refl.
  - etrans; [by apply worker_runs_alone|].
    destruct t as [[tpt tzt] txt]. simpl.
    destruct (process_data env tpt tzt txt lg0) as [[temp|e] lg'].
    + specialize (IH (done ++ [(tpt, tzt, txt, Finished)]) (data ++ [temp]) (S n) lg').
      rewrite <- app_assoc in IH. apply IH.
      apply Forall_app. split; [done|]. by constructor.
    + specialize (IH (done ++ [(tpt, tzt, txt, Finished)]) data n lg').
      rewrite <- app_assoc in IH. apply IH.
      apply Forall_app. split; [done|]. by constructor.
Qed.

(** With at least one slot the run can start, run and join every worker. *)
Lemma run_completes env N files lg0 :
  0 < N ->
  reachable env N files lg0 (after_one_by_one env N files lg0) /\
  joined (after_one_by_one env N files lg0).
Proof.
  intros HN. split.
  - unfold reachable, initial, after_one_by_one.
    pose proof (workers_run_one_by_one env N [] (spawned files) [] 0%nat lg0 HN
                  ltac:(constructor)) as Hrun.
    destruct (one_by_one env (spawned files) [] 0 lg0) as [[data' n'] lg']. exact Hrun.
  - unfold after_one_by_one.
    destruct (one_by_one env (spawned files) [] 0 lg0) as [[data' n'] lg'].
    split; [done|]. simpl. apply Forall_fmap, Forall_forall. done.
Qed.

End Schedules.

(** ** process_threaded: how a run ends *)

Section Endings.
Context `{PyRuntime}.
Import Ordering Runner.
Implicit Types (st : state) (env : environment).

Lemma finish_sort_raises env st e :
  sort_batches (data st) = Raise e -> finish env st = (Died e, lg st).
Proof. intros Hsort. unfold finish. by rewrite Hsort. Qed.

Lemma timestamp_nonempty (b : list (list pyval)) : is_Some (timestamp b) -> b <> [].
Proof. intros [k Hk] ->. done. Qed.

(** An angle export without data rows yields an empty batch. *)
Lemma process_data_empty_body env tpt tzt txt tpt_f tzt_f txt_f
    station height R K date time tzt_data txt_data lg0 :
  fs env tpt = Some tpt_f -> fs env tzt = Some tzt_f -> fs env txt = Some txt_f ->
  declares tpt_f station height R K date time ->
  data_rows tpt_f = [] ->
  processing_angle tzt_f = Ok tzt_data ->
  processing_distance txt_f = Ok txt_data ->
  process_data env tpt tzt txt lg0 = (Ok [], lg0).
Proof.
  intros Htpt Htzt Htxt Hdecl Hbody Hz Hx. unfold process_data.
  rewrite Htpt, Htzt, Htxt.
  rewrite (processing_angle_numbered _ _ _ _ _ _ _ Hdecl), Hbody, Hz, Hx.
  done.
Qed.

(** C9: the sort returns only if every collected batch is non-empty; and
    there are inputs that make a batch empty: with a complete triple whose
    angle export has a well-formed header and no data row, the run reaches
    the join with the single batch [[]], and the sort then fails with
    [IndexError] on the first record, so the run dies in the main thread
    without a report. *)
Theorem empty_batch_stops_the_run env (N : Z) folder (file_dict : gmap string string)
    tpt tzt txt tpt_f tzt_f txt_f station height R K date time
    tzt_data txt_data lg0 :
  0 < N ->
  complete_triple file_dict = Some (tpt, tzt, txt) ->
  fs env tpt = Some tpt_f -> fs env tzt = Some tzt_f -> fs env txt = Some txt_f ->
  declares tpt_f station height R K date time ->
  data_rows tpt_f = [] ->
  processing_angle tzt_f = Ok tzt_data ->
  processing_distance txt_f = Ok txt_data ->
  (forall collected out,
     sort_batches collected = Ok out -> Forall (fun b => b <> []) collected) /\
  exists st,
    reachable env N [(folder, file_dict)] lg0 st /\ joined st /\
    data st = [[]] /\
    sort_batches (data st) = Raise IndexError /\
    finish env st = (Died IndexError, lg0).
Proof.
  intros HN Hgroup Htpt Htzt Htxt Hdecl Hbody Hz Hx. split.
  - intros collected out Hsort. apply sort_batches_Ok in Hsort.
    eapply Forall_impl; [exact Hsort|]. intros b. apply timestamp_nonempty.
  - exists (after_one_by_one env N [(folder, file_dict)] lg0).
    destruct (run_completes env N [(folder, file_dict)] lg0 HN) as [Hreach Hjoin].
    split; [done|]. split; [done|].
    unfold after_one_by_one in *. unfold spawned in *. simpl in *.
    rewrite Hgroup in *. simpl in *.
    rewrite (process_data_empty_body _ _ _ _ _ _ _ _ _ _ _ _ _ _ _ lg0
               Htpt Htzt Htxt Hdecl Hbody Hz Hx) in *.
    simpl. split; [done|]. split; [done|]. done.
Qed.

(** C6, as the code has it, for the conditions met after the join. An
    unparsable timestamp of a first record is not funnelled through the
    log-then-exit path: the [ValueError] of the sort is not caught, nothing
    is logged, and the run dies without a report. An [OSError] while the
    workbook is written does go through that path: it is logged, the
    handlers are cleared, [exit()] ends the run, and there is no report. A
    report is written only when neither happened, and then it holds the
    records of all collected batches. *)
Theorem finish_fatal_conditions env st :
  (forall pre b post first date time,
     data st = pre ++ b :: post ->
     Forall (fun b' => is_Some (timestamp b')) pre ->
     head b = Some first ->
     first !! 10%nat = Some (PyStr date) ->
     first !! 11%nat = Some (PyStr time) ->
     strptime (String.append (String.append date " ") time) = None ->
     finish env st = (Died ValueError, lg st)) /\
  (forall sorted,
     sort_batches (data st) = Ok sorted ->
     xls_save env (List.concat sorted) = Some OSError ->
     finish env st = (Died SystemExit, clear_handlers (log OSError (lg st)))) /\
  (forall rows lg',
     finish env st = (Report rows, lg') ->
     lg' = lg st /\
     exists sorted,
       sort_batches (data st) = Ok sorted /\ sorted ≡ₚ data st /\
       rows = List.concat sorted).
Proof.
  split; [|split].
  - intros pre b post first date time Hdata Hpre Hb Hdate Htime Hparse.
    apply finish_sort_raises. rewrite Hdata.
    by eapply sort_batches_unparsable.
  - intros sorted Hsort Hsave. unfold finish, output_excel.
    by rewrite Hsort, Hsave.
  - intros rows lg'. unfold finish, output_excel.
    destruct (sort_batches (data st)) as [sorted|e] eqn:Hsort; [|done].
    destruct (xls_save env (List.concat sorted)) as [[]|] eqn:Hsave; try done.
    intros [= <- <-]. split; [done|]. exists sorted. split; [done|]. split; [|done].
    by apply sort_batches_perm.
Qed.

End Endings.

Lemma empty_batch_stops_the_run_witness :
  let env := station_env (tpt_export "2024-01-02" []) in
  (forall collected out,
     Ordering.sort_batches (H := AsciiRuntime.runtime) collected = Ok out ->
     Forall (fun b => b <> []) collected) /\
  exists st,
    Runner.reachable (H := AsciiRuntime.runtime) env 16 station_files empty_log st /\
    Runner.joined st /\
    Runner.data st = [[]] /\
    Ordering.sort_batches (H := AsciiRuntime.runtime) (Runner.data st)
    = Raise IndexError /\
    Runner.finish (H := AsciiRuntime.runtime) env st = (Runner.Died IndexError, empty_log).
Proof.
  unfold station_files.
  eapply (empty_batch_stops_the_run (H := AsciiRuntime.runtime)
            (station_env (tpt_export "2024-01-02" [])) 16 "st1" _
            "st1/S1.TPT" "st1/S1.TZT" "st1/S1.TXT"
            (tpt_export "2024-01-02" []) tzt_export txt_export
            "S1" "1.5" 1 1 "2024-01-02" "10:00:00").
  - lia.
  - vm_compute. reflexivity.
  - reflexivity.
  - reflexivity.
  - reflexivity.
  - unfold declares. repeat eexists.
  - reflexivity.
  - vm_compute. reflexivity.
  - vm_compute. reflexivity.
Defined.

Lemma finish_fatal_conditions_witness :
  let env := station_env (tpt_export "02.01.2024" tpt_body) in
  let st := after_one_by_one (H := AsciiRuntime.runtime) env 16 station_files empty_log in
  Runner.finish (H := AsciiRuntime.runtime) env st = (Runner.Died ValueError, Runner.lg st).
Proof.
  intros env st.
  eapply (proj1 (finish_fatal_conditions (H := AsciiRuntime.runtime) env st) []
            (s1_batch "02.01.2024") []).
  - vm_compute. reflexivity.
  - constructor.
  - reflexivity.
  - reflexivity.
  - reflexivity.
  - vm_compute. reflexivity.
Defined.

(** C6 as stated fails: a run of one station whose angle export carries
    the date [02.01.2024] joins its worker, then dies in the sort with
    [ValueError]; the log has no entry, so the condition did not pass
    through the log-then-exit path. *)
Lemma unparsable_timestamp_is_not_logged :
  let env := station_env (tpt_export "02.01.2024" tpt_body) in
  exists st,
    Runner.reachable (H := AsciiRuntime.runtime) env 16 station_files empty_log st /\
    Runner.joined st /\
    Runner.data st = [s1_batch "02.01.2024"] /\
    strptime (PyRuntime := AsciiRuntime.runtime) "02.01.2024 10:00:00" = None /\
    Runner.finish (H := AsciiRuntime.runtime) env st
    = (Runner.Died ValueError, empty_log) /\
    Runner.entries empty_log = [] /\
    forall err lg,
      Runner.finish (H := AsciiRuntime.runtime) env st
      <> (Runner.Died SystemExit, Runner.clear_handlers (Runner.log err lg)).
Proof.
  intros env.
  exists (after_one_by_one (H := AsciiRuntime.runtime) env 16 station_files empty_log).
  destruct (run_completes (H := AsciiRuntime.runtime) env 16 station_files empty_log
              ltac:(lia)) as [Hreach Hjoin].
  split; [exact Hreach|]. split; [exact Hjoin|].
  split; [vm_compute; reflexivity|]. split; [vm_compute; reflexivity|].
  assert (Hfin : Runner.finish (H := AsciiRuntime.runtime) env
                   (after_one_by_one (H := AsciiRuntime.runtime) env 16
                      station_files empty_log)
                 = (Runner.Died ValueError, empty_log))
    by (vm_compute; reflexivity).
  split; [exact Hfin|]. split; [reflexivity|].
  intros err lg. rewrite Hfin. discriminate.
Qed.

(** The other way C6 fails, by a slip of the code: [exit()] in a worker
    thread ends that thread only. With a second group whose files cannot be
    opened, the worker logs the [OSError] and exits, and the run goes on to
    write a report that holds the first station alone. *)
Lemma worker_exit_leaves_partial_report :
  let env := station_env (tpt_export "2024-01-02" tpt_body) in
  let files := station_files ++ [("st3", unreadable_group)] in
  exists st,
    Runner.reachable (H := AsciiRuntime.runtime) env 16 files empty_log st /\
    Runner.joined st /\
    length (Runner.threads st) = 2%nat /\
    Runner.finish (H := AsciiRuntime.runtime) env st
    = (Runner.Report (s1_batch "2024-01-02"),
       {| Runner.handlers := false; Runner.entries := [OSError] |}).
Proof.
  intros env files.
  exists (after_one_by_one (H := AsciiRuntime.runtime) env 16 files empty_log).
  destruct (run_completes (H := AsciiRuntime.runtime) env 16 files empty_log
              ltac:(lia)) as [Hreach Hjoin].
  split; [exact Hreach|]. split; [exact Hjoin|].
  split; vm_compute; reflexivity.
Qed.

(** ** merge_data on the store: arguments untouched, records new *)

Section StoreProperties.
Import Store.
Implicit Types (h : gmap loc obj) (l result : loc).

Lemma only_allocates_ret {A} (a : A) : only_allocates (ret a).
Proof. intros h. done. Qed.

Lemma only_allocates_lift {A} (r : result A) : only_allocates (lift r).
Proof. intros h. done. Qed.

Lemma only_allocates_bind {A B} (m : M A) (f : A -> M B) :
  only_allocates m -> (forall a, only_allocates (f a)) -> only_allocates (bind m f).
Proof.
  intros Hm Hf h. unfold bind. specialize (Hm h).
  destruct (m h) as [[a|e] h1]; simpl in *; [|done].
  etrans; [exact Hm|]. apply Hf.
Qed.

Lemma returns_new_row_bind {A} (m : M A) (f : A -> M loc) :
  only_allocates m -> (forall a, returns_new_row (f a)) -> returns_new_row (bind m f).
Proof.
  intros Hm Hf h. unfold bind. specialize (Hm h).
  destruct (m h) as [[a|e] h1]; simpl in *; [|by split].
  destruct (Hf a h1) as [Hsub Hnew]. split; [by etrans|].
  intros l Hl. destruct (Hnew l Hl) as [Hfresh Hrow]. split; [|done].
  by eapply lookup_weaken_None.
Qed.

Lemma returns_new_row_only_allocates (m : M loc) :
  returns_new_row m -> only_allocates m.
Proof. intros Hm h. apply Hm. Qed.

Lemma only_allocates_read_row l : only_allocates (read_row l).
Proof. intros h. unfold read_row. by destruct (h !! l) as [[]|]. Qed.

Lemma only_allocates_read_table l : only_allocates (read_table l).
Proof. intros h. unfold read_table. by destruct (h !! l) as [[]|]. Qed.

Lemma alloc_fresh (o : obj) h : h !! fresh (dom h) = None.
Proof. apply not_elem_of_dom, is_fresh. Qed.

Lemma returns_new_row_alloc fields : returns_new_row (alloc (ORow fields)).
Proof.
  intros h. unfold alloc. simpl. pose proof (alloc_fresh (ORow fields) h) as Hf.
  split; [by apply insert_subseteq|].
  intros l [= <-]. split; [done|]. exists fields. apply lookup_insert_eq.
Qed.

Lemma returns_new_row_slice l lo hi : returns_new_row (slice_row l lo hi).
Proof.
  apply returns_new_row_bind; [apply only_allocates_read_row|].
  intros fields. apply returns_new_row_alloc.
Qed.

Lemma returns_new_row_concat a b : returns_new_row (concat_rows a b).
Proof.
  apply returns_new_row_bind; [apply only_allocates_read_row|]. intros x.
  apply returns_new_row_bind; [apply only_allocates_read_row|]. intros y.
  apply returns_new_row_alloc.
Qed.

Lemma returns_new_row_display v : returns_new_row (display v).
Proof. apply returns_new_row_alloc. Qed.

Lemma only_allocates_row_item l i : only_allocates (row_item l i).
Proof.
  apply only_allocates_bind; [apply only_allocates_read_row|].
  intros fields. apply only_allocates_lift.
Qed.

Lemma only_allocates_rows_equal a b : only_allocates (rows_equal a b).
Proof.
  apply only_allocates_bind; [apply only_allocates_read_row|]. intros x.
  apply only_allocates_bind; [apply only_allocates_read_row|]. intros y.
  apply only_allocates_ret.
Qed.

Lemma returns_new_row_placeholder table : returns_new_row (placeholder table).
Proof.
  apply returns_new_row_bind;
    [apply returns_new_row_only_allocates, returns_new_row_display|]. intros one.
  apply returns_new_row_bind; [apply only_allocates_read_table|]. intros rows.
  apply returns_new_row_bind; [apply only_allocates_lift|]. intros first.
  apply returns_new_row_bind; [apply only_allocates_read_row|]. intros fields.
  apply returns_new_row_bind; [apply only_allocates_read_row|]. intros unit_row.
  apply returns_new_row_alloc.
Qed.

Lemma only_allocates_scan station_info rows : only_allocates (scan station_info rows).
Proof.
  induction rows as [|r rows IH]; simpl; [apply only_allocates_ret|].
  apply only_allocates_bind;
    [apply returns_new_row_only_allocates, returns_new_row_slice|]. intros key.
  apply only_allocates_bind; [apply only_allocates_rows_equal|]. intros same.
  destruct same; [apply only_allocates_ret|exact IH].
Qed.

Lemma only_allocates_first_match station_info table :
  only_allocates (first_match station_info table).
Proof.
  apply only_allocates_bind; [apply only_allocates_read_table|]. intros rows.
  apply only_allocates_bind;
    [apply returns_new_row_only_allocates, returns_new_row_placeholder|].
  intros default.
  apply only_allocates_bind; [apply only_allocates_scan|]. intros found.
  apply only_allocates_ret.
Qed.

(** The list bound to [merged] is a new object. *)
Lemma returns_new_row_merged_record tzt_data txt_data tpt_row :
  returns_new_row (merged_record tzt_data txt_data tpt_row).
Proof.
  unfold merged_record.
  repeat (apply returns_new_row_bind;
          [first [ apply returns_new_row_only_allocates;
                   first [ apply returns_new_row_slice
                         | apply returns_new_row_concat
                         | apply returns_new_row_display ]
                 | apply only_allocates_first_match
                 | apply only_allocates_row_item ]
          | intros ? ]).
  apply returns_new_row_concat.
Qed.

Lemma loop_invariant_grow h0 result h h' :
  loop_invariant h0 result h -> h ⊆ h' -> loop_invariant h0 result h'.
Proof.
  intros (Hsub & Hres & rows & Htab & Hrows) Hgrow.
  split; [by etrans|]. split; [done|]. exists rows.
  split; [by eapply lookup_weaken|].
  eapply Forall_impl; [exact Hrows|]. intros r [Hr [fields Hf]].
  split; [done|]. exists fields. by eapply lookup_weaken.
Qed.

Lemma merge_row_invariant h0 tzt_data txt_data result tpt_row h :
  loop_invariant h0 result h ->
  loop_invariant h0 result (snd (merge_row tzt_data txt_data result tpt_row h)).
Proof.
  intros Hinv. unfold merge_row, bind.
  destruct (returns_new_row_merged_record tzt_data txt_data tpt_row h) as [Hsub Hnew].
  destruct (merged_record tzt_data txt_data tpt_row h) as [[merged|e] h1]; simpl in *.
  - destruct (Hnew merged eq_refl) as [Hfresh [fields Hfields]].
    pose proof (loop_invariant_grow _ _ _ _ Hinv Hsub) as Hinv1.
    destruct Hinv1 as (Hsub1 & Hres & rows & Htab & Hrows).
    unfold append. rewrite Htab. simpl.
    assert (Hne : result <> merged) by congruence.
    split; [by apply insert_subseteq_r|]. split; [done|].
    exists (rows ++ [merged]). split; [apply lookup_insert_eq|].
    apply Forall_app. split.
    + eapply Forall_impl; [exact Hrows|]. intros r [Hr [fs Hfs]].
      split; [done|]. exists fs. rewrite lookup_insert_ne; [done|congruence].
    + constructor; [|constructor]. split.
      * destruct Hinv as [Hsub0 _]. by eapply lookup_weaken_None.
      * exists fields. by rewrite lookup_insert_ne.
  - by eapply loop_invariant_grow.
Qed.

Lemma merge_loop_invariant h0 tzt_data txt_data result rows h :
  loop_invariant h0 result h ->
  loop_invariant h0 result (snd (merge_loop tzt_data txt_data result rows h)).
Proof.
  revert h. induction rows as [|tpt_row rows IH]; intros h Hinv; [done|].
  simpl. unfold bind.
  pose proof (merge_row_invariant _ tzt_data txt_data _ tpt_row _ Hinv) as Hrow.
  destruct (merge_row tzt_data txt_data result tpt_row h) as [[[]|e] h1];
    simpl in *; [by apply IH|done].
Qed.

(** C10: [merge_data] leaves every list object that exists at the call as
    it is — the three argument lists and each row they hold keep their
    contents — and what it returns is a table made during the call whose
    records are rows made during the call: no returned list is a list of
    the caller. *)
Theorem merge_data_leaves_arguments tpt_data tzt_data txt_data h :
  (forall l o, h !! l = Some o ->
     snd (merge_data tpt_data tzt_data txt_data h) !! l = Some o) /\
  (forall result,
     fst (merge_data tpt_data tzt_data txt_data h) = Ok result ->
     h !! result = None /\
     exists rows,
       snd (merge_data tpt_data tzt_data txt_data h) !! result = Some (OTable rows) /\
       Forall (fun r => h !! r = None /\
                 exists fields,
                   snd (merge_data tpt_data tzt_data txt_data h) !! r
                   = Some (ORow fields)) rows).
Proof.
  assert (Hrun : forall r h',
            merge_data tpt_data tzt_data txt_data h = (r, h') ->
            h ⊆ h' /\
            forall result, r = Ok result ->
              h !! result = None /\
              exists rows,
                h' !! result = Some (OTable rows) /\
                Forall (fun r => h !! r = None /\
                          exists fields, h' !! r = Some (ORow fields)) rows).
  { intros r h'.
    assert (Hfresh : h !! fresh (dom h) = None) by apply (alloc_fresh (OTable [])).
    assert (Hinv0 : loop_invariant h (fresh (dom h))
                      (<[fresh (dom h) := OTable []]> h)).
    { split; [by apply insert_subseteq|]. split; [done|].
      exists []. split; [apply lookup_insert_eq|constructor]. }
    unfold merge_data, bind, alloc, read_table.
    destruct (<[fresh (dom h) := OTable []]> h !! tpt_data) as [[fields|rows]|].
    - intros [= <- <-]. split; [apply Hinv0|done].
    - pose proof (merge_loop_invariant h tzt_data txt_data _ rows _ Hinv0) as Hinv.
      destruct (merge_loop tzt_data txt_data (fresh (dom h)) rows
                  (<[fresh (dom h) := OTable []]> h)) as [[[]|e] h2]; simpl in Hinv.
      + intros [= <- <-]. destruct Hinv as (Hsub & Hres & out & Htab & Hout).
        split; [done|]. intros ? [= <-]. split; [done|]. by exists out.
      + intros [= <- <-]. split; [apply Hinv|done].
    - intros [= <- <-]. split; [apply Hinv0|done]. }
  destruct (merge_data tpt_data tzt_data txt_data h) as [r h'] eqn:Hmerge.
  destruct (Hrun r h' eq_refl) as [Hsub Hnew]. simpl. split.
  - intros l o Hl. by eapply lookup_weaken.
  - exact Hnew.
Qed.

End StoreProperties.

(** On the fixture the call returns one new record and the three tables
    denote what they denoted. *)
Example merge_data_on_fixture_heap :
  let out := Store.merge_data 1%positive 2%positive 3%positive fixture_heap in
  fst out = Ok 31%positive /\
  fixture_heap !! 31%positive = None /\
  Store.table_of (snd out) 31%positive
  = Some [ PyStr <$> ["S1"; "1.5"; "1"; "T1"; "1.3"; "10.0000"; "190.0000";
                      "90.0000"; "270.0000"; "123.456"; "2024-01-02"; "10:00:00"] ] /\
  Store.table_of (snd out) 1%positive = Some angle_rows /\
  Store.table_of (snd out) 2%positive = Some zenith_rows /\
  Store.table_of (snd out) 3%positive = Some distance_rows.
Proof. vm_compute. repeat split; reflexivity. Qed.

(** ** merge_data on the store computes what merge_data on values does *)

Section StoreRefinement.
Import Store.
Implicit Types (h : gmap loc obj) (l t : loc).

Lemma row_of_Some h l fields : row_of h l = Some fields <-> h !! l = Some (ORow fields).
Proof.
  unfold row_of. destruct (h !! l) as [[]|]; split; congruence.
Qed.

Lemma row_of_weaken h h' l fields :
  h ⊆ h' -> row_of h l = Some fields -> row_of h' l = Some fields.
Proof.
  rewrite !row_of_Some. intros Hsub Hl. by eapply lookup_weaken.
Qed.

Lemma rows_weaken h h' locs (T : list (list pyval)) :
  h ⊆ h' ->
  Forall2 (fun l r => row_of h l = Some r) locs T ->
  Forall2 (fun l r => row_of h' l = Some r) locs T.
Proof.
  intros Hsub Hrows. eapply Forall2_impl; [exact Hrows|].
  intros l r. by apply row_of_weaken.
Qed.

Lemma denotes_weaken h h' t (T : list (list pyval)) :
  h ⊆ h' -> denotes h t T -> denotes h' t T.
Proof.
  intros Hsub (locs & Ht & Hrows). exists locs.
  split; [by eapply lookup_weaken|by eapply rows_weaken].
Qed.

Lemma denotes_table_of h t (T : list (list pyval)) :
  denotes h t T <-> table_of h t = Some T.
Proof.
  unfold denotes, table_of. split.
  - intros (locs & -> & Hrows). by apply mapM_Some.
  - destruct (h !! t) as [[|locs]|]; try done.
    intros Hrows. exists locs. split; [done|]. by apply mapM_Some.
Qed.

Lemma outcome_ret {A} (a : A) h (R : result A -> gmap loc obj -> Prop) :
  R (Ok a) h -> outcome (ret a) h R.
Proof. intros HR. by exists (Ok a), h. Qed.

Lemma outcome_lift {A} (r : result A) h (R : result A -> gmap loc obj -> Prop) :
  R r h -> outcome (lift r) h R.
Proof. intros HR. by exists r, h. Qed.

Lemma outcome_bind {A B} (m : M A) (f : A -> M B) h
    (R : result B -> gmap loc obj -> Prop) :
  outcome m h (fun r h1 => match r with
                           | Ok a => outcome (f a) h1 R
                           | Raise e => R (Raise e) h1
                           end) ->
  outcome (bind m f) h R.
Proof.
  intros ([a|e] & h1 & Hm & Hsub & Hrest).
  - destruct Hrest as (r & h2 & Hf & Hsub' & HR).
    exists r, h2. unfold bind. rewrite Hm. split; [done|]. split; [by etrans|done].
  - exists (Raise e), h1. unfold bind. rewrite Hm. done.
Qed.

Lemma outcome_mono {A} (m : M A) h (R R' : result A -> gmap loc obj -> Prop) :
  outcome m h R ->
  (forall r h', h ⊆ h' -> R r h' -> R' r h') ->
  outcome m h R'.
Proof.
  intros (r & h' & Hm & Hsub & HR) Himpl. exists r, h'. eauto.
Qed.

Lemma outcome_read_row h l fields (R : result (list pyval) -> gmap loc obj -> Prop) :
  row_of h l = Some fields -> R (Ok fields) h -> outcome (read_row l) h R.
Proof.
  intros Hl HR. exists (Ok fields), h. unfold read_row.
  apply row_of_Some in Hl. by rewrite Hl.
Qed.

Lemma outcome_read_table h t locs (R : result (list loc) -> gmap loc obj -> Prop) :
  h !! t = Some (OTable locs) -> R (Ok locs) h -> outcome (read_table t) h R.
Proof.
  intros Ht HR. exists (Ok locs), h. unfold read_table. by rewrite Ht.
Qed.

Lemma outcome_alloc_row h fields (R : result loc -> gmap loc obj -> Prop) :
  (forall l h', h ⊆ h' -> h !! l = None -> row_of h' l = Some fields -> R (Ok l) h') ->
  outcome (alloc (ORow fields)) h R.
Proof.
  intros HR. exists (Ok (fresh (dom h))), (<[fresh (dom h) := ORow fields]> h).
  pose proof (alloc_fresh (ORow fields) h) as Hfresh.
  split; [done|]. split; [by apply insert_subseteq|].
  apply HR; [by apply insert_subseteq|done|].
  apply row_of_Some, lookup_insert_eq.
Qed.

Lemma outcome_slice_row h l lo hi fields (R : result loc -> gmap loc obj -> Prop) :
  row_of h l = Some fields ->
  (forall l' h', h ⊆ h' -> row_of h' l' = Some (slice fields lo hi) -> R (Ok l') h') ->
  outcome (slice_row l lo hi) h R.
Proof.
  intros Hl HR. apply outcome_bind.
  eapply outcome_read_row; [exact Hl|].
  apply outcome_alloc_row. intros l' h' Hsub _ Hrow. by apply HR.
Qed.

Lemma outcome_concat_rows h a b x y (R : result loc -> gmap loc obj -> Prop) :
  row_of h a = Some x -> row_of h b = Some y ->
  (forall l' h', h ⊆ h' -> row_of h' l' = Some (x ++ y) -> R (Ok l') h') ->
  outcome (concat_rows a b) h R.
Proof.
  intros Ha Hb HR. apply outcome_bind.
  eapply outcome_read_row; [exact Ha|]. apply outcome_bind.
  eapply outcome_read_row; [exact Hb|].
  apply outcome_alloc_row. intros l' h' Hsub _ Hrow. by apply HR.
Qed.

Lemma outcome_display h v (R : result loc -> gmap loc obj -> Prop) :
  (forall l' h', h ⊆ h' -> row_of h' l' = Some [v] -> R (Ok l') h') ->
  outcome (display v) h R.
Proof.
  intros HR. apply outcome_alloc_row. intros l' h' Hsub _ Hrow. by apply HR.
Qed.

Lemma outcome_row_item h l i fields (R : result pyval -> gmap loc obj -> Prop) :
  row_of h l = Some fields -> R (getitem fields i) h -> outcome (row_item l i) h R.
Proof.
  intros Hl HR. apply outcome_bind.
  eapply outcome_read_row; [exact Hl|]. by apply outcome_lift.
Qed.

Lemma outcome_rows_equal h a b x y (R : result bool -> gmap loc obj -> Prop) :
  row_of h a = Some x -> row_of h b = Some y ->
  R (Ok (bool_decide (x = y))) h -> outcome (rows_equal a b) h R.
Proof.
  intros Ha Hb HR. apply outcome_bind.
  eapply outcome_read_row; [exact Ha|]. apply outcome_bind.
  eapply outcome_read_row; [exact Hb|]. by apply outcome_ret.
Qed.

(** Carries what is known of the rows and tables of [h] over to a larger
    store. *)
Ltac transport Hsub :=
  match type of Hsub with
  | ?h ⊆ ?h' =>
      repeat match goal with
        | Hrow : row_of h _ = Some _ |- _ =>
            apply (row_of_weaken h h' _ _ Hsub) in Hrow
        | Hrows : Forall2 (fun l r => row_of h l = Some r) _ _ |- _ =>
            apply (rows_weaken h h' _ _ Hsub) in Hrows
        | Htab : denotes h _ _ |- _ =>
            apply (denotes_weaken h h' _ _ Hsub) in Htab
        end
  end.

(** Closes [h ⊆ h'] along the chain of stores met so far. *)
Ltac larger := repeat first [ eassumption | etrans; [eassumption|] ].

Lemma concat_replicate_none (n : nat) :
  List.concat (replicate n [PyNone]) = replicate n PyNone.
Proof. induction n as [|n IH]; [done|]. simpl. by rewrite IH. Qed.

Lemma outcome_placeholder h t (T : list (list pyval))
    (R : result loc -> gmap loc obj -> Prop) :
  denotes h t T ->
  (forall r h', h ⊆ h' -> same_row (Merge.placeholder T) r h' -> R r h') ->
  outcome (placeholder t) h R.
Proof.
  intros (locs & Ht & Hrows) HR. unfold placeholder.
  apply outcome_bind, outcome_display. intros one h1 Hsub1 Hone.
  transport Hsub1. apply (lookup_weaken _ _ _ _ Ht) in Hsub1 as Ht1.
  apply outcome_bind. eapply outcome_read_table; [exact Ht1|].
  apply outcome_bind, outcome_lift.
  destruct Hrows as [|l0 first locs T Hfirst Hrest].
  - change (getitem (A := loc) [] 0) with (Raise (A := loc) IndexError).
    apply HR; [done|]. done.
  - change (getitem (l0 :: locs) 0) with (Ok l0).
    apply outcome_bind. eapply outcome_read_row; [exact Hfirst|].
    apply outcome_bind. eapply outcome_read_row; [exact Hone|].
    apply outcome_alloc_row. intros l' h2 Hsub2 _ Hrow.
    apply HR; [larger|]. simpl. by rewrite <- concat_replicate_none.
Qed.

Lemma outcome_scan h si key locs (T : list (list pyval))
    (R : result (option loc) -> gmap loc obj -> Prop) :
  row_of h si = Some key ->
  Forall2 (fun l r => row_of h l = Some r) locs T ->
  (forall found h', h ⊆ h' ->
     match found, List.find (fun r => bool_decide (slice r None (Some 4) = key)) T with
     | Some l, Some r => row_of h' l = Some r
     | None, None => True
     | _, _ => False
     end -> R (Ok found) h') ->
  outcome (scan si locs) h R.
Proof.
  revert T h R. induction locs as [|l locs IH]; intros T h R Hsi Hrows HR.
  - apply Forall2_nil_inv_l in Hrows as ->. simpl.
    apply outcome_ret. by apply HR.
  - apply Forall2_cons_inv_l in Hrows as (r & T' & Hl & Hrows & ->). simpl scan.
    apply outcome_bind. eapply outcome_slice_row; [exact Hl|].
    intros k h1 Hsub1 Hk. transport Hsub1.
    apply outcome_bind. eapply outcome_rows_equal; [exact Hk|exact Hsi|].
    destruct (bool_decide (slice r None (Some 4) = key)) eqn:Hsame.
    + apply outcome_ret. apply HR; [larger|]. simpl. by rewrite Hsame.
    + apply (IH T'); [done|done|].
      intros found h2 Hsub2 Hfound. apply HR; [larger|]. simpl. by rewrite Hsame.
Qed.

Lemma outcome_first_match h si key t (T : list (list pyval))
    (R : result loc -> gmap loc obj -> Prop) :
  row_of h si = Some key ->
  denotes h t T ->
  (forall r h', h ⊆ h' ->
     same_row (default ← Merge.placeholder T; Ok (Merge.first_match key T default)) r h' ->
     R r h') ->
  outcome (first_match si t) h R.
Proof.
  intros Hsi Ht HR. unfold first_match.
  destruct Ht as (locs & Hlocs & Hrows).
  apply outcome_bind. eapply outcome_read_table; [exact Hlocs|].
  apply outcome_bind.
  eapply outcome_placeholder; [by exists locs|].
  intros [dl|e] h1 Hsub1 Hsame.
  - destruct (Merge.placeholder T) as [d|] eqn:Hd; [|done]. simpl in Hsame.
    transport Hsub1.
    apply outcome_bind. eapply outcome_scan; [exact Hsi|exact Hrows|].
    intros found h2 Hsub2 Hfound. transport Hsub2.
    apply outcome_ret. apply HR; [larger|]. simpl. unfold Merge.first_match.
    destruct found, (List.find _ T); done.
  - destruct (Merge.placeholder T) as [|e'] eqn:Hd; [done|]. simpl in Hsame.
    subst e'. by apply HR.
Qed.

(** Lines 170-173 on the store build the row that they build on values. *)
Lemma outcome_merged_record h tzt_data txt_data tpt_row tf
    (Z X : list (list pyval)) (R : result loc -> gmap loc obj -> Prop) :
  row_of h tpt_row = Some tf ->
  denotes h tzt_data Z -> denotes h txt_data X ->
  (forall r h', h ⊆ h' -> same_row (Merge.merge_row Z X tf) r h' -> R r h') ->
  outcome (merged_record tzt_data txt_data tpt_row) h R.
Proof.
  intros Htf HZ HX HR. unfold merged_record. unfold Merge.merge_row in HR.
  apply outcome_bind. eapply outcome_slice_row; [exact Htf|].
  intros si h1 Hsub1 Hsi. transport Hsub1.
  apply outcome_bind. eapply outcome_first_match; [exact Hsi|exact HZ|].
  intros [zl|e] h2 Hsub2 Hz;
    destruct (Merge.placeholder Z) as [dz|ez]; simpl in Hz; try done;
    [|subst ez; apply HR; [larger|done]].
  transport Hsub2.
  apply outcome_bind. eapply outcome_first_match; [exact Hsi|exact HX|].
  intros [xl|e] h3 Hsub3 Hx;
    destruct (Merge.placeholder X) as [dx|ex]; simpl in Hx; try done;
    [|subst ex; apply HR; [larger|done]].
  transport Hsub3. simpl in HR.
  set (tzt_row := Merge.first_match (slice tf None (Some 4)) Z dz) in *.
  set (txt_row := Merge.first_match (slice tf None (Some 4)) X dx) in *.
  apply outcome_bind. eapply outcome_row_item; [exact Hz|].
  destruct (getitem tzt_row 6) as [z6|e] eqn:Hz6; [|apply HR; [larger|done]].
  apply outcome_bind, outcome_display. intros d1 h4 Hsub4 Hd1. transport Hsub4.
  apply outcome_bind. eapply outcome_concat_rows; [exact Hsi|exact Hd1|].
  intros s1 h5 Hsub5 Hs1. transport Hsub5.
  apply outcome_bind. eapply outcome_slice_row; [exact Htf|].
  intros p46 h6 Hsub6 Hp46. transport Hsub6.
  apply outcome_bind. eapply outcome_concat_rows; [exact Hs1|exact Hp46|].
  intros s2 h7 Hsub7 Hs2. transport Hsub7.
  apply outcome_bind. eapply outcome_slice_row; [exact Hz|].
  intros z46 h8 Hsub8 Hz46. transport Hsub8.
  apply outcome_bind. eapply outcome_concat_rows; [exact Hs2|exact Hz46|].
  intros s3 h9 Hsub9 Hs3. transport Hsub9.
  apply outcome_bind. eapply outcome_row_item; [exact Hx|].
  simpl in HR.
  destruct (getitem txt_row 4) as [x4|e] eqn:Hx4; [|apply HR; [larger|done]].
  apply outcome_bind, outcome_display. intros d2 h10 Hsub10 Hd2. transport Hsub10.
  apply outcome_bind. eapply outcome_concat_rows; [exact Hs3|exact Hd2|].
  intros s4 h11 Hsub11 Hs4. transport Hsub11.
  apply outcome_bind. eapply outcome_slice_row; [exact Htf|].
  intros p6 h12 Hsub12 Hp6. transport Hsub12.
  eapply outcome_concat_rows; [exact Hs4|exact Hp6|].
  intros merged h13 Hsub13 Hmerged.
  apply HR; [larger|]. simpl. rewrite Hmerged. f_equal.
  by rewrite <- !app_assoc.
Qed.

Lemma row_not_table h l result fields locs :
  row_of h l = Some fields -> h !! result = Some (OTable locs) -> result <> l.
Proof. rewrite row_of_Some. congruence. Qed.

(** The loop on the store appends, to the table at [result], rows that
    read as the records the loop on values appends. *)
Lemma merge_loop_refines h0 tzt_data txt_data result (Z X : list (list pyval))
    locs (T : list (list pyval)) h (acc : list (list pyval)) :
  denotes h0 tzt_data Z -> denotes h0 txt_data X ->
  Forall2 (fun l r => row_of h0 l = Some r) locs T ->
  loop_invariant h0 result h ->
  denotes h result acc ->
  exists r h',
    merge_loop tzt_data txt_data result locs h = (r, h') /\
    loop_invariant h0 result h' /\
    match Merge.merge_loop Z X T acc, r with
    | Ok out, Ok _ => denotes h' result out
    | Raise e, Raise e' => e = e'
    | _, _ => False
    end.
Proof.
  intros HZ HX. revert T h acc.
  induction locs as [|l locs IH]; intros T h acc Hrows Hinv Hacc.
  - apply Forall2_nil_inv_l in Hrows as ->. simpl. by exists (Ok tt), h.
  - apply Forall2_cons_inv_l in Hrows as (tf & T' & Hl & Hrows & ->).
    pose proof (merge_row_invariant h0 tzt_data txt_data result l h Hinv) as Hinv'.
    destruct Hinv as [Hsub0 Hinv].
    assert (Hbuild : outcome (merged_record tzt_data txt_data l) h
                       (fun r h' => same_row (Merge.merge_row Z X tf) r h')).
    { eapply outcome_merged_record.
      - by eapply row_of_weaken.
      - by eapply denotes_weaken.
      - by eapply denotes_weaken.
      - done. }
    destruct Hbuild as (r & h1 & Hrun & Hsub1 & Hsame).
    simpl merge_loop. simpl Merge.merge_loop. unfold bind at 1.
    unfold merge_row, bind in Hinv' |- *. rewrite Hrun in Hinv' |- *.
    destruct r as [merged|e];
      destruct (Merge.merge_row Z X tf) as [v|e'] eqn:Hrow; simpl in Hsame; try done.
    + destruct Hacc as (out_locs & Hres & Hout).
      pose proof (lookup_weaken _ _ _ _ Hres Hsub1) as Hres1.
      unfold append in Hinv' |- *. rewrite Hres1 in Hinv' |- *. simpl in Hinv' |- *.
      apply (IH T'); [done|done|].
      exists (out_locs ++ [merged]). split; [apply lookup_insert_eq|].
      apply Forall2_app.
      * eapply Forall2_impl; [exact Hout|]. intros l' r' Hl'.
        apply (row_of_weaken _ _ _ _ Hsub1) in Hl'.
        pose proof (row_not_table _ _ _ _ _ Hl' Hres1) as Hne.
        apply row_of_Some. rewrite lookup_insert_ne by done. by apply row_of_Some.
      * constructor; [|constructor].
        pose proof (row_not_table _ _ _ _ _ Hsame Hres1) as Hne.
        apply row_of_Some. rewrite lookup_insert_ne by done. by apply row_of_Some.
    + subst e'. simpl. exists (Raise e), h1. done.
Qed.

(** The whole function: on a store in which the three arguments are
    tables of rows, [merge_data] raises what [merge_data] on the values of
    these tables raises, or returns a table that reads as its result. *)
Lemma store_merge_data_refines h tpt_data tzt_data txt_data
    (T Z X : list (list pyval)) :
  denotes h tpt_data T -> denotes h tzt_data Z -> denotes h txt_data X ->
  match Merge.merge_data T Z X, fst (merge_data tpt_data tzt_data txt_data h) with
  | Ok out, Ok result =>
      denotes (snd (merge_data tpt_data tzt_data txt_data h)) result out
  | Raise e, Raise e' => e = e'
  | _, _ => False
  end.
Proof.
  intros (locs & Htpt & Hrows) HZ HX.
  pose proof (alloc_fresh (OTable []) h) as Hfresh.
  set (result := fresh (dom h)) in *.
  set (h1 := <[result := OTable []]> h).
  assert (Hinv : loop_invariant h result h1).
  { split; [by apply insert_subseteq|]. split; [done|].
    exists []. split; [apply lookup_insert_eq|constructor]. }
  assert (Hacc : denotes h1 result []).
  { exists []. split; [apply lookup_insert_eq|constructor]. }
  destruct (merge_loop_refines h tzt_data txt_data result Z X locs T h1 []
              HZ HX Hrows Hinv Hacc) as (r & h2 & Hloop & _ & Hres).
  assert (Htpt1 : h1 !! tpt_data = Some (OTable locs)).
  { destruct Hinv as [Hsub _]. by eapply lookup_weaken. }
  unfold merge_data, bind, alloc, read_table. fold result. fold h1.
  rewrite Htpt1, Hloop. unfold Merge.merge_data.
  destruct r as [[]|e], (Merge.merge_loop Z X T []); simpl in *; done.
Qed.

End StoreRefinement.

(** The store model and the value model agree on the merge fixture. *)
Lemma store_merge_data_refines_witness :
  match Merge.merge_data angle_rows zenith_rows distance_rows,
        fst (Store.merge_data 1%positive 2%positive 3%positive fixture_heap) with
  | Ok out, Ok result =>
      denotes (snd (Store.merge_data 1%positive 2%positive 3%positive fixture_heap))
        result out
  | Raise e, Raise e' => e = e'
  | _, _ => False
  end.
Proof.
  apply (store_merge_data_refines fixture_heap 1%positive 2%positive 3%positive
           angle_rows zenith_rows distance_rows);
    apply denotes_table_of; vm_compute; reflexivity.
Defined.

(** The input of C2 is one a run can meet: a zenith export without
    observations parses to an empty list, and [process_data] then dies in
    [merge_data] with [IndexError]. *)
Example process_data_empty_zenith_export :
  processing_angle (H := AsciiRuntime.runtime) tzt_export_without_rows = Ok [] /\
  Runner.process_data (H := AsciiRuntime.runtime)
    (exports_env (tpt_export "2024-01-02" tpt_body) tzt_export_without_rows txt_export)
    "st1/S1.TPT" "st1/S1.TZT" "st1/S1.TXT" empty_log
  = (Raise IndexError, empty_log).
Proof. split; vm_compute; reflexivity. Qed.

(** An angle row for a target no zenith row has: its record carries
    [None] in the zenith places. *)
Lemma merge_data_gap_zenith_witness :
  let t := PyStr <$> ["S1"; "1.5"; "1"; "T9"; "10.0000"; "190.0000";
                      "2024-01-02"; "10:00:00"] in
  exists x4 : pyval,
    [PyStr "S1"; PyStr "1.5"; PyStr "1"; PyStr "T9"; PyNone; PyStr "10.0000";
     PyStr "190.0000"; PyNone; PyNone; PyNone; PyStr "2024-01-02"; PyStr "10:00:00"]
    = take 4 t ++ [PyNone] ++ take 2 (drop 4 t)
        ++ [PyNone; PyNone] ++ [x4] ++ drop 6 t.
Proof.
  intros t.
  eapply (merge_data_gap_zenith [t] zenith_rows distance_rows _ 0 t).
  - vm_compute. reflexivity.
  - reflexivity.
  - intros r Hr. apply list_elem_of_In in Hr. simpl in Hr.
    destruct Hr as [<-|[<-|[<-|[]]]]; vm_compute; discriminate.
  - reflexivity.
Defined.

(** ** process_threaded: what the workers collect, whatever the schedule *)

Section Collection.
Context `{PyRuntime}.
Import Ordering Runner.
Implicit Types (st : state) (env : environment).

Lemma process_data_outcome env tpt tzt txt lg0 :
  process_data env tpt tzt txt lg0
  = (fst (process_data env tpt tzt txt empty_log),
     if readable env (tpt, tzt, txt) then lg0 else after_exit lg0).
Proof.
  unfold process_data, readable. simpl.
  destruct (fs env tpt), (fs env tzt), (fs env txt); done.
Qed.

Lemma process_data_unreadable env tpt tzt txt lg0 :
  readable env (tpt, tzt, txt) = false ->
  process_data env tpt tzt txt lg0 = (Raise SystemExit, after_exit lg0).
Proof.
  unfold process_data, readable. simpl.
  destruct (fs env tpt), (fs env tzt), (fs env txt); done.
Qed.

Lemma process_data_returns env tpt tzt txt lg0 temp lg' :
  process_data env tpt tzt txt lg0 = (Ok temp, lg') ->
  worker_batch env (tpt, tzt, txt) = Some temp /\
  readable env (tpt, tzt, txt) = true /\ lg' = lg0.
Proof.
  intros Hrun.
  destruct (readable env (tpt, tzt, txt)) eqn:Hread.
  - rewrite process_data_outcome, Hread in Hrun.
    injection Hrun as Hfst <-. unfold worker_batch. simpl. by rewrite Hfst.
  - by rewrite process_data_unreadable in Hrun.
Qed.

Lemma process_data_raises env tpt tzt txt lg0 e lg' :
  process_data env tpt tzt txt lg0 = (Raise e, lg') ->
  worker_batch env (tpt, tzt, txt) = None /\
  lg' = (if readable env (tpt, tzt, txt) then lg0 else after_exit lg0).
Proof.
  intros Hrun. rewrite process_data_outcome in Hrun.
  injection Hrun as Hfst <-. unfold worker_batch. simpl. by rewrite Hfst.
Qed.

Lemma insert_delete_perm {A} (l : list A) (k : nat) w w' :
  l !! k = Some w -> <[k := w']> l ≡ₚ w' :: delete k l.
Proof.
  revert k. induction l as [|x l IH]; intros [|k] Hk; try done.
  simpl in *. rewrite (IH k Hk). apply perm_swap.
Qed.

Lemma omap_insert {A B} (g : A -> option B) (l : list A) (k : nat) w w' :
  l !! k = Some w -> g w = None ->
  omap g (<[k := w']> l) ≡ₚ option_list (g w') ++ omap g l.
Proof.
  intros Hk Hw.
  rewrite (insert_delete_perm l k w w' Hk).
  rewrite (delete_Permutation l k w Hk) at 2.
  simpl. rewrite Hw. by destruct (g w').
Qed.

Lemma omap_insert_same {A B} (g : A -> option B) (l : list A) (k : nat) w w' :
  l !! k = Some w -> g w' = g w -> omap g (<[k := w']> l) = omap g l.
Proof.
  revert k. induction l as [|x l IH]; intros [|k] Hk Hg; try done.
  - simpl in *. injection Hk as ->. by rewrite Hg.
  - simpl. destruct (g x); [f_equal|]; apply (IH k Hk Hg).
Qed.

Lemma fmap_fst_insert {A B} (l : list (A * B)) (k : nat) a b b' :
  l !! k = Some (a, b) ->
  (fun w => fst w) <$> <[k := (a, b')]> l = (fun w => fst w) <$> l.
Proof.
  intros Hk. rewrite list_fmap_insert. simpl.
  apply list_insert_id. by rewrite list_lookup_fmap, Hk.
Qed.

Lemma length_omap_le {A B} (g : A -> option B) (l : list A) :
  (length (omap g l) <= length l)%nat.
Proof.
  induction l as [|x l IH]; [done|].
  change (omap g (x :: l))
    with (match g x with Some y => y :: omap g l | None => omap g l end).
  destruct (g x); simpl; lia.
Qed.

Lemma collection_initial env N files lg0 :
  collection_invariant env files (initial N files lg0).
Proof. by repeat split. Qed.

Lemma collection_step env files st st' :
  step env st st' ->
  collection_invariant env files st ->
  collection_invariant env files st'.
Proof.
  intros Hstep (Hall & Hdata & Hcount).
  destruct Hstep as [st t rest Hp|st k t Hk Hs|st k tpt tzt txt temp lg' Hk Hrun
                    |st k tpt tzt txt e lg' Hk Hrun|st k t Hk];
    unfold collection_invariant; simpl.
  - rewrite fmap_app, <- app_assoc. simpl. rewrite <- Hp.
    split; [done|]. rewrite omap_app. simpl. by rewrite app_nil_r.
  - rewrite (fmap_fst_insert _ _ _ _ _ Hk).
    rewrite (omap_insert_same _ _ _ _ _ Hk) by reflexivity. done.
  - apply process_data_returns in Hrun as (Hbatch & Hread & ->).
    rewrite (fmap_fst_insert _ _ _ _ _ Hk).
    split; [done|]. split.
    + rewrite (omap_insert _ _ _ _ _ Hk) by reflexivity.
      unfold has_run. simpl. rewrite Hbatch. simpl.
      rewrite <- Hdata. symmetry. apply Permutation_cons_append.
    + rewrite length_app. simpl. lia.
  - apply process_data_raises in Hrun as (Hbatch & ->).
    rewrite (fmap_fst_insert _ _ _ _ _ Hk).
    split; [done|]. split; [|done].
    rewrite (omap_insert _ _ _ _ _ Hk) by reflexivity.
    unfold has_run at 1. simpl. by rewrite Hbatch.
  - rewrite (fmap_fst_insert _ _ _ _ _ Hk).
    rewrite (omap_insert_same _ _ _ _ _ Hk) by reflexivity. done.
Qed.

Lemma collection_reachable env N files lg0 st :
  reachable env N files lg0 st -> collection_invariant env files st.
Proof.
  intros Hreach. revert st Hreach. apply rtc_ind_r.
  - apply collection_initial.
  - intros st st' _ Hstep IH. by eapply collection_step.
Qed.

(** At the join the workers are the complete groups, all finished. *)
Lemma joined_threads env files st :
  collection_invariant env files st -> joined st ->
  threads st = (fun t => (t, Finished)) <$> spawned files.
Proof.
  intros (Hall & _) [Hp Hfin]. rewrite Hp, app_nil_r in Hall. rewrite <- Hall.
  clear Hall Hp.
  induction Hfin as [|[t ph] l Hw _ IH]; [done|].
  simpl in Hw. subst ph. rewrite !fmap_cons. simpl. f_equal. exact IH.
Qed.

Lemma joined_collection env files st :
  collection_invariant env files st -> joined st ->
  data st ≡ₚ omap (worker_batch env) (spawned files).
Proof.
  intros Hinv Hjoin. pose proof (joined_threads _ _ _ Hinv Hjoin) as Hthreads.
  destruct Hinv as (_ & Hdata & _). rewrite Hthreads in Hdata.
  rewrite Hdata. clear. induction (spawned files) as [|t l IH]; [done|].
  simpl. unfold has_run at 1. simpl. destruct (worker_batch env t); by rewrite IH.
Qed.

(** The batches collected at the join, and the progress counter, do not
    depend on the interleaving: the counter is the number of collected
    batches, never more than the workers started, the complete groups or
    the groups found; and once every thread is joined the collected
    batches are, up to order, those of the complete groups whose files
    parse and merge. *)
Theorem workers_collect_successful_batches env (N : Z) files lg0 st :
  reachable env N files lg0 st ->
  processed_files st = length (data st) /\
  (length (data st) <= length (threads st))%nat /\
  (length (threads st) <= length (spawned files))%nat /\
  (length (spawned files) <= length files)%nat /\
  (joined st -> data st ≡ₚ omap (worker_batch env) (spawned files)).
Proof.
  intros Hreach. pose proof (collection_reachable _ _ _ _ _ Hreach) as Hinv.
  pose proof Hinv as (Hall & Hdata & Hcount).
  split; [done|]. split; [|split; [|split]].
  - rewrite Hdata. apply length_omap_le.
  - rewrite <- Hall, length_app, length_fmap. lia.
  - apply length_omap_le.
  - intros Hjoin. by apply (joined_collection _ _ _ Hinv Hjoin).
Qed.

(** Without a slot nobody passes [semaphore.acquire()]. *)
Lemma no_slot_all_wait env files lg0 st :
  reachable env 0 files lg0 st ->
  semaphore st = 0 /\ Forall (fun w => snd w = Waiting) (threads st).
Proof.
  intros Hreach. revert st Hreach. apply rtc_ind_r.
  - split; [done|]. constructor.
  - intros st st' _ Hstep [Hsem Hwait].
    destruct Hstep as [st t rest Hp|st k t Hk Hs|st k tpt tzt txt temp lg' Hk Hrun
                      |st k tpt tzt txt e lg' Hk Hrun|st k t Hk]; simpl.
    + split; [done|]. apply Forall_app. split; [done|]. by constructor.
    + lia.
    + by pose proof (Forall_lookup_1 _ _ _ _ Hwait Hk).
    + by pose proof (Forall_lookup_1 _ _ _ _ Hwait Hk).
    + by pose proof (Forall_lookup_1 _ _ _ _ Hwait Hk).
Qed.

(** The joins of lines 327-328 can return if and only if the semaphore has
    a slot or no thread was started: with [max_threads = 0] and a complete
    group, every worker blocks in [acquire] and the run hangs in [join]. *)
Theorem join_needs_a_slot env (N : Z) files lg0 :
  0 <= N ->
  (exists st, reachable env N files lg0 st /\ joined st) <->
  (0 < N \/ spawned files = []).
Proof.
  intros HN. split.
  - intros (st & Hreach & Hjoin).
    destruct (decide (0 < N)) as [|Hzero]; [by left|right].
    assert (N = 0) as -> by lia.
    pose proof (collection_reachable _ _ _ _ _ Hreach) as Hinv.
    pose proof (joined_threads _ _ _ Hinv Hjoin) as Hthreads.
    destruct (no_slot_all_wait _ _ _ _ Hreach) as [_ Hwait].
    rewrite Hthreads in Hwait.
    destruct (spawned files) as [|t l]; [done|]. by inversion Hwait.
  - intros [Hpos|Hnone].
    + exists (after_one_by_one env N files lg0). by apply run_completes.
    + exists (initial N files lg0). split; [apply rtc_refl|].
      split; [done|]. constructor.
Qed.

End Collection.
(** ** process_threaded: the report does not depend on the schedule *)

Section ReportOrder.
Context `{PyRuntime}.
Import Ordering Runner.
Implicit Types (st : state) (env : environment).
Implicit Types (b : list (list pyval)) (data out : list (list (list pyval))).

Lemma keyed_fmap data ks :
  keyed data = Ok ks ->
  ks = (fun b => (default (mkDatetime 0 0 0 0 0 0) (timestamp b), b)) <$> data.
Proof.
  intros Hks. apply keyed_Ok in Hks.
  induction Hks as [|b [k b'] data ks [Hb Hp] _ IH]; [done|].
  rewrite fmap_cons, Hb. simpl in *. by rewrite Hp, <- IH.
Qed.

Lemma NoDup_fmap_eq {A B} (f : A -> B) (l : list A) x y :
  NoDup (f <$> l) -> x ∈ l -> y ∈ l -> f x = f y -> x = y.
Proof.
  induction l as [|a l IH]; intros Hnd Hx Hy Hf; [by apply elem_of_nil in Hx|].
  rewrite fmap_cons in Hnd. apply NoDup_cons in Hnd as [Ha Hnd].
  apply elem_of_cons in Hx as [->|Hx]; apply elem_of_cons in Hy as [->|Hy].
  - done.
  - destruct Ha. rewrite Hf. by apply list_elem_of_fmap_2.
  - destruct Ha. rewrite <- Hf. by apply list_elem_of_fmap_2.
  - by apply IH.
Qed.

Lemma distinct_timestamps_perm data data' :
  data ≡ₚ data' -> distinct_timestamps data -> distinct_timestamps data'.
Proof. intros Hperm [Hall Hnd]. split; by rewrite <- Hperm. Qed.

(** With distinct timestamps the sort forgets the order of its input. *)
Lemma sort_batches_distinct data data' :
  data ≡ₚ data' -> distinct_timestamps data ->
  sort_batches data = sort_batches data'.
Proof.
  intros Hperm Hdist.
  pose proof (distinct_timestamps_perm _ _ Hperm Hdist) as [Hall' _].
  destruct Hdist as [Hall Hnd].
  destruct (keyed_total _ Hall) as [ks Hks].
  destruct (keyed_total _ Hall') as [ks' Hks'].
  unfold sort_batches. rewrite Hks, Hks'. simpl. do 2 f_equal.
  apply keyed_fmap in Hks, Hks'.
  apply (StronglySorted_unique_strong key_le);
    [|apply stable_sort_sorted..|].
  - intros [k1 b1] [k2 b2] H1 H2 Hle Hge.
    rewrite stable_sort_perm, Hks in H1. rewrite stable_sort_perm, Hks' in H2.
    apply list_elem_of_fmap in H1 as (b1' & [= -> <-] & Hb1).
    apply list_elem_of_fmap in H2 as (b2' & [= -> <-] & Hb2).
    rewrite <- Hperm in Hb2.
    unfold key_le in Hle, Hge. simpl in Hle, Hge.
    pose proof (datetime_le_antisym _ _ Hle Hge) as Hkey.
    assert (b1 = b2) as ->; [|done].
    apply (NoDup_fmap_eq timestamp data); [done..|].
    rewrite Forall_forall in Hall.
    destruct (Hall _ Hb1) as [k1 Hk1], (Hall _ Hb2) as [k2 Hk2].
    rewrite Hk1, Hk2 in *. simpl in Hkey. by rewrite Hkey.
  - rewrite !stable_sort_perm, Hks, Hks'. by rewrite Hperm.
Qed.

Lemma concat_perm {A} (l k : list (list A)) :
  l ≡ₚ k -> List.concat l ≡ₚ List.concat k.
Proof.
  induction 1 as [|x l k _ IH|x y l|l k m _ IH1 _ IH2]; simpl.
  - done.
  - by rewrite IH.
  - rewrite !app_assoc. by rewrite (Permutation_app_comm y x).
  - by rewrite IH1.
Qed.

(** How a run ends after the join is decided by the collected batches,
    not by the log. *)
Lemma finish_end env st st' :
  sort_batches (data st) = sort_batches (data st') ->
  fst (finish env st) = fst (finish env st').
Proof.
  intros Hsort. unfold finish, output_excel. rewrite Hsort.
  destruct (sort_batches (data st')) as [sorted|e]; [|done].
  by destruct (xls_save env (List.concat sorted)) as [[]|].
Qed.

(** Two runs over the same files end alike, whatever their interleavings,
    when the batches of the successful workers carry pairwise distinct
    timestamps: the same report, with the same rows in the same order, or
    the same death. Nothing is said of the log. *)
Theorem report_independent_of_schedule env (N : Z) files lg0 st1 st2 :
  reachable env N files lg0 st1 -> joined st1 ->
  reachable env N files lg0 st2 -> joined st2 ->
  distinct_timestamps (omap (worker_batch env) (spawned files)) ->
  fst (finish env st1) = fst (finish env st2).
Proof.
  intros Hreach1 Hjoin1 Hreach2 Hjoin2 Hdist.
  pose proof (joined_collection _ _ _ (collection_reachable _ _ _ _ _ Hreach1) Hjoin1)
    as Hdata1.
  pose proof (joined_collection _ _ _ (collection_reachable _ _ _ _ _ Hreach2) Hjoin2)
    as Hdata2.
  apply finish_end, sort_batches_distinct.
  - by rewrite Hdata1, Hdata2.
  - eapply distinct_timestamps_perm; [|exact Hdist]. by symmetry.
Qed.

(** A report holds every record of every successful worker exactly once:
    its rows are, up to order, the records of the batches of the complete
    groups whose files parse and merge; nothing else is in it, and nothing
    of a failed group. *)
Theorem report_holds_the_collected_records env (N : Z) files lg0 st rows lg' :
  reachable env N files lg0 st -> joined st ->
  finish env st = (Report rows, lg') ->
  rows ≡ₚ List.concat (omap (worker_batch env) (spawned files)) /\
  length rows
  = sum_list ((fun b => length b) <$> omap (worker_batch env) (spawned files)).
Proof.
  intros Hreach Hjoin.
  pose proof (joined_collection _ _ _ (collection_reachable _ _ _ _ _ Hreach) Hjoin)
    as Hdata.
  unfold finish, output_excel.
  destruct (sort_batches (data st)) as [sorted|e] eqn:Hsort; [|done].
  destruct (xls_save env (List.concat sorted)) as [[]|] eqn:Hsave; try done.
  intros [= <- <-].
  assert (Hrows : List.concat sorted
                  ≡ₚ List.concat (omap (worker_batch env) (spawned files))).
  { apply concat_perm. rewrite <- Hdata. by apply sort_batches_perm. }
  split; [done|]. rewrite Hrows. clear.
  induction (omap (worker_batch env) (spawned files)) as [|b l IH]; [done|].
  simpl. rewrite length_app, IH. done.
Qed.

(** Batches that share a timestamp stay in the order in which the workers
    appended them: for every timestamp, the batches carrying it appear in
    the sorted list as they appeared in the collected one. *)
Theorem sort_batches_keeps_ties_in_order data out (k : datetime) :
  sort_batches data = Ok out ->
  filter (fun b => timestamp b = Some k) out
  = filter (fun b => timestamp b = Some k) data.
Proof.
  unfold sort_batches. destruct (keyed data) as [ks|e] eqn:Hks; [|done].
  simpl. intros [= <-].
  assert (Hkeys : forall l : list (datetime * list (list pyval)),
            Forall (fun p => timestamp (snd p) = Some (fst p)) l ->
            filter (fun b => timestamp b = Some k) ((fun p => snd p) <$> l)
            = (fun p => snd p) <$> filter (fun p => fst p = k) l).
  { induction 1 as [|[k' b] l Hp _ IH]; [done|].
    rewrite fmap_cons, !filter_cons, IH. simpl in *. rewrite Hp.
    destruct (decide (Some k' = Some k)) as [[= ->]|Hne].
    - by rewrite decide_True.
    - rewrite decide_False; [done|]. by intros ->. }
  assert (Hall : Forall (fun p => timestamp (snd p) = Some (fst p)) ks).
  { apply keyed_Ok in Hks. clear -Hks.
    induction Hks as [|b p data ks [Hb Hp] _ IH]; constructor; [|done].
    by rewrite Hp. }
  rewrite Hkeys, stable_sort_stable, <- Hkeys, (keyed_snd _ _ Hks); [done..|].
  by rewrite stable_sort_perm.
Qed.

End ReportOrder.
(** ** The parsers: accepted headers and failures *)

Section Parsers.
Context `{PyRuntime}.
Implicit Types (data : list (list string)) (row : list string).

Lemma getitem_last_Ok {A} (l : list A) x : getitem l (-1) = Ok x -> last l = Some x.
Proof.
  unfold getitem. change (-1 <? 0) with true. cbv iota.
  destruct ((0 <=? -1 + Z.of_nat (length l)) && (-1 + Z.of_nat (length l) <? Z.of_nat (length l)))
    eqn:Hin; [|done].
  destruct (l !! Z.to_nat (-1 + Z.of_nat (length l))) as [y|] eqn:Hy; [|done].
  intros [= <-]. rewrite last_lookup, <- Hy. f_equal. lia.
Qed.

Lemma int_Ok (s : string) (n : Z) : int s = Ok n -> py_int s = Some n.
Proof. unfold int. destruct (py_int s); [|done]. by intros [= ->]. Qed.

Lemma distance_body_observations data : distance_body data = observations data.
Proof. unfold distance_body, observations. by rewrite slice_body. Qed.

(** [processing_angle] returns exactly for the exports whose header declares
    a station, an instrument height, two integers, a date and a time: a
    header short of a field, a count that is no integer or a token without
    [=] makes it raise, and no content of the body does. *)
Theorem processing_angle_accepts_declared_headers data :
  (exists out, processing_angle data = Ok out) <->
  (exists station height R K date time,
     declares data station height R K date time).
Proof.
  split.
  - intros [out Hout]. unfold processing_angle in Hout.
    destruct (getitem data 0) as [row0|] eqn:H0; simpl in Hout; [|done].
    destruct (getitem row0 0) as [station|] eqn:Hs; simpl in Hout; [|done].
    destruct (getitem row0 (-1)) as [height|] eqn:Hh; simpl in Hout; [|done].
    destruct (getitem row0 1) as [f1|] eqn:Hf1; simpl in Hout; [|done].
    destruct (int f1) as [R|] eqn:HR; simpl in Hout; [|done].
    destruct (getitem row0 2) as [f2|] eqn:Hf2; simpl in Hout; [|done].
    destruct (int f2) as [K|] eqn:HK; simpl in Hout; [|done].
    destruct (getitem data 1) as [row1|] eqn:H1; simpl in Hout; [|done].
    destruct (getitem row1 1) as [d1|] eqn:Hd1; simpl in Hout; [|done].
    destruct (getitem (split "=" d1) 1) as [date|] eqn:Hdate; simpl in Hout; [|done].
    destruct (getitem row1 2) as [d2|] eqn:Hd2; simpl in Hout; [|done].
    destruct (getitem (split "=" d2) 1) as [time|] eqn:Htime; simpl in Hout; [|done].
    exists station, height, R, K, date, time, row0, row1, f1, f2, d1, d2.
    apply getitem_Ok in H0, Hs, Hf1, Hf2, H1, Hd1, Hdate, Hd2, Htime; try lia.
    apply getitem_last_Ok in Hh. apply int_Ok in HR, HK.
    by repeat split.
  - intros (station & height & R & K & date & time & Hdecl).
    eexists. by apply processing_angle_numbered.
Qed.

(** [processing_distance] on an export whose header declares a station, a
    height, a date and a time returns one record for each observation, in
    order: the station and the height, the fields of the observation, the
    date and the time. Without such a header it raises [IndexError]. *)
Theorem processing_distance_records data :
  (forall station height date time,
     distance_header data station height date time ->
     processing_distance data
     = Ok ((fun row => [station; height] ++ row ++ [date; time])
             <$> observations data)) /\
  ((forall station height date time,
      ~ distance_header data station height date time) ->
   processing_distance data = Raise IndexError).
Proof.
  split.
  - intros station height date time
      (row0 & row1 & d1 & d3 & H0 & H1 & Hs & Hh & Hd1 & Hdate & Hd3 & Htime).
    unfold processing_distance.
    read_item H0. read_item Hs. rewrite (getitem_last _ _ Hh). cbn [mbind result_bind].
    read_item H1. read_item Hd1. read_item Hdate. read_item Hd3. read_item Htime.
    by rewrite distance_body_observations.
  - intros Hno. unfold processing_distance.
    assert (Hkind : forall {A} (l : list A) i,
              getitem l i = Raise IndexError \/ exists x, getitem l i = Ok x).
    { intros A l i. unfold getitem.
      destruct (_ && _); [|by left]. destruct (l !! _); eauto. }
    destruct (Hkind _ data 0) as [->|[row0 H0]]; [done|]. rewrite H0. simpl.
    destruct (Hkind _ row0 0) as [->|[station Hs]]; [done|]. rewrite Hs. simpl.
    destruct (Hkind _ row0 (-1)) as [->|[height Hh]]; [done|]. rewrite Hh. simpl.
    destruct (Hkind _ data 1) as [->|[row1 H1]]; [done|]. rewrite H1. simpl.
    destruct (Hkind _ row1 1) as [->|[d1 Hd1]]; [done|]. rewrite Hd1. simpl.
    destruct (Hkind _ (split "=" d1) 1) as [->|[date Hdate]]; [done|].
    rewrite Hdate. simpl.
    destruct (Hkind _ row1 3) as [->|[d3 Hd3]]; [done|]. rewrite Hd3. simpl.
    destruct (Hkind _ (split "=" d3) 1) as [->|[time Htime]]; [done|].
    destruct (Hno station height date time).
    exists row0, row1, d1, d3.
    apply getitem_Ok in H0, Hs, H1, Hd1, Hdate, Hd3, Htime; try lia.
    apply getitem_last_Ok in Hh. by repeat split.
Qed.



Lemma raises_only_getitem {A} kinds (l : list A) i :
  IndexError ∈ kinds -> raises_only kinds (getitem l i).
Proof.
  intros Hin e. unfold getitem.
  destruct (_ && _); [|by intros [= <-]].
  destruct (l !! _); [done|by intros [= <-]].
Qed.








End Parsers.

(** ** From the angle header to the sort key *)

Section Pipeline.
Context `{PyRuntime}.
Import Merge.
Implicit Types (tpt_data tzt_data txt_data out : list (list pyval)).
Implicit Types (t r : list pyval).

Lemma merge_row_shape tzt_data txt_data t r :
  merge_row tzt_data txt_data t = Ok r ->
  exists (z6 x4 : pyval) (z45 : list pyval),
    length z45 = 2%nat /\
    r = take 4 t ++ [z6] ++ take 2 (drop 4 t) ++ z45 ++ [x4] ++ drop 6 t.
Proof.
  unfold merge_row. rewrite !slice_key, !slice_4_6, slice_6.
  destruct (placeholder tzt_data) as [dz|]; simpl; [|done].
  destruct (placeholder txt_data) as [dx|]; simpl; [|done].
  destruct (getitem _ 6) as [z6|] eqn:Hz6; simpl; [|done].
  destruct (getitem _ 4) as [x4|]; simpl; [|done].
  rewrite slice_4_6. intros [= <-]. exists z6, x4. eexists. split; [|done].
  apply getitem_Ok in Hz6; [|lia]. change (Z.to_nat 6) with 6%nat in Hz6.
  apply lookup_lt_Some in Hz6. rewrite length_take, length_drop. lia.
Qed.

(** Every merged record has exactly four fields more than its angle row:
    the target height, the two zenith readings and the distance. When the
    angle row has at least six fields, what follows its sixth field closes
    the record from field 10 on; for the eight fields of a numbered angle
    row these are the date and the time, fields 10 and 11 of twelve. *)
Theorem merged_record_has_four_more_fields tpt_data tzt_data txt_data out
    (i : nat) t r :
  merge_data tpt_data tzt_data txt_data = Ok out ->
  tpt_data !! i = Some t ->
  out !! i = Some r ->
  length r = (length t + 4)%nat /\
  ((6 <= length t)%nat -> drop 10 r = drop 6 t).
Proof.
  rewrite merge_data_Ok. intros Hrows Ht Hr.
  destruct (Forall2_lookup_l _ _ _ _ _ Hrows Ht) as (r' & Hr' & Hrow).
  rewrite Hr in Hr'. injection Hr' as <-.
  apply merge_row_shape in Hrow as (z6 & x4 & z45 & Hz & ->). split.
  - rewrite !length_app, !length_take, !length_drop, Hz. cbn [length]. lia.
  - intros Hlen.
    rewrite !app_assoc. apply drop_app_length'.
    rewrite !length_app, !length_take, !length_drop, Hz. cbn [length]. lia.
Qed.

(** The timestamp under which a station batch is sorted is the one of the
    header of its angle export: when the header declares at least one round
    and one target, and the first data row of the export has three fields,
    the date and the time of the header stand in fields 10 and 11 of the
    first record of the batch that [process_data] returns. The zenith and
    the distance export have no part in it. *)
Theorem batch_timestamp_from_angle_header (env : Runner.environment)
    tpt tzt txt lg0 tpt_f station height R K date time
    (row : list string) rest b lg' :
  Runner.fs env tpt = Some tpt_f ->
  declares tpt_f station height R K date time ->
  data_rows tpt_f = row :: rest ->
  length row = 3%nat ->
  0 < R -> 0 <= K ->
  Runner.process_data env tpt tzt txt lg0 = (Ok b, lg') ->
  timestamp b = strptime (String.append (String.append date " ") time).
Proof.
  intros Hfs Hdecl Hrows Hlen HR HK Hrun.
  unfold Runner.process_data in Hrun. rewrite Hfs in Hrun.
  destruct (Runner.fs env tzt) as [tzt_f|]; [|done].
  destruct (Runner.fs env txt) as [txt_f|]; [|done].
  rewrite (processing_angle_numbered _ _ _ _ _ _ _ Hdecl), Hrows in Hrun.
  injection Hrun as Hrun _. cbn [mbind result_bind] in Hrun.
  destruct (processing_angle tzt_f) as [tzt_data|]; [|done].
  cbn [mbind result_bind] in Hrun.
  destruct (processing_distance txt_f) as [txt_data|]; [|done].
  cbn [mbind result_bind] in Hrun.
  destruct row as [|f0 [|f1 [|f2 [|]]]]; try done.
  assert (Hcap : (0 <? capacity R (K + 1)) = true).
  { apply Z.ltb_lt. unfold capacity. nia. }
  change (Z.of_nat 0) with 0 in Hrun. rewrite Hcap in Hrun.
  apply merge_data_Ok in Hrun.
  inversion Hrun as [|t0 r0 ts rs Hrow _]; subst.
  apply merge_row_shape in Hrow as (z6 & x4 & z45 & Hz & ->).
  destruct z45 as [|z4 [|z5 [|]]]; try done.
Qed.

End Pipeline.
(** ** get_files: the groups and what they hold *)

Section GetFiles.
Context `{Files.OsPath}.
Import Files.
Implicit Types (files result : list (string * gmap string string)).
Implicit Types (walk : list (string * list string)).
Implicit Types (folder_name key path : string).

Lemma recognised_key ext :
  recognised ext = true ->
  upper (str_tail ext) ∈ ["TPT"; "TZT"; "TXT"] /\
  upper ext = String "." (upper (str_tail ext)).
Proof.
  unfold recognised. intros Hr. apply bool_decide_eq_true in Hr.
  destruct ext as [|c ext]; simpl in *.
  - repeat (apply elem_of_cons in Hr as [Hr|Hr]; [done|]).
    by apply elem_of_nil in Hr.
  - repeat (apply elem_of_cons in Hr as [Hr|Hr];
            [injection Hr as -> ->; split; [by repeat constructor|done]|]).
    by apply elem_of_nil in Hr.
Qed.

Lemma visit_dir_fold result (entry : string * list string) :
  visit_dir result entry
  = foldl (fun result e => setdefault_setitem (fst (fst e)) (snd (fst e)) (snd e) result)
      result (recognised_files [entry]).
Proof.
  unfold visit_dir, recognised_files. rewrite bind_cons.
  change (@nil (string * list string) ≫= _) with (@nil (string * string * string)).
  rewrite app_nil_r. revert result. induction (snd entry) as [|file_name names IH]; intros result; [done|].
  simpl. rewrite IH. unfold visit_file.
  by destruct (recognised (snd (splitext file_name))).
Qed.

Lemma get_files_fold walk :
  get_files walk
  = foldl (fun result e => setdefault_setitem (fst (fst e)) (snd (fst e)) (snd e) result)
      [] (recognised_files walk).
Proof.
  unfold get_files. generalize (@nil (string * gmap string string)) as result.
  induction walk as [|entry walk IH]; intros result; [done|].
  simpl. rewrite IH, visit_dir_fold. unfold recognised_files.
  rewrite !bind_cons.
  change (@nil (string * list string) ≫= _) with (@nil (string * string * string)).
  by rewrite app_nil_r, foldl_app.
Qed.

Lemma stored_setdefault_setitem files folder_name key path folder_name' key' :
  stored (setdefault_setitem folder_name key path files) folder_name' key'
  = if decide (folder_name = folder_name' /\ key = key') then Some path
    else stored files folder_name' key'.
Proof.
  unfold stored. induction files as [|[name file_dict] files IH]; simpl.
  - destruct (String.eqb_spec folder_name folder_name') as [->|Hne]; simpl.
    + rewrite lookup_singleton. destruct (decide (key = key')) as [->|Hk].
      * by rewrite decide_True.
      * rewrite decide_False; [done|]. by intros [_ ?].
    + rewrite decide_False; [done|]. by intros [? _].
  - destruct (String.eqb_spec name folder_name) as [->|Hne]; simpl.
    + destruct (String.eqb_spec folder_name folder_name') as [->|Hne']; simpl.
      * rewrite lookup_insert. destruct (decide (key = key')) as [->|Hk].
        -- by rewrite decide_True.
        -- rewrite decide_False; [done|]. by intros [_ ?].
      * rewrite decide_False; [done|]. by intros [? _].
    + destruct (String.eqb_spec name folder_name') as [->|Hne']; simpl.
      * rewrite decide_False; [done|]. intros [? _]. by subst.
      * apply IH.
Qed.

(** Under a folder name and a key, [get_files] holds the path of the last
    file the walk meets with that folder name and that suffix: directories
    of the same name share one group wherever they lie, and of two files
    with the same suffix in such directories the later one replaces the
    earlier. Nothing is held where the walk meets no such file. *)
Theorem get_files_last_file_wins walk folder_name key :
  stored (get_files walk) folder_name key
  = (fun e => snd e)
      <$> last (filter (fun e => fst e = (folder_name, key)) (recognised_files walk)).
Proof.
  rewrite get_files_fold.
  induction (recognised_files walk) as [|[[f k] p] l IH] using rev_ind; [done|].
  rewrite foldl_app. simpl. rewrite stored_setdefault_setitem, filter_app.
  rewrite filter_cons, filter_nil. simpl.
  destruct (decide (f = folder_name /\ k = key)) as [[-> ->]|Hne].
  - rewrite decide_True by done. by rewrite last_snoc.
  - rewrite decide_False, app_nil_r; [done|]. intros [= -> ->]. by destruct Hne.
Qed.

Lemma elem_of_recognised_files walk folder_name key path :
  (folder_name, key, path) ∈ recognised_files walk <->
  exists dir_path names file_name,
    (dir_path, names) ∈ walk /\ file_name ∈ names /\
    recognised (snd (splitext file_name)) = true /\
    folder_name = basename dir_path /\
    key = upper (str_tail (snd (splitext file_name))) /\
    path = join dir_path file_name.
Proof.
  unfold recognised_files. rewrite list_elem_of_bind. split.
  - intros ([dir_path names] & Hfile & Hentry).
    apply list_elem_of_omap in Hfile as (file_name & Hname & Hrec). simpl in *.
    destruct (recognised (snd (splitext file_name))) eqn:Hr; [|done].
    injection Hrec as <- <- <-. by exists dir_path, names, file_name.
  - intros (dir_path & names & file_name & Hentry & Hname & Hr & -> & -> & ->).
    exists (dir_path, names). split; [|done].
    apply list_elem_of_omap. exists file_name. split; [done|]. simpl. by rewrite Hr.
Qed.

Lemma elem_of_setdefault_setitem files folder_name key path name file_dict :
  (name, file_dict) ∈ setdefault_setitem folder_name key path files ->
  (name, file_dict) ∈ files \/
  name = folder_name /\
  exists old, file_dict = <[key := path]> old /\
    (old = ∅ \/ (folder_name, old) ∈ files).
Proof.
  induction files as [|[name' file_dict'] files IH]; simpl.
  - intros Hin. apply list_elem_of_singleton in Hin as [= -> ->].
    right. split; [done|]. exists ∅. split; [|by left]. done.
  - destruct (String.eqb_spec name' folder_name) as [->|Hne].
    + intros Hin. apply elem_of_cons in Hin as [[= -> ->]|Hin].
      * right. split; [done|]. exists file_dict'. split; [done|]. right. by left.
      * left. by right.
    + intros Hin. apply elem_of_cons in Hin as [[= -> ->]|Hin]; [left; by left|].
      destruct (IH Hin) as [Hold|(-> & old & -> & Hold)]; [left; by right|].
      right. split; [done|]. exists old. split; [done|].
      destruct Hold as [->|Hold]; [by left|right; by right].
Qed.

Lemma names_setdefault_setitem files folder_name key path name :
  name ∈ (fun entry => fst entry) <$> setdefault_setitem folder_name key path files <->
  name = folder_name \/ name ∈ (fun entry => fst entry) <$> files.
Proof.
  induction files as [|[name' file_dict'] files IH]; simpl.
  - rewrite list_elem_of_singleton. split; [by left|]. intros [?|Hin]; [done|].
    by apply elem_of_nil in Hin.
  - destruct (String.eqb_spec name' folder_name) as [->|Hne].
    + rewrite !fmap_cons, !elem_of_cons. simpl. tauto.
    + rewrite !fmap_cons, !elem_of_cons, IH. simpl. tauto.
Qed.

Lemma NoDup_setdefault_setitem files folder_name key path :
  NoDup ((fun entry => fst entry) <$> files) ->
  NoDup ((fun entry => fst entry) <$> setdefault_setitem folder_name key path files).
Proof.
  induction files as [|[name' file_dict'] files IH]; simpl; intros Hnd.
  - apply NoDup_singleton.
  - destruct (String.eqb_spec name' folder_name) as [->|Hne]; [done|].
    rewrite fmap_cons in *. apply NoDup_cons in Hnd as [Hnew Hnd]. simpl in *.
    apply NoDup_cons. split; [|by apply IH].
    rewrite names_setdefault_setitem. intros [?|?]; [by apply Hne|by apply Hnew].
Qed.

Lemma get_files_invariant walk :
  NoDup ((fun entry => fst entry) <$> get_files walk) /\
  forall folder_name file_dict,
    (folder_name, file_dict) ∈ get_files walk ->
    file_dict <> ∅ /\
    forall key path,
      file_dict !! key = Some path ->
      (folder_name, key, path) ∈ recognised_files walk.
Proof.
  rewrite get_files_fold.
  induction (recognised_files walk) as [|[[f k] p] l [IHnd IH]] using rev_ind.
  { split; [constructor|]. intros ?? Hin. by apply elem_of_nil in Hin. }
  rewrite foldl_app. simpl. split; [by apply NoDup_setdefault_setitem|].
  intros folder_name file_dict Hin.
  apply elem_of_setdefault_setitem in Hin as [Hin|(-> & old & -> & Hold)].
  - destruct (IH _ _ Hin) as [Hne Hpaths]. split; [done|].
    intros key path Hpath. apply elem_of_app. left. by apply Hpaths.
  - split; [apply insert_non_empty|]. intros key path Hpath.
    apply lookup_insert_Some in Hpath as [[<- <-]|[Hk Hpath]].
    + apply elem_of_app. right. by constructor.
    + destruct Hold as [->|Hold]; [by rewrite lookup_empty in Hpath|].
      apply elem_of_app. left. by apply (proj2 (IH _ _ Hold)).
Qed.

(** What [get_files] returns is a dict of non-empty groups, one for each
    folder name, whose keys are among [TPT], [TZT] and [TXT] in upper
    case; each path it holds is that of a file the walk met, in a
    directory with the name of the group, whose suffix upper-cases to a dot
    and the key. *)
Theorem get_files_groups walk :
  NoDup ((fun entry => fst entry) <$> get_files walk) /\
  forall folder_name file_dict,
    (folder_name, file_dict) ∈ get_files walk ->
    file_dict <> ∅ /\
    forall key path,
      file_dict !! key = Some path ->
      key ∈ ["TPT"; "TZT"; "TXT"] /\
      exists dir_path names file_name,
        (dir_path, names) ∈ walk /\ file_name ∈ names /\
        basename dir_path = folder_name /\
        path = join dir_path file_name /\
        upper (snd (splitext file_name)) = String "." key.
Proof.
  destruct (get_files_invariant walk) as [Hnd Hinv]. split; [done|].
  intros folder_name file_dict Hin. destruct (Hinv _ _ Hin) as [Hne Hpaths].
  split; [done|]. intros key path Hpath.
  apply Hpaths, elem_of_recognised_files in Hpath
    as (dir_path & names & file_name & Hentry & Hname & Hr & -> & -> & ->).
  destruct (recognised_key _ Hr) as [Hkey Hupper].
  split; [done|]. by exists dir_path, names, file_name.
Qed.

(** The three files handed to a worker are files the walk met with the
    three suffixes in directories of one name: of one name, not
    necessarily one directory. *)
Theorem workers_get_the_files_of_one_folder_name walk tpt tzt txt :
  (tpt, tzt, txt) ∈ Runner.spawned (get_files walk) ->
  exists folder_name,
    (folder_name, "TPT", tpt) ∈ recognised_files walk /\
    (folder_name, "TZT", tzt) ∈ recognised_files walk /\
    (folder_name, "TXT", txt) ∈ recognised_files walk.
Proof.
  intros Hin. unfold Runner.spawned in Hin.
  apply list_elem_of_omap in Hin as ([folder_name file_dict] & Hin & Hall).
  exists folder_name. simpl in Hall. unfold Runner.complete_triple in Hall.
  destruct (_ && _); [|done].
  destruct (file_dict !! "TPT") as [a|] eqn:Ha; [|done].
  destruct (file_dict !! "TZT") as [b|] eqn:Hb; [|done].
  destruct (file_dict !! "TXT") as [c|] eqn:Hc; [|done].
  injection Hall as -> -> ->.
  destruct (proj2 (get_files_invariant walk) _ _ Hin) as [_ Hpaths]. auto.
Qed.

End GetFiles.

(** The groups of the survey folder: the two directories named [st1] make
    one group, the angle file of the later one replaces that of the
    earlier, and the suffix in lower case is kept under the key in upper
    case. *)
Example get_files_survey :
  Files.get_files (H := slash_paths) survey_walk
  = [ ("st1", <["TPT" := "root/b/st1/other.TPT"]>
                (<["TZT" := "root/a/st1/S1.tzt"]>
                   (<["TXT" := "root/a/st1/S1.TXT"]> ∅))) ].
Proof. vm_compute. reflexivity. Qed.

Lemma workers_get_the_files_of_one_folder_name_witness :
  exists folder_name,
    (folder_name, "TPT", "root/b/st1/other.TPT")
      ∈ recognised_files (H := slash_paths) survey_walk /\
    (folder_name, "TZT", "root/a/st1/S1.tzt")
      ∈ recognised_files (H := slash_paths) survey_walk /\
    (folder_name, "TXT", "root/a/st1/S1.TXT")
      ∈ recognised_files (H := slash_paths) survey_walk.
Proof.
  apply (workers_get_the_files_of_one_folder_name (H := slash_paths) survey_walk).
  rewrite get_files_survey. vm_compute. by left.
Defined.
(** ** The statements on the fixtures *)

Lemma second_worker_first_steps :
  nsteps (Runner.step (H := AsciiRuntime.runtime) two_station_env) 8
    (Runner.initial 16 two_station_files empty_log) second_worker_first.
Proof.
  eapply nsteps_l; [eapply Runner.step_start; vm_compute; reflexivity|]. simpl.
  eapply nsteps_l; [eapply Runner.step_start; vm_compute; reflexivity|]. simpl.
  eapply nsteps_l; [eapply (Runner.step_acquire _ _ 1%nat); [reflexivity|simpl; lia]|]. simpl.
  eapply nsteps_l; [eapply (Runner.step_append _ _ 1%nat); [reflexivity|vm_compute; reflexivity]|].
  simpl.
  eapply nsteps_l; [eapply (Runner.step_release _ _ 1%nat); reflexivity|]. simpl.
  eapply nsteps_l; [eapply (Runner.step_acquire _ _ 0%nat); [reflexivity|simpl; lia]|]. simpl.
  eapply nsteps_l; [eapply (Runner.step_append _ _ 0%nat); [reflexivity|vm_compute; reflexivity]|].
  simpl.
  eapply nsteps_l; [eapply (Runner.step_release _ _ 0%nat); reflexivity|]. simpl.
  apply nsteps_O.
Qed.

Lemma second_worker_first_reachable :
  Runner.reachable (H := AsciiRuntime.runtime) two_station_env 16
    two_station_files empty_log second_worker_first.
Proof. eapply rtc_nsteps_2. apply second_worker_first_steps. Qed.

Lemma second_worker_first_joined : Runner.joined second_worker_first.
Proof. split; [done|]. by repeat constructor. Qed.

Lemma two_station_batches :
  omap (worker_batch (H := AsciiRuntime.runtime) two_station_env)
    (Runner.spawned two_station_files)
  = [s1_batch "2024-01-02"; s1_batch "2024-01-01"].
Proof. vm_compute. reflexivity. Qed.

Lemma workers_collect_successful_batches_witness :
  let env := station_env (tpt_export "2024-01-02" tpt_body) in
  let files := station_files ++ [("st3", unreadable_group)] in
  let st := after_one_by_one (H := AsciiRuntime.runtime) env 16 files empty_log in
  Runner.processed_files st = length (Runner.data st) /\
  (length (Runner.data st) <= length (Runner.threads st))%nat /\
  (length (Runner.threads st) <= length (Runner.spawned files))%nat /\
  (length (Runner.spawned files) <= length files)%nat /\
  (Runner.joined st ->
   Runner.data st
   ≡ₚ omap (worker_batch (H := AsciiRuntime.runtime) env) (Runner.spawned files)).
Proof.
  intros env files st.
  apply (workers_collect_successful_batches (H := AsciiRuntime.runtime)
           env 16 files empty_log st).
  apply run_completes. lia.
Defined.

Lemma join_needs_a_slot_witness :
  (exists st,
     Runner.reachable (H := AsciiRuntime.runtime)
       (station_env (tpt_export "2024-01-02" tpt_body)) 0 station_files empty_log st /\
     Runner.joined st) <->
  (0 < 0 \/ Runner.spawned station_files = []).
Proof.
  apply (join_needs_a_slot (H := AsciiRuntime.runtime)
           (station_env (tpt_export "2024-01-02" tpt_body)) 0 station_files empty_log).
  lia.
Defined.

(** Two schedules of the two-station run that collect the batches in
    opposite orders write the same report. *)
Lemma report_independent_of_schedule_witness :
  let st1 := after_one_by_one (H := AsciiRuntime.runtime) two_station_env 16
               two_station_files empty_log in
  Runner.data st1 = [s1_batch "2024-01-02"; s1_batch "2024-01-01"] /\
  Runner.data second_worker_first = [s1_batch "2024-01-01"; s1_batch "2024-01-02"] /\
  fst (Runner.finish (H := AsciiRuntime.runtime) two_station_env st1)
  = fst (Runner.finish (H := AsciiRuntime.runtime) two_station_env second_worker_first).
Proof.
  intros st1. split; [vm_compute; reflexivity|]. split; [reflexivity|].
  destruct (run_completes (H := AsciiRuntime.runtime) two_station_env 16
              two_station_files empty_log ltac:(lia)) as [Hreach Hjoin].
  apply (report_independent_of_schedule (H := AsciiRuntime.runtime)
           two_station_env 16 two_station_files empty_log st1 second_worker_first
           Hreach Hjoin second_worker_first_reachable second_worker_first_joined).
  rewrite two_station_batches. split.
  - repeat constructor; vm_compute; eauto.
  - vm_compute. apply NoDup_cons. split; [|apply NoDup_singleton].
    intros Hin. apply list_elem_of_singleton in Hin. discriminate.
Defined.

Lemma report_holds_the_collected_records_witness :
  let rows := s1_batch "2024-01-01" ++ s1_batch "2024-01-02" in
  rows ≡ₚ List.concat
            (omap (worker_batch (H := AsciiRuntime.runtime) two_station_env)
               (Runner.spawned two_station_files)) /\
  length rows
  = sum_list ((fun b => length b)
                <$> omap (worker_batch (H := AsciiRuntime.runtime) two_station_env)
                      (Runner.spawned two_station_files)).
Proof.
  intros rows.
  apply (report_holds_the_collected_records (H := AsciiRuntime.runtime)
           two_station_env 16 two_station_files empty_log second_worker_first
           rows empty_log
           second_worker_first_reachable second_worker_first_joined).
  vm_compute. reflexivity.
Defined.

Lemma sort_batches_keeps_ties_in_order_witness :
  let k := mkDatetime 2024 1 2 10 0 0 in
  filter (fun b => timestamp (H := AsciiRuntime.runtime) b = Some k)
    [ station_batch "B" "2024-01-01" "09:00:00";
      station_batch "A" "2024-01-02" "10:00:00";
      station_batch "C" "2024-01-02" "10:00:00" ]
  = filter (fun b => timestamp (H := AsciiRuntime.runtime) b = Some k) tied_batches.
Proof.
  intros k.
  apply (sort_batches_keeps_ties_in_order (H := AsciiRuntime.runtime) tied_batches).
  vm_compute. reflexivity.
Defined.

Lemma distance_export_header :
  distance_header txt_export "S1" "1.5" "2024-01-02" "10:00:00".
Proof. unfold distance_header. repeat eexists. Qed.

Lemma processing_distance_records_witness :
  processing_distance txt_export
  = Ok ((fun row => ["S1"; "1.5"] ++ row ++ ["2024-01-02"; "10:00:00"])
          <$> observations txt_export).
Proof.
  apply (proj1 (processing_distance_records txt_export)
           "S1" "1.5" "2024-01-02" "10:00:00").
  apply distance_export_header.
Defined.

Lemma merged_record_has_four_more_fields_witness :
  let t := PyStr <$> ["S1"; "1.5"; "1"; "T1"; "10.0000"; "190.0000";
                      "2024-01-02"; "10:00:00"] in
  let r := PyStr <$> ["S1"; "1.5"; "1"; "T1"; "1.3"; "10.0000"; "190.0000";
                      "90.0000"; "270.0000"; "123.456"; "2024-01-02"; "10:00:00"] in
  length r = (length t + 4)%nat /\
  ((6 <= length t)%nat -> drop 10 r = drop 6 t).
Proof.
  intros t r.
  apply (merged_record_has_four_more_fields angle_rows zenith_rows distance_rows
           [r] 0 t r); reflexivity.
Defined.

Lemma batch_timestamp_from_angle_header_witness :
  timestamp (H := AsciiRuntime.runtime) (s1_batch "2024-01-02")
  = strptime (PyRuntime := AsciiRuntime.runtime)
      (String.append (String.append "2024-01-02" " ") "10:00:00").
Proof.
  apply (batch_timestamp_from_angle_header (H := AsciiRuntime.runtime)
           (station_env (tpt_export "2024-01-02" tpt_body))
           "st1/S1.TPT" "st1/S1.TZT" "st1/S1.TXT" empty_log
           (tpt_export "2024-01-02" tpt_body) "S1" "1.5" 1 1 "2024-01-02" "10:00:00"
           ["T1"; "10.0000"; "190.0000"] [["T2"; "20.0000"; "200.0000"]]
           (s1_batch "2024-01-02") empty_log).
  - reflexivity.
  - unfold declares. repeat eexists.
  - reflexivity.
  - reflexivity.
  - lia.
  - lia.
  - vm_compute. reflexivity.
Defined.

(** ** Initialization: the checks run before the logger exists *)

Section Initialization.
Context `{Files.OsPath}.
Import Init.

(** [__init__] calls [check_paths] and [set_output_path] before it assigns
    [self.logger], and both log through [self.logger]. So a path that is no
    directory does not end in the logged [exit()] of [check_paths]: the
    attempt to log raises [AttributeError], with no attribute assigned. No
    call of [__init__] ends by [exit()] or records a message; and it
    returns only for a directory, with the three attributes assigned and
    the handler attached. *)
Theorem init_checks_before_logger (h : host) (lg0 : logger) (input_path : string) :
  (isdir h input_path = false ->
   __init__ h lg0 input_path
   = (Some AttributeError,
      {| paths := None; output_path := None; logger_attribute := None |})) /\
  fst (__init__ h lg0 input_path) <> Some (Raised SystemExit) /\
  (forall lg,
     logger_attribute (snd (__init__ h lg0 input_path)) = Some lg ->
     messages lg = messages lg0) /\
  (fst (__init__ h lg0 input_path) = None ->
   isdir h input_path = true /\
   makedirs_fails h (Files.join input_path results_folder) = false /\
   snd (__init__ h lg0 input_path)
   = {| paths := Some input_path;
        output_path := Some (Files.join input_path results_folder);
        logger_attribute := Some {| handlers := true; messages := messages lg0 |} |}).
Proof.
  unfold __init__, check_paths, set_output_path, log_then_exit, log. simpl.
  destruct (isdir h input_path); simpl.
  - destruct (String.eqb input_path ""); simpl.
    + repeat split; try done.
    + destruct (makedirs_fails h _); simpl; [repeat split; done|].
      destruct (open_log_fails h _); simpl; repeat split; try done.
      all: by intros lg [= <-].
  - repeat split; done.
Qed.

End Initialization.

(** ** The tokens of the second header row *)

Section HeaderTokens.

Lemma split_no_separator (c : ascii) (s : string) :
  c ∉ String.list_ascii_of_string s -> split c s = [s].
Proof.
  induction s as [|a s IH]; simpl; intros Hc; [done|].
  apply not_elem_of_cons in Hc as [Hne Hc].
  destruct (Ascii.eqb_spec a c) as [->|_]; [done|]. by rewrite (IH Hc).
Qed.

Lemma split_at_separator (c : ascii) (key rest : string) :
  c ∉ String.list_ascii_of_string key ->
  split c (String.append key (String c rest)) = key :: split c rest.
Proof.
  induction key as [|a key IH]; simpl; intros Hc.
  - by rewrite Ascii.eqb_refl.
  - apply not_elem_of_cons in Hc as [Hne Hc].
    destruct (Ascii.eqb_spec a c) as [->|_]; [done|]. by rewrite (IH Hc).
Qed.

(** [token.split('=')[1]], the expression of lines 107 and 141: for a token
    [key=value] it is the value; when the value is followed by a further
    [=], what follows is dropped; and a token without [=] raises
    [IndexError]. *)
Theorem header_token_value (key value rest : string) :
  "="%char ∉ String.list_ascii_of_string key ->
  "="%char ∉ String.list_ascii_of_string value ->
  getitem (split "=" (String.append key (String "=" value))) 1 = Ok value /\
  getitem (split "="
             (String.append key
                (String "=" (String.append value (String "=" rest))))) 1
  = Ok value /\
  getitem (split "=" key) 1 = Raise IndexError.
Proof.
  intros Hkey Hvalue. split; [|split].
  - by rewrite (split_at_separator _ _ _ Hkey), (split_no_separator _ _ Hvalue).
  - rewrite (split_at_separator _ _ _ Hkey), (split_at_separator _ _ _ Hvalue).
    by apply (getitem_lookup _ 1%nat).
  - by rewrite (split_no_separator _ _ Hkey).
Qed.

End HeaderTokens.

Lemma header_token_value_witness :
  getitem (split "=" "Date=2024-01-02") 1 = Ok "2024-01-02" /\
  getitem (split "=" "Date=2024-01-02=x") 1 = Ok "2024-01-02" /\
  getitem (split "=" "Date") 1 = Raise IndexError.
Proof.
  apply (header_token_value "Date" "2024-01-02" "x").
  - vm_compute. intros Hin.
    repeat (apply elem_of_cons in Hin as [Hin|Hin]; [discriminate|]).
    by apply elem_of_nil in Hin.
  - vm_compute. intros Hin.
    repeat (apply elem_of_cons in Hin as [Hin|Hin]; [discriminate|]).
    by apply elem_of_nil in Hin.
Defined.

(** ** merge_data: when it returns, and what the sort key can meet *)

Section MergeTotality.
Context `{PyRuntime}.
Import Merge Ordering.
Implicit Types (tpt_data tzt_data txt_data out : list (list pyval)).
Implicit Types (t r : list pyval).

Lemma first_match_Forall (P : list pyval -> Prop) key rows default :
  Forall P rows -> P default -> P (first_match key rows default).
Proof.
  intros Hrows Hdefault. unfold first_match.
  destruct (List.find _ rows) as [r|] eqn:Hfind; [|done].
  apply find_some in Hfind as [Hin _].
  rewrite Forall_forall in Hrows. by apply Hrows, list_elem_of_In.
Qed.

Lemma merge_row_returns tzt_data txt_data t :
  tzt_data <> [] -> txt_data <> [] ->
  Forall (fun z => (7 <= length z)%nat) tzt_data ->
  Forall (fun x => (5 <= length x)%nat) txt_data ->
  exists r, merge_row tzt_data txt_data t = Ok r.
Proof.
  intros Hz Hx Hzs Hxs. unfold merge_row, placeholder.
  destruct tzt_data as [|z0 tzt_data]; [done|].
  destruct txt_data as [|x0 txt_data]; [done|].
  assert (Hz0 : (z0 :: tzt_data) !! 0%nat = Some z0) by done.
  assert (Hx0 : (x0 :: txt_data) !! 0%nat = Some x0) by done.
  read_item Hz0. read_item Hx0.
  set (tzt_row := first_match _ (z0 :: tzt_data) _).
  set (txt_row := first_match _ (x0 :: txt_data) _).
  assert (Hzrow : (7 <= length tzt_row)%nat).
  { apply (first_match_Forall (fun z => (7 <= length z)%nat)); [done|].
    rewrite length_replicate. by inversion Hzs. }
  assert (Hxrow : (5 <= length txt_row)%nat).
  { apply (first_match_Forall (fun x => (5 <= length x)%nat)); [done|].
    rewrite length_replicate. by inversion Hxs. }
  destruct (lookup_lt_is_Some_2 tzt_row 6) as [z6 Hz6]; [lia|].
  destruct (lookup_lt_is_Some_2 txt_row 4) as [x4 Hx4]; [lia|].
  read_item Hz6. read_item Hx4. eauto.
Qed.

(** [merge_data] returns, whatever the angle rows and whether or not they
    find a match, as soon as the zenith list and the distance list are not
    empty, every zenith row has at least seven fields and every distance
    row at least five. *)
Theorem merge_data_returns_on_full_rows tpt_data tzt_data txt_data :
  tzt_data <> [] -> txt_data <> [] ->
  Forall (fun z => (7 <= length z)%nat) tzt_data ->
  Forall (fun x => (5 <= length x)%nat) txt_data ->
  exists out,
    merge_data tpt_data tzt_data txt_data = Ok out /\
    length out = length tpt_data.
Proof.
  intros Hz Hx Hzs Hxs.
  assert (Hrows : exists out,
            Forall2 (fun t r => merge_row tzt_data txt_data t = Ok r) tpt_data out).
  { induction tpt_data as [|t tpt_data [out IH]]; [by exists []|].
    destruct (merge_row_returns tzt_data txt_data t Hz Hx Hzs Hxs) as [r Hr].
    exists (r :: out). by constructor. }
  destruct Hrows as [out Hrows]. exists out. split.
  - by apply merge_data_Ok.
  - symmetry. by eapply Forall2_length.
Qed.

Lemma merge_row_closes_with_strings tzt_data txt_data (row : list string) r :
  merge_row tzt_data txt_data (PyStr <$> row) = Ok r -> closes_with_strings r.
Proof.
  intros Hrow. apply merge_row_shape in Hrow as (z6 & x4 & z45 & Hz & ->).
  intros j v Hj Hv.
  assert (Hlen : (length (PyStr <$> row) < 6 \/ 6 <= length (PyStr <$> row))%nat) by lia.
  destruct Hlen as [Hshort|Hlong].
  - apply lookup_lt_Some in Hv.
    rewrite !length_app, !length_take, !length_drop, Hz in Hv. cbn [length] in Hv. lia.
  - rewrite !app_assoc in Hv. rewrite lookup_app_r in Hv.
    2:{ rewrite !length_app, !length_take, !length_drop, Hz. cbn [length]. lia. }
    rewrite lookup_drop, list_lookup_fmap in Hv.
    destruct (row !! _) as [s|]; [|done]. injection Hv as <-. by exists s.
Qed.

Lemma to_py_rows (rows : list (list string)) t :
  t ∈ Runner.to_py rows -> exists row : list string, t = PyStr <$> row.
Proof.
  unfold Runner.to_py. intros Hin.
  apply list_elem_of_fmap in Hin as (row & -> & _). by exists row.
Qed.

Lemma worker_batch_closes_with_strings (env : Runner.environment) triple b :
  worker_batch env triple = Some b -> Forall closes_with_strings b.
Proof.
  unfold worker_batch, Runner.process_data.
  destruct (Runner.fs env _) as [tpt_f|]; [|done].
  destruct (Runner.fs env _) as [tzt_f|]; [|done].
  destruct (Runner.fs env _) as [txt_f|]; [|done].
  cbn [fst].
  destruct (processing_angle tpt_f) as [tpt_data|]; [|done]. cbn [mbind result_bind].
  destruct (processing_angle tzt_f) as [tzt_data|]; [|done]. cbn [mbind result_bind].
  destruct (processing_distance txt_f) as [txt_data|]; [|done]. cbn [mbind result_bind].
  destruct (merge_data _ _ _) as [out|] eqn:Hmerge; [|done]. intros [= <-].
  apply merge_data_Ok in Hmerge. apply Forall_forall. intros r Hr.
  apply list_elem_of_lookup in Hr as [i Hr].
  destruct (Forall2_lookup_r _ _ _ _ _ Hmerge Hr) as (t & Ht & Hrow).
  apply list_elem_of_lookup_2, to_py_rows in Ht as [row ->].
  by eapply merge_row_closes_with_strings.
Qed.

Lemma getitem_Raise {A} (l : list A) i e : getitem l i = Raise e -> e = IndexError.
Proof.
  intros Hraise. apply list_elem_of_singleton.
  by apply (raises_only_getitem [IndexError] l i); [constructor|].
Qed.

Lemma sort_key_kinds b e :
  Forall closes_with_strings b ->
  sort_key b = Raise e -> e = IndexError \/ e = ValueError.
Proof.
  intros Hb. unfold sort_key.
  destruct (getitem b 0) as [first|e0] eqn:Hfirst; cbn [mbind result_bind].
  2:{ intros [= <-]. left. by apply getitem_Raise in Hfirst. }
  apply getitem_Ok in Hfirst; [|lia]. change (Z.to_nat 0) with 0%nat in Hfirst.
  assert (Hclose : closes_with_strings first).
  { rewrite Forall_forall in Hb. by apply Hb, list_elem_of_lookup_2 with 0%nat. }
  destruct (getitem first 10) as [date|e0] eqn:Hdate; cbn [mbind result_bind].
  2:{ intros [= <-]. left. by apply getitem_Raise in Hdate. }
  apply getitem_Ok in Hdate; [|lia]. change (Z.to_nat 10) with 10%nat in Hdate.
  destruct (Hclose 10%nat date ltac:(lia) Hdate) as [d ->]. cbn [str_add mbind result_bind].
  destruct (getitem first 11) as [time|e0] eqn:Htime; cbn [mbind result_bind].
  2:{ intros [= <-]. left. by apply getitem_Raise in Htime. }
  apply getitem_Ok in Htime; [|lia]. change (Z.to_nat 11) with 11%nat in Htime.
  destruct (Hclose 11%nat time ltac:(lia) Htime) as [tm ->]. cbn [str_add mbind result_bind].
  destruct (strptime _); [done|]. intros [= <-]. by right.
Qed.

Lemma keyed_kinds data e :
  Forall (Forall closes_with_strings) data ->
  keyed data = Raise e -> e = IndexError \/ e = ValueError.
Proof.
  induction 1 as [|b data Hb _ IH]; [done|]. simpl.
  destruct (sort_key b) as [k|e0] eqn:Hk; cbn [mbind result_bind].
  - destruct (keyed data) as [ks|e0]; cbn [mbind result_bind]; [done|].
    intros [= <-]. by apply IH.
  - intros [= <-]. by apply (sort_key_kinds b).
Qed.

(** The sort key never meets a [None]. Merged records can hold [None],
    but from field 10 on they hold what the angle row holds after its
    sixth field, which are strings; so in every run, whatever the files
    and the interleaving, the sort of line 331 returns or raises
    [IndexError] (a batch without record, a first record short of twelve
    fields) or [ValueError] (a timestamp [strptime] rejects): never
    [TypeError]. *)
Theorem sort_never_meets_None (env : Runner.environment) (N : Z) files lg0 st e :
  Runner.reachable env N files lg0 st ->
  sort_batches (Runner.data st) = Raise e ->
  e = IndexError \/ e = ValueError.
Proof.
  intros Hreach Hsort.
  destruct (collection_reachable _ _ _ _ _ Hreach) as (_ & Hdata & _).
  assert (Hall : Forall (Forall closes_with_strings) (Runner.data st)).
  { rewrite Hdata. apply Forall_forall. intros b Hb.
    apply list_elem_of_omap in Hb as (w & _ & Hw).
    destruct (has_run w); [|done]. by eapply worker_batch_closes_with_strings. }
  unfold sort_batches in Hsort.
  destruct (keyed (Runner.data st)) as [ks|e0] eqn:Hks; [done|].
  cbn [mbind result_bind] in Hsort. injection Hsort as <-. by eapply keyed_kinds.
Qed.

End MergeTotality.

Lemma merge_data_returns_on_full_rows_witness :
  exists out,
    Merge.merge_data
      [PyStr <$> ["S1"; "1.5"; "1"; "T9"; "10.0000"; "190.0000"; "2024-01-02"; "10:00:00"]]
      zenith_rows distance_rows = Ok out /\
    length out = 1%nat.
Proof.
  apply (merge_data_returns_on_full_rows
           [PyStr <$> ["S1"; "1.5"; "1"; "T9"; "10.0000"; "190.0000";
                       "2024-01-02"; "10:00:00"]]
           zenith_rows distance_rows); try done.
  - repeat constructor; simpl; lia.
  - repeat constructor; simpl; lia.
Defined.

Lemma sort_never_meets_None_witness :
  let env := station_env (tpt_export "02.01.2024" tpt_body) in
  let st := after_one_by_one (H := AsciiRuntime.runtime) env 16 station_files empty_log in
  Ordering.sort_batches (H := AsciiRuntime.runtime) (Runner.data st) = Raise ValueError /\
  (ValueError = IndexError \/ ValueError = ValueError).
Proof.
  intros env st.
  assert (Hsort : Ordering.sort_batches (H := AsciiRuntime.runtime) (Runner.data st)
                  = Raise ValueError) by (vm_compute; reflexivity).
  split; [exact Hsort|].
  apply (sort_never_meets_None (H := AsciiRuntime.runtime) env 16 station_files
           empty_log st ValueError); [|exact Hsort].
  apply run_completes. lia.
Defined.

(** ** process_threaded: no deadlock, and every schedule is finite *)

Section Termination.
Context `{PyRuntime}.
Import Runner.
Implicit Types (st : state) (env : environment).
Implicit Types (l : list (string * string * string * phase)).

Lemma steps_left_insert l (k : nat) w w' :
  l !! k = Some w ->
  (sum_list_with steps_left (<[k := w']> l) + steps_left w
   = sum_list_with steps_left l + steps_left w')%nat.
Proof.
  revert k. induction l as [|x l IH]; intros [|k] Hk; try done.
  - simpl in *. injection Hk as ->. lia.
  - simpl in *. specialize (IH k Hk). lia.
Qed.

Lemma step_remaining env st st' :
  step env st st' -> remaining_steps st = S (remaining_steps st').
Proof.
  unfold remaining_steps.
  destruct 1 as [st t rest Hp|st k t Hk Hs|st k tpt tzt txt temp lg' Hk Hrun
                |st k tpt tzt txt e lg' Hk Hrun|st k t Hk]; simpl.
  - rewrite Hp, sum_list_with_app. simpl. lia.
  - pose proof (steps_left_insert _ _ _ (t, Holding) Hk) as Hsum.
    unfold steps_left at 2 4 in Hsum. simpl in Hsum. lia.
  - pose proof (steps_left_insert _ _ _ (tpt, tzt, txt, Releasing) Hk) as Hsum.
    unfold steps_left at 2 4 in Hsum. simpl in Hsum. lia.
  - pose proof (steps_left_insert _ _ _ (tpt, tzt, txt, Releasing) Hk) as Hsum.
    unfold steps_left at 2 4 in Hsum. simpl in Hsum. lia.
  - pose proof (steps_left_insert _ _ _ (t, Finished) Hk) as Hsum.
    unfold steps_left at 2 4 in Hsum. simpl in Hsum. lia.
Qed.

Lemma joined_remaining st : joined st <-> remaining_steps st = 0%nat.
Proof.
  unfold joined, remaining_steps. split.
  - intros [-> Hfin]. simpl.
    induction Hfin as [|[t ph] l Hw _ IH]; [done|].
    simpl in *. subst ph. unfold steps_left at 1. simpl. exact IH.
  - intros Hzero.
    assert (Hp : length (pending st) = 0%nat) by lia.
    assert (Hsum : sum_list_with steps_left (threads st) = 0%nat) by lia.
    split; [by apply nil_length_inv|].
    clear -Hsum. induction (threads st) as [|[t ph] l IH]; [constructor|].
    simpl in Hsum. constructor.
    + unfold steps_left in Hsum. simpl in *. destruct ph; simpl in Hsum; [lia..|done].
    + apply IH. lia.
Qed.

Lemma slots_reachable env (N : Z) files lg0 st :
  0 <= N -> reachable env N files lg0 st ->
  0 <= semaphore st /\ semaphore st + holders st = N.
Proof.
  intros HN Hreach. revert st Hreach. apply rtc_ind_r.
  - simpl. unfold holders. simpl. lia.
  - intros st st' _ Hstep [Hsem Hsum].
    destruct (step_slots _ _ _ Hstep Hsem) as [Hsem' Hsum']. lia.
Qed.

Lemma step_enabled env (N : Z) files lg0 st :
  0 < N -> reachable env N files lg0 st -> ~ joined st ->
  exists st', step env st st'.
Proof.
  intros HN Hreach Hnot.
  destruct (slots_reachable env N files lg0 st ltac:(lia) Hreach) as [Hsem Hsum].
  destruct (pending st) as [|t rest] eqn:Hp; [|eexists; by eapply step_start].
  assert (Hbusy : Exists (fun w => snd w <> Finished) (threads st)).
  { apply not_Forall_Exists; [apply _|]. intros Hfin. by apply Hnot. }
  destruct (decide (Exists (fun w => snd w = Holding) (threads st))) as [Hhold|Hnohold].
  { apply Exists_exists in Hhold as ([[[tpt tzt] txt] ph] & Hw & Hph).
    simpl in Hph. subst ph. apply list_elem_of_lookup in Hw as [k Hk].
    destruct (process_data env tpt tzt txt (lg st)) as [[temp|e] lg'] eqn:Hrun.
    - eexists. by eapply step_append.
    - eexists. by eapply step_raise. }
  destruct (decide (Exists (fun w => snd w = Releasing) (threads st))) as [Hrel|Hnorel].
  { apply Exists_exists in Hrel as ([t ph] & Hw & Hph).
    simpl in Hph. subst ph. apply list_elem_of_lookup in Hw as [k Hk].
    eexists. by eapply step_release. }
  apply Exists_exists in Hbusy as ([t ph] & Hw & Hph). simpl in Hph.
  assert (ph = Waiting) as ->.
  { destruct ph; try done.
    - destruct Hnohold. apply Exists_exists. by exists (t, Holding).
    - destruct Hnorel. apply Exists_exists. by exists (t, Releasing). }
  assert (Hnone : holders st = 0).
  { unfold holders.
    assert (List.filter holds_slot (threads st) = []) as ->; [|done].
    clear -Hnohold Hnorel. induction (threads st) as [|[t' ph'] l IH]; [done|].
    simpl. unfold holds_slot at 1. simpl.
    destruct ph'; simpl.
    - apply IH; intros Hex; [apply Hnohold|apply Hnorel]; by right.
    - destruct Hnohold. by left.
    - destruct Hnorel. by left.
    - apply IH; intros Hex; [apply Hnohold|apply Hnorel]; by right. }
  apply list_elem_of_lookup in Hw as [k Hk].
  eexists. eapply step_acquire; [exact Hk|lia].
Qed.

(** With at least one slot the run cannot deadlock and every interleaving
    is finite. After [n] steps of any schedule exactly four steps for each
    complete group, less [n], remain; every thread is joined exactly when
    none remains; and as long as some remain, a step is possible. So every
    schedule joins all threads, after four steps for each complete group:
    start, admission, the call of [process_data], release. *)
Theorem every_schedule_joins env (N : Z) files lg0 (n : nat) st :
  0 < N ->
  nsteps (step env) n (initial N files lg0) st ->
  (n + remaining_steps st = 4 * length (spawned files))%nat /\
  (joined st <-> remaining_steps st = 0%nat) /\
  (~ joined st -> exists st', step env st st').
Proof.
  intros HN Hrun. split; [|split].
  - revert st Hrun. induction n as [|n IH]; intros st Hrun.
    + inversion Hrun; subst. unfold remaining_steps. simpl. lia.
    + apply nsteps_inv_r in Hrun as (st0 & Hrun & Hstep).
      specialize (IH _ Hrun). apply step_remaining in Hstep. lia.
  - apply joined_remaining.
  - apply (step_enabled env N files lg0); [done|]. by eapply rtc_nsteps_2.
Qed.

End Termination.

Lemma every_schedule_joins_witness :
  (8 + remaining_steps second_worker_first = 4 * length (Runner.spawned two_station_files))%nat /\
  (Runner.joined second_worker_first <-> remaining_steps second_worker_first = 0%nat) /\
  (~ Runner.joined second_worker_first ->
   exists st', Runner.step (H := AsciiRuntime.runtime) two_station_env
                 second_worker_first st').
Proof.
  apply (every_schedule_joins (H := AsciiRuntime.runtime) two_station_env 16
           two_station_files empty_log 8 second_worker_first); [lia|].
  apply second_worker_first_steps.
Defined.

(** ** The sort, applied twice *)

Section SortTwice.
Context `{PyRuntime}.
Import Ordering.
Implicit Types (data out : list (list (list pyval))).

Lemma stable_sort_sorted_id {A} (l : list (datetime * A)) :
  StronglySorted key_le l -> stable_sort l = l.
Proof.
  induction 1 as [|[k x] l _ IH Hall]; [done|].
  simpl. rewrite IH. destruct l as [|[k' y] l']; [done|].
  simpl. apply Forall_cons in Hall as [Hle _].
  unfold key_le, datetime_le in Hle. simpl in Hle. by rewrite Hle.
Qed.

Lemma keyed_of_keys (ks : list (datetime * list (list pyval))) :
  Forall (fun p => timestamp (snd p) = Some (fst p)) ks ->
  keyed ((fun p => snd p) <$> ks) = Ok ks.
Proof.
  intros Hks. apply keyed_Ok.
  induction Hks as [|p ks Hp _ IH]; [constructor|].
  rewrite fmap_cons. by constructor.
Qed.

(** Sorting is idempotent: the list that the sort of line 331 leaves is
    left as it is by a second sort. *)
Theorem sort_batches_twice data out :
  sort_batches data = Ok out -> sort_batches out = Ok out.
Proof.
  unfold sort_batches. destruct (keyed data) as [ks|e] eqn:Hks; [|done].
  cbn [mbind result_bind]. intros [= <-].
  assert (Hall : Forall (fun p => timestamp (snd p) = Some (fst p)) (stable_sort ks)).
  { rewrite stable_sort_perm. apply keyed_Ok in Hks. clear -Hks.
    induction Hks as [|b p data ks [Hb Hp] _ IH]; constructor; [|done].
    by rewrite Hp. }
  rewrite (keyed_of_keys _ Hall). cbn [mbind result_bind].
  by rewrite (stable_sort_sorted_id _ (stable_sort_sorted ks)).
Qed.

End SortTwice.

Lemma sort_batches_twice_witness :
  Ordering.sort_batches (H := AsciiRuntime.runtime)
    [ station_batch "B" "2024-01-01" "09:00:00";
      station_batch "A" "2024-01-02" "10:00:00";
      station_batch "C" "2024-01-03" "08:00:00" ]
  = Ok [ station_batch "B" "2024-01-01" "09:00:00";
         station_batch "A" "2024-01-02" "10:00:00";
         station_batch "C" "2024-01-03" "08:00:00" ].
Proof.
  apply (sort_batches_twice (H := AsciiRuntime.runtime) three_batches).
  apply sort_three_batches.
Defined.

(** ** merge_data, angle row by angle row *)

Section MergeComposition.
Import Merge.
Implicit Types (tpt_data tzt_data txt_data acc : list (list pyval)).

Lemma merge_loop_app tzt_data txt_data tpt_data tpt_data' acc :
  merge_loop tzt_data txt_data (tpt_data ++ tpt_data') acc
  = (acc' ← merge_loop tzt_data txt_data tpt_data acc;
     merge_loop tzt_data txt_data tpt_data' acc').
Proof.
  revert acc. induction tpt_data as [|t tpt_data IH]; intros acc; [done|].
  simpl. destruct (merge_row tzt_data txt_data t) as [merged|e]; [|done].
  cbn [mbind result_bind]. apply IH.
Qed.

Lemma merge_loop_acc tzt_data txt_data tpt_data acc :
  merge_loop tzt_data txt_data tpt_data acc
  = (out ← merge_loop tzt_data txt_data tpt_data []; Ok (acc ++ out)).
Proof.
  revert acc. induction tpt_data as [|t tpt_data IH]; intros acc.
  - simpl. by rewrite app_nil_r.
  - simpl. destruct (merge_row tzt_data txt_data t) as [merged|e]; [|done].
    cbn [mbind result_bind]. rewrite (IH (acc ++ [merged])), (IH [merged]).
    destruct (merge_loop tzt_data txt_data tpt_data []) as [out|e]; [|done].
    cbn [mbind result_bind]. by rewrite <- app_assoc.
Qed.

(** The records of the angle rows are built one by one, each from its own
    row and the two other lists: merging a list of angle rows in two parts
    and joining the results is merging it at once, and an exception of the
    first part is the exception of the whole. *)
Theorem merge_data_in_parts tzt_data txt_data tpt_data tpt_data' :
  merge_data (tpt_data ++ tpt_data') tzt_data txt_data
  = (out ← merge_data tpt_data tzt_data txt_data;
     out' ← merge_data tpt_data' tzt_data txt_data;
     Ok (out ++ out')).
Proof.
  unfold merge_data. rewrite merge_loop_app.
  destruct (merge_loop tzt_data txt_data tpt_data []) as [out|e]; [|done].
  cbn [mbind result_bind]. apply merge_loop_acc.
Qed.

End MergeComposition.

(** ** The log of the workers, statement by statement *)

Section Counting.
Context {A : Type}.
Implicit Types (f g : A -> bool) (l : list A).

Lemma count_app f l l' : count f (l ++ l') = (count f l + count f l')%nat.
Proof. apply sum_list_with_app. Qed.

Lemma count_insert f l (k : nat) w w' :
  l !! k = Some w ->
  (count f (<[k := w']> l) + (if f w then 1 else 0)
   = count f l + (if f w' then 1 else 0))%nat.
Proof.
  unfold count. revert k. induction l as [|x l IH]; intros [|k] Hk; try done.
  - simpl in *. injection Hk as ->. lia.
  - simpl in *. specialize (IH k Hk). lia.
Qed.


Lemma count_le f g l :
  (forall x, f x = true -> g x = true) -> (count f l <= count g l)%nat.
Proof.
  intros Himp. unfold count. induction l as [|x l IH]; simpl; [lia|].
  destruct (f x) eqn:Hf; [rewrite (Himp x Hf)|destruct (g x)]; lia.
Qed.




End Counting.

Section FineLog.
Context `{PyRuntime}.
Import Fine.
Implicit Types (st : state) (env : Runner.environment) (n : nat).
Implicit Types (l : list (string * string * string * phase)).

Lemma open_all_Some env tpt tzt txt opened :
  open_all env tpt tzt txt = Some opened -> readable env (tpt, tzt, txt) = true.
Proof.
  unfold readable, open_all. simpl.
  by destruct (Runner.fs env tpt), (Runner.fs env tzt), (Runner.fs env txt).
Qed.

Lemma open_all_None env tpt tzt txt :
  open_all env tpt tzt txt = None -> readable env (tpt, tzt, txt) = false.
Proof.
  unfold readable, open_all. simpl.
  by destruct (Runner.fs env tpt), (Runner.fs env tzt), (Runner.fs env txt).
Qed.



Lemma has_cleared_logged env w : has_cleared env w = true -> has_logged env w = true.
Proof.
  unfold has_cleared, has_logged. destruct (readable env (fst w)); [done|].
  by destruct (snd w).
Qed.

Lemma log_initial env (N : Z) files lg0 :
  log_invariant env lg0 (initial N files lg0) 0.
Proof.
  unfold log_invariant. simpl. split; [constructor|]. split; [by rewrite app_nil_r|].
  split; [done|]. split; [done|]. split; [unfold count; simpl; lia|].
  by rewrite andb_true_r.
Qed.

Lemma log_step env lg0 st st' n :
  step env st st' ->
  log_invariant env lg0 st n ->
  exists n',
    log_invariant env lg0 st' n' /\
    (n' = n \/
     n' = S n /\
     exists (k : nat) t,
       threads st !! k = Some (t, Caught) /\ Runner.handlers (lg st) = true).
Proof.
  intros Hstep (Hentered & Hentries & Hbound & Hzero & Hone & Hhandlers).
  destruct Hstep as [st t rest Hp|st k t Hk Hs
                    |st k tpt tzt txt tpt_f tzt_f txt_f temp Hk Hopen Hrun
                    |st k tpt tzt txt tpt_f tzt_f txt_f e Hk Hopen Hrun
                    |st k tpt tzt txt Hk Hopen|st k t Hk|st k t Hk|st k t Hk];
    unfold log_invariant; simpl.
  - exists n. split; [|by left]. rewrite !count_app.
    assert (Hl : count (has_logged env) [(t, Waiting)] = 0%nat).
    { unfold count, has_logged. simpl. by rewrite andb_false_r. }
    assert (Hc : count (has_cleared env) [(t, Waiting)] = 0%nat).
    { unfold count, has_cleared. simpl. by rewrite andb_false_r. }
    rewrite Hl, Hc, !Nat.add_0_r. split; [|done].
    apply Forall_app. split; [done|]. constructor; [|constructor].
    by intros [?|?].
  - exists n. split; [|by left].
    pose proof (count_insert (has_logged env) _ _ _ (t, Holding) Hk) as Hl.
    pose proof (count_insert (has_cleared env) _ _ _ (t, Holding) Hk) as Hc.
    unfold has_logged at 2 4 in Hl. unfold has_cleared at 2 4 in Hc.
    simpl in Hl, Hc. rewrite andb_false_r in Hl, Hc.
    replace (count (has_logged env) (<[k := (t, Holding)]> (threads st)))
      with (count (has_logged env) (threads st)) by lia.
    replace (count (has_cleared env) (<[k := (t, Holding)]> (threads st)))
      with (count (has_cleared env) (threads st)) by lia.
    split; [|done]. apply Forall_insert; [done|]. by intros [?|?].
  - exists n. split; [|by left]. apply open_all_Some in Hopen.
    pose proof (count_insert (has_logged env) _ _ _ (tpt, tzt, txt, Releasing) Hk) as Hl.
    pose proof (count_insert (has_cleared env) _ _ _ (tpt, tzt, txt, Releasing) Hk) as Hc.
    unfold has_logged at 2 4 in Hl. unfold has_cleared at 2 4 in Hc.
    simpl in Hl, Hc. rewrite Hopen in Hl, Hc. simpl in Hl, Hc.
    replace (count (has_logged env) (<[k := (tpt, tzt, txt, Releasing)]> (threads st)))
      with (count (has_logged env) (threads st)) by lia.
    replace (count (has_cleared env) (<[k := (tpt, tzt, txt, Releasing)]> (threads st)))
      with (count (has_cleared env) (threads st)) by lia.
    split; [|done]. apply Forall_insert; [done|]. by intros [?|?].
  - exists n. split; [|by left]. apply open_all_Some in Hopen.
    pose proof (count_insert (has_logged env) _ _ _ (tpt, tzt, txt, Releasing) Hk) as Hl.
    pose proof (count_insert (has_cleared env) _ _ _ (tpt, tzt, txt, Releasing) Hk) as Hc.
    unfold has_logged at 2 4 in Hl. unfold has_cleared at 2 4 in Hc.
    simpl in Hl, Hc. rewrite Hopen in Hl, Hc. simpl in Hl, Hc.
    replace (count (has_logged env) (<[k := (tpt, tzt, txt, Releasing)]> (threads st)))
      with (count (has_logged env) (threads st)) by lia.
    replace (count (has_cleared env) (<[k := (tpt, tzt, txt, Releasing)]> (threads st)))
      with (count (has_cleared env) (threads st)) by lia.
    split; [|done]. apply Forall_insert; [done|]. by intros [?|?].
  - exists n. split; [|by left]. apply open_all_None in Hopen.
    pose proof (count_insert (has_logged env) _ _ _ (tpt, tzt, txt, Caught) Hk) as Hl.
    pose proof (count_insert (has_cleared env) _ _ _ (tpt, tzt, txt, Caught) Hk) as Hc.
    unfold has_logged at 2 4 in Hl. unfold has_cleared at 2 4 in Hc.
    simpl in Hl, Hc. rewrite Hopen in Hl, Hc. simpl in Hl, Hc.
    replace (count (has_logged env) (<[k := (tpt, tzt, txt, Caught)]> (threads st)))
      with (count (has_logged env) (threads st)) by lia.
    replace (count (has_cleared env) (<[k := (tpt, tzt, txt, Caught)]> (threads st)))
      with (count (has_cleared env) (threads st)) by lia.
    split; [|done]. apply Forall_insert; [done|]. by intros _.
  - assert (Hread : readable env t = false).
    { apply (Forall_lookup_1 _ _ _ _ Hentered Hk). by left. }
    pose proof (count_insert (has_logged env) _ _ _ (t, Logged) Hk) as Hl.
    pose proof (count_insert (has_cleared env) _ _ _ (t, Logged) Hk) as Hc.
    unfold has_logged at 2 4 in Hl. unfold has_cleared at 2 4 in Hc.
    simpl in Hl, Hc. rewrite Hread in Hl, Hc. simpl in Hl, Hc.
    replace (count (has_cleared env) (<[k := (t, Logged)]> (threads st)))
      with (count (has_cleared env) (threads st)) by lia.
    assert (Hentered' : Forall (handler_entered env) (<[k := (t, Logged)]> (threads st))).
    { apply Forall_insert; [done|]. by intros _. }
    unfold Runner.log. destruct (Runner.handlers (lg st)) eqn:Hattached; simpl.
    + exists (S n). split; [|right; split; [done|]; by exists k, t]. split; [done|].
      symmetry in Hhandlers. apply andb_true_iff in Hhandlers as [Hlg0 Hnone].
      split; [|split; [lia|split; [congruence|split; [lia|by rewrite Hlg0, Hnone]]]].
      rewrite Hentries, <- app_assoc. f_equal.
      change [OSError] with (replicate 1 OSError).
      rewrite <- replicate_add. f_equal. lia.
    + exists n. split; [|by left]. split; [done|]. split; [done|].
      split; [lia|]. split; [done|]. split; [|by rewrite Hattached].
      intros Hlg0 _. apply Hone; [done|].
      rewrite Hlg0 in Hhandlers. simpl in Hhandlers.
      symmetry in Hhandlers. apply Nat.eqb_neq in Hhandlers.
      pose proof (count_le (has_cleared env) (has_logged env) (threads st)
                    (has_cleared_logged env)). lia.
  - assert (Hread : readable env t = false).
    { apply (Forall_lookup_1 _ _ _ _ Hentered Hk). by right. }
    pose proof (count_insert (has_logged env) _ _ _ (t, Releasing) Hk) as Hl.
    pose proof (count_insert (has_cleared env) _ _ _ (t, Releasing) Hk) as Hc.
    unfold has_logged at 2 4 in Hl. unfold has_cleared at 2 4 in Hc.
    simpl in Hl, Hc. rewrite Hread in Hl, Hc. simpl in Hl, Hc.
    replace (count (has_logged env) (<[k := (t, Releasing)]> (threads st)))
      with (count (has_logged env) (threads st)) by lia.
    exists n. split; [|by left]. split; [apply Forall_insert; [done|by intros [?|?]]|].
    split; [done|]. split; [done|]. split; [done|]. split; [done|].
    assert (Nat.eqb (count (has_cleared env) (<[k := (t, Releasing)]> (threads st))) 0
            = false) as -> by (apply Nat.eqb_neq; lia).
    by rewrite andb_false_r.
  - exists n. split; [|by left].
    pose proof (count_insert (has_logged env) _ _ _ (t, Finished) Hk) as Hl.
    pose proof (count_insert (has_cleared env) _ _ _ (t, Finished) Hk) as Hc.
    unfold has_logged at 2 4 in Hl. unfold has_cleared at 2 4 in Hc.
    simpl in Hl, Hc.
    replace (count (has_logged env) (<[k := (t, Finished)]> (threads st)))
      with (count (has_logged env) (threads st)) by lia.
    replace (count (has_cleared env) (<[k := (t, Finished)]> (threads st)))
      with (count (has_cleared env) (threads st)) by lia.
    split; [|done]. apply Forall_insert; [done|]. by intros [?|?].
Qed.

Lemma log_reachable env (N : Z) files lg0 st :
  reachable env N files lg0 st -> exists n, log_invariant env lg0 st n.
Proof.
  intros Hreach. revert st Hreach. apply rtc_ind_r.
  - exists 0%nat. apply log_initial.
  - intros st st' _ Hstep [n Hinv].
    destruct (log_step _ _ _ _ _ Hstep Hinv) as (n' & Hinv' & _). by exists n'.
Qed.







(** The runs in which [process_data] is one step are among the runs
    statement by statement: those in which no worker is interrupted
    between its [except] and its [exit()]. *)
Lemma coarse_step env (st st' : Runner.state) :
  Runner.step env st st' -> rtc (step env) (of_state st) (of_state st').
Proof.
  destruct 1 as [st t rest Hp|st k t Hk Hs|st k tpt tzt txt temp lg' Hk Hrun
                |st k tpt tzt txt e lg' Hk Hrun|st k t Hk].
  - apply rtc_once. unfold of_state. simpl. rewrite fmap_app.
    by apply (step_start env (of_state st) t rest).
  - apply rtc_once. unfold of_state. simpl. rewrite list_fmap_insert.
    apply (step_acquire env (of_state st) k t); [|done].
    simpl. by rewrite list_lookup_fmap, Hk.
  - apply rtc_once. unfold of_state. simpl. rewrite list_fmap_insert.
    unfold Runner.process_data in Hrun.
    destruct (Runner.fs env tpt) as [tpt_f|] eqn:H1; [|done].
    destruct (Runner.fs env tzt) as [tzt_f|] eqn:H2; [|done].
    destruct (Runner.fs env txt) as [txt_f|] eqn:H3; [|done].
    injection Hrun as Hrun <-.
    apply (step_append env (of_state st) k tpt tzt txt tpt_f tzt_f txt_f temp).
    + simpl. by rewrite list_lookup_fmap, Hk.
    + unfold open_all. by rewrite H1, H2, H3.
    + exact Hrun.
  - unfold of_state. simpl. rewrite list_fmap_insert.
    assert (Hk' : threads (of_state st) !! k = Some (tpt, tzt, txt, Holding)).
    { simpl. by rewrite list_lookup_fmap, Hk. }
    destruct (open_all env tpt tzt txt) as [[[tpt_f tzt_f] txt_f]|] eqn:Hopen.
    + apply rtc_once. unfold open_all in Hopen. unfold Runner.process_data in Hrun.
      destruct (Runner.fs env tpt) as [a|] eqn:H1; [|done].
      destruct (Runner.fs env tzt) as [b|] eqn:H2; [|done].
      destruct (Runner.fs env txt) as [c|] eqn:H3; [|done].
      injection Hopen as -> -> ->. injection Hrun as Hrun <-.
      apply (step_raise env (of_state st) k tpt tzt txt tpt_f tzt_f txt_f e);
        [done| |done].
      unfold open_all. by rewrite H1, H2, H3.
    + assert (Hlg : lg' = Runner.clear_handlers (Runner.log OSError (Runner.lg st))).
      { unfold open_all in Hopen. unfold Runner.process_data in Hrun.
        destruct (Runner.fs env tpt), (Runner.fs env tzt), (Runner.fs env txt);
          try done; by injection Hrun as _ <-. }
      subst lg'.
      eapply rtc_l; [by apply (step_catch env (of_state st) k tpt tzt txt)|].
      eapply rtc_l.
      { eapply (step_log env _ k (tpt, tzt, txt)). simpl.
        apply list_lookup_insert_eq. by eapply lookup_lt_Some. }
      eapply rtc_l.
      { eapply (step_clear_exit env _ k (tpt, tzt, txt)). simpl.
        apply list_lookup_insert_eq. rewrite length_insert. by eapply lookup_lt_Some. }
      simpl. rewrite !list_insert_insert_eq. apply rtc_refl.
  - apply rtc_once. unfold of_state. simpl. rewrite list_fmap_insert.
    apply (step_release env (of_state st) k t).
    simpl. by rewrite list_lookup_fmap, Hk.
Qed.

Lemma coarse_runs_are_fine env (N : Z) files lg0 (st : Runner.state) :
  Runner.reachable env N files lg0 st -> reachable env N files lg0 (of_state st).
Proof.
  intros Hreach. revert st Hreach. apply rtc_ind_r; [apply rtc_refl|].
  intros st st' _ Hstep IH. unfold reachable in *.
  etrans; [exact IH|]. by apply coarse_step.
Qed.

End FineLog.



(** ** process_data: the ways it fails *)

Section ReadingFailures.
Context `{PyRuntime}.
Import Reading.
Implicit Types (env : environment) (lg : Runner.logger).



(** On files that read as rows, [process_data] is the one of the runner. *)
Lemma process_data_on_rows (env0 : Runner.environment) tpt tzt txt (lg0 : Runner.logger) :
  process_data (rows_of env0) tpt tzt txt lg0
  = (of_result (fst (Runner.process_data env0 tpt tzt txt lg0)),
     snd (Runner.process_data env0 tpt tzt txt lg0)).
Proof.
  unfold process_data, Runner.process_data, rows_of. simpl.
  destruct (Runner.fs env0 tpt) as [tpt_f|]; [|done].
  destruct (Runner.fs env0 tzt) as [tzt_f|]; [|done].
  destruct (Runner.fs env0 txt) as [txt_f|]; [|done].
  simpl.
  destruct (processing_angle tpt_f) as [tpt_data|]; [|done]. simpl.
  destruct (processing_angle tzt_f) as [tzt_data|]; [|done]. simpl.
  by destruct (processing_distance txt_f) as [txt_data|].
Qed.


End ReadingFailures.

